(** * Thumbnail designer: the layer compositing and rendering engine

    A shallow embedding of [thumbnail_designer.py].  Python [float]s are
    IEEE binary64 numbers and are modelled by Rocq's primitive floats, so
    that [int(height * 0.35)] and friends evaluate to the very values the
    interpreter produces.  Python [int]s are [Z].  Text is a list of
    characters (code points below 256).  Pillow and the file system are
    external collaborators and enter through the record [Pillow]. *)

From Stdlib Require Import ZArith List Bool Ascii String Lia.
From Stdlib Require Import PrimFloat SpecFloat FloatOps.
From Stdlib Require Import Permutation DecimalString.
From Stdlib Require Uint63.
Import ListNotations.

Set Warnings "-inexact-float,-abstract-large-number,-register-all".
Local Open Scope Z_scope.

(** ** Exceptions and results *)

Inductive exn : Type :=
| FileNotFoundError (path : string)
| OSError
| ValueError
| OverflowError
| ZeroDivisionError
| TypeError.

Inductive result (A : Type) : Type :=
| Ok (a : A)
| Raise (e : exn).

Arguments Ok {A} a.
Arguments Raise {A} e.

Definition bind {A B : Type} (m : result A) (k : A -> result B) : result B :=
  match m with
  | Ok a => k a
  | Raise e => Raise e
  end.

Notation "x <- m ;; k" := (bind m (fun x => k))
  (at level 61, m at next level, right associativity).
Notation "' p <- m ;; k" := (bind m (fun x => let p := x in k))
  (at level 61, p pattern, m at next level, right associativity).

Definition raises {A : Type} (m : result A) : Prop :=
  exists e, m = Raise e.

(** [except OSError] also catches its subclass [FileNotFoundError]. *)
Definition is_OSError (e : exn) : bool :=
  match e with
  | OSError | FileNotFoundError _ => true
  | _ => false
  end.

(** ** Python builtins *)

Abbreviation str := (list ascii).

Module Py.

(** [float(z)] for an [int]: the nearest binary64 number.  Below [2^62]
    the conversion is the processor's; above it goes through the
    specification of rounding. *)
Definition float_of_Z (z : Z) : float :=
  if Z.abs z <? 2 ^ 62 then
    let m := of_uint63 (Uint63.of_Z (Z.abs z)) in
    if z <? 0 then (- m)%float else m
  else SF2Prim (binary_normalize prec emax z 0 false).

(** [int(f)]: truncation toward zero; [nan] and the infinities raise. *)
Definition int_of_float (f : float) : result Z :=
  if is_nan f then Raise ValueError
  else if is_infinity f then Raise OverflowError
  else if is_zero f then Ok 0
  else
    let (m, e) := Z.frexp f in
    let mant := Uint63.to_Z (normfr_mantissa m) in
    let e := e - prec in
    let v := if 0 <=? e then Z.shiftl mant e else Z.shiftr mant (- e) in
    Ok (if get_sign f then - v else v).

(** [a / b] on two [int]s (true division). *)
Definition truediv (a b : Z) : result float :=
  if b =? 0 then Raise ZeroDivisionError
  else Ok (float_of_Z a / float_of_Z b)%float.

(** [min(a, b)] keeps its first argument unless the second is smaller;
    [max(a, b)] keeps its first argument unless the second is larger. *)
Definition min (a b : float) : float := if (b <? a)%float then b else a.
Definition max (a b : float) : float := if (a <? b)%float then b else a.

(** [c.isspace()] for a code point below 256. *)
Definition isspace (c : ascii) : bool :=
  let n := Z.of_N (N_of_ascii c) in
  ((9 <=? n) && (n <=? 13)) || ((28 <=? n) && (n <=? 32))
  || (n =? 133) || (n =? 160).

Fixpoint lstrip (s : str) : str :=
  match s with
  | [] => []
  | c :: s' => if isspace c then lstrip s' else s
  end.

Fixpoint rstrip (s : str) : str :=
  match s with
  | [] => []
  | c :: s' =>
      match rstrip s' with
      | [] => if isspace c then [] else [c]
      | r => c :: r
      end
  end.

(** [s.strip()] *)
Definition strip (s : str) : str := rstrip (lstrip s).

(** The pieces of [s] between the characters satisfying [p]; never empty:
    [split_by p ""] is [[""]]. *)
Fixpoint split_by (p : ascii -> bool) (s : str) : list str :=
  match s with
  | [] => [[]]
  | c :: s' =>
      if p c then [] :: split_by p s'
      else match split_by p s' with
           | [] => [[c]]
           | w :: ws => (c :: w) :: ws
           end
  end.

Definition nonempty (s : str) : bool :=
  match s with [] => false | _ :: _ => true end.

(** [s.split(" ")]: every single space separates, empty pieces are kept. *)
Definition split_space (s : str) : list str := split_by (Ascii.eqb " ") s.

(** [s.split()]: the non-empty words between runs of whitespace. *)
Definition split (s : str) : list str := filter nonempty (split_by isspace s).

(** [sep.join(parts)] *)
Fixpoint join (sep : str) (parts : list str) : str :=
  match parts with
  | [] => []
  | x :: rest =>
      match rest with
      | [] => x
      | _ :: _ => x ++ sep ++ join sep rest
      end
  end.

(** Line boundaries of [str.splitlines] below code point 256. *)
Definition is_linebreak (c : ascii) : bool :=
  let n := Z.of_N (N_of_ascii c) in
  ((10 <=? n) && (n <=? 13)) || ((28 <=? n) && (n <=? 30)) || (n =? 133).

Fixpoint splitlines_from (cur : str) (s : str) : list str :=
  match s with
  | [] => if nonempty cur then [rev cur] else []
  | c :: s' =>
      if is_linebreak c then
        rev cur ::
          match s' with
          | c' :: s'' =>
              if (Ascii.eqb c "013" && Ascii.eqb c' "010")%bool
              then splitlines_from [] s''
              else splitlines_from [] s'
          | [] => []
          end
      else splitlines_from (c :: cur) s'
  end.

(** [s.splitlines()] *)
Definition splitlines (s : str) : list str := splitlines_from [] s.

End Py.

(** [clamp(value, min_value, max_value)] *)
Definition clamp (value min_value max_value : float) : float :=
  Py.max min_value (Py.min value max_value).

(** ** Scene model (the dataclasses) *)

Local Open Scope string_scope.

Module GradientSettings.
Record t : Type := mk {
  start_color : string;
  end_color : string;
  direction : string  (* horizontal | vertical | diagonal *)
}.
Definition default : t := mk "#ff3838" "#ffcf00" "horizontal".
End GradientSettings.

Module BackgroundSettings.
Record t : Type := mk {
  mode : string;  (* solid | gradient | image *)
  solid_color : string;
  gradient : GradientSettings.t;
  image_path : option string;
  blur_radius : float;
  brightness : float;
  contrast : float;
  saturation : float
}.
Definition default : t :=
  mk "solid" "#202020" GradientSettings.default None 0.0 1.0 1.0 1.0.
End BackgroundSettings.

Module ShadowSettings.
Record t : Type := mk {
  enabled : bool;
  offset_x : Z;
  offset_y : Z;
  blur_radius : Z;
  color : string;
  opacity : float
}.
Definition default : t := mk true 6 6 12 "#000000" 0.6.
End ShadowSettings.

Module StrokeSettings.
Record t : Type := mk {
  width : Z;
  color : string
}.
Definition default : t := mk 6 "#ffffff".
End StrokeSettings.

Module TextLayer.
Record t : Type := mk {
  id : string;
  label : string;
  text : string;
  font_file : string;
  font_size : Z;
  color : string;
  align : string;  (* left | center | right *)
  position_x : float;
  position_y : float;
  max_width : float;
  tracking : Z;
  rotation : float;
  shadow : ShadowSettings.t;
  stroke : StrokeSettings.t
}.
(** [TextLayer()] with the id its default factory drew. *)
Definition default (fresh_id : string) : t :=
  mk fresh_id "Judul Utama" "Judul Thumbnail Menarik" "Montserrat-ExtraBold.ttf"
     150 "#ffffff" "center" 0.5 0.35 0.9 0 0.0
     ShadowSettings.default StrokeSettings.default.
Definition set_id (v : string) (l : t) : t :=
  mk v (label l) (text l) (font_file l) (font_size l) (color l) (align l)
     (position_x l) (position_y l) (max_width l) (tracking l) (rotation l)
     (shadow l) (stroke l).
Definition set_label (v : string) (l : t) : t :=
  mk (id l) v (text l) (font_file l) (font_size l) (color l) (align l)
     (position_x l) (position_y l) (max_width l) (tracking l) (rotation l)
     (shadow l) (stroke l).
End TextLayer.

Module ImageLayer.
Record t : Type := mk {
  id : string;
  label : string;
  image_path : option string;
  scale : float;
  rotation : float;
  position_x : float;
  position_y : float;
  opacity : float;
  flip_horizontal : bool;
  flip_vertical : bool;
  add_shadow : bool;
  shadow_blur : Z;
  shadow_offset_x : Z;
  shadow_offset_y : Z;
  shadow_opacity : float
}.
Definition default (fresh_id : string) : t :=
  mk fresh_id "Gambar" None 1.0 0.0 0.75 0.65 1.0 false false true 24 0 12 0.7.
Definition set_id (v : string) (l : t) : t :=
  mk v (label l) (image_path l) (scale l) (rotation l) (position_x l)
     (position_y l) (opacity l) (flip_horizontal l) (flip_vertical l)
     (add_shadow l) (shadow_blur l) (shadow_offset_x l) (shadow_offset_y l)
     (shadow_opacity l).
Definition set_label (v : string) (l : t) : t :=
  mk (id l) v (image_path l) (scale l) (rotation l) (position_x l)
     (position_y l) (opacity l) (flip_horizontal l) (flip_vertical l)
     (add_shadow l) (shadow_blur l) (shadow_offset_x l) (shadow_offset_y l)
     (shadow_opacity l).
End ImageLayer.

Module OverlayLayer.
Record t : Type := mk {
  id : string;
  label : string;
  mode : string;  (* rectangle | circle | banner *)
  color : string;
  opacity : float;
  position_x : float;
  position_y : float;
  width : float;
  height : float;
  blur_radius : Z;
  rotation : float;
  rounded : Z
}.
Definition default (fresh_id : string) : t :=
  mk fresh_id "Highlight" "rectangle" "#ff3838" 0.85 0.5 0.3 0.8 0.25 0 0.0 40.
Definition set_id (v : string) (l : t) : t :=
  mk v (label l) (mode l) (color l) (opacity l) (position_x l) (position_y l)
     (width l) (height l) (blur_radius l) (rotation l) (rounded l).
Definition set_label (v : string) (l : t) : t :=
  mk (id l) v (mode l) (color l) (opacity l) (position_x l) (position_y l)
     (width l) (height l) (blur_radius l) (rotation l) (rounded l).
End OverlayLayer.

(** ** Field maps: [asdict] and the [create_*] constructors

    A Python [dict] with string keys, in insertion order.  The records above
    are typed after the dataclass annotations; a payload value of another
    type is outside the model and is reported as [TypeError] (a [float]
    field takes an [int] too). *)

Inductive value : Type :=
| VNone
| VBool (b : bool)
| VInt (z : Z)
| VFloat (f : float)
| VStr (s : string)
| VDict (d : list (string * value)).

Definition dict : Type := list (string * value).

(** [d.get(k)] *)
Fixpoint get (k : string) (d : dict) : option value :=
  match d with
  | [] => None
  | (k', v) :: d' => if String.eqb k k' then Some v else get k d'
  end.

(** A keyword that is not a field of the dataclass is a [TypeError]. *)
Definition known_keys (fields : list string) (d : dict) : bool :=
  forallb (fun kv => existsb (String.eqb (fst kv)) fields) d.

(** The value of keyword [k] for a field annotated [str], and its siblings
    for the other annotations.  The records below are typed as the
    dataclasses annotate their fields, so a payload value of another type
    has no place in them: the model answers it with [TypeError], where the
    dataclass constructor, which checks no types, keeps the value until
    something uses it.  The payloads the program itself builds, those of
    [asdict] and of [_add_default_layers], are well typed. *)
Definition arg_str (d : dict) (k : string) (default : string) : result string :=
  match get k d with
  | None => Ok default
  | Some (VStr s) => Ok s
  | Some _ => Raise TypeError
  end.

Definition arg_optstr (d : dict) (k : string) (default : option string)
  : result (option string) :=
  match get k d with
  | None => Ok default
  | Some VNone => Ok None
  | Some (VStr s) => Ok (Some s)
  | Some _ => Raise TypeError
  end.

Definition arg_int (d : dict) (k : string) (default : Z) : result Z :=
  match get k d with
  | None => Ok default
  | Some (VInt z) => Ok z
  | Some _ => Raise TypeError
  end.

Definition arg_float (d : dict) (k : string) (default : float) : result float :=
  match get k d with
  | None => Ok default
  | Some (VFloat f) => Ok f
  | Some (VInt z) => Ok (Py.float_of_Z z)
  | Some _ => Raise TypeError
  end.

Definition arg_bool (d : dict) (k : string) (default : bool) : result bool :=
  match get k d with
  | None => Ok default
  | Some (VBool b) => Ok b
  | Some _ => Raise TypeError
  end.

Definition optstr_value (o : option string) : value :=
  match o with
  | None => VNone
  | Some s => VStr s
  end.

Module ShadowDict.
Import ShadowSettings.
Definition fields : list string :=
  ["enabled"; "offset_x"; "offset_y"; "blur_radius"; "color"; "opacity"].
Definition asdict (s : t) : dict :=
  [("enabled", VBool (enabled s)); ("offset_x", VInt (offset_x s));
   ("offset_y", VInt (offset_y s)); ("blur_radius", VInt (blur_radius s));
   ("color", VStr (color s)); ("opacity", VFloat (opacity s))].
(** The constructor call [ShadowSettings] with keyword arguments [d]. *)
Definition of_kwargs (d : dict) : result t :=
  if negb (known_keys fields d) then Raise TypeError else
  a <- arg_bool d "enabled" (enabled default) ;;
  b <- arg_int d "offset_x" (offset_x default) ;;
  c <- arg_int d "offset_y" (offset_y default) ;;
  e <- arg_int d "blur_radius" (blur_radius default) ;;
  f <- arg_str d "color" (color default) ;;
  g <- arg_float d "opacity" (opacity default) ;;
  Ok (mk a b c e f g).
End ShadowDict.

Module StrokeDict.
Import StrokeSettings.
Definition fields : list string := ["width"; "color"].
Definition asdict (s : t) : dict :=
  [("width", VInt (width s)); ("color", VStr (color s))].
(** The constructor call [StrokeSettings] with keyword arguments [d]. *)
Definition of_kwargs (d : dict) : result t :=
  if negb (known_keys fields d) then Raise TypeError else
  a <- arg_int d "width" (width default) ;;
  b <- arg_str d "color" (color default) ;;
  Ok (mk a b).
End StrokeDict.

Module TextDict.
Import TextLayer.
Definition fields : list string :=
  ["id"; "label"; "text"; "font_file"; "font_size"; "color"; "align";
   "position_x"; "position_y"; "max_width"; "tracking"; "rotation";
   "shadow"; "stroke"].
(** [asdict(layer)]: nested dataclasses become nested dicts. *)
Definition asdict (l : t) : dict :=
  [("id", VStr (id l)); ("label", VStr (label l)); ("text", VStr (text l));
   ("font_file", VStr (font_file l)); ("font_size", VInt (font_size l));
   ("color", VStr (color l)); ("align", VStr (align l));
   ("position_x", VFloat (position_x l)); ("position_y", VFloat (position_y l));
   ("max_width", VFloat (max_width l)); ("tracking", VInt (tracking l));
   ("rotation", VFloat (rotation l));
   ("shadow", VDict (ShadowDict.asdict (shadow l)));
   ("stroke", VDict (StrokeDict.asdict (stroke l)))].
(** The constructor call [TextLayer] with keyword arguments [d], the nested
    settings already built. *)
Definition of_kwargs (fresh_id : string) (d : dict)
           (sh : ShadowSettings.t) (st : StrokeSettings.t) : result t :=
  if negb (known_keys fields d) then Raise TypeError else
  let dflt := default fresh_id in
  a <- arg_str d "id" (id dflt) ;;
  b <- arg_str d "label" (label dflt) ;;
  c <- arg_str d "text" (text dflt) ;;
  e <- arg_str d "font_file" (font_file dflt) ;;
  f <- arg_int d "font_size" (font_size dflt) ;;
  g <- arg_str d "color" (color dflt) ;;
  h <- arg_str d "align" (align dflt) ;;
  i <- arg_float d "position_x" (position_x dflt) ;;
  j <- arg_float d "position_y" (position_y dflt) ;;
  k <- arg_float d "max_width" (max_width dflt) ;;
  m <- arg_int d "tracking" (tracking dflt) ;;
  n <- arg_float d "rotation" (rotation dflt) ;;
  Ok (mk a b c e f g h i j k m n sh st).
End TextDict.

Module ImageDict.
Import ImageLayer.
Definition fields : list string :=
  ["id"; "label"; "image_path"; "scale"; "rotation"; "position_x";
   "position_y"; "opacity"; "flip_horizontal"; "flip_vertical";
   "add_shadow"; "shadow_blur"; "shadow_offset_x"; "shadow_offset_y";
   "shadow_opacity"].
Definition asdict (l : t) : dict :=
  [("id", VStr (id l)); ("label", VStr (label l));
   ("image_path", optstr_value (image_path l)); ("scale", VFloat (scale l));
   ("rotation", VFloat (rotation l)); ("position_x", VFloat (position_x l));
   ("position_y", VFloat (position_y l)); ("opacity", VFloat (opacity l));
   ("flip_horizontal", VBool (flip_horizontal l));
   ("flip_vertical", VBool (flip_vertical l));
   ("add_shadow", VBool (add_shadow l)); ("shadow_blur", VInt (shadow_blur l));
   ("shadow_offset_x", VInt (shadow_offset_x l));
   ("shadow_offset_y", VInt (shadow_offset_y l));
   ("shadow_opacity", VFloat (shadow_opacity l))].
(** The constructor call [ImageLayer] with keyword arguments [d]. *)
Definition of_kwargs (fresh_id : string) (d : dict) : result t :=
  if negb (known_keys fields d) then Raise TypeError else
  let dflt := default fresh_id in
  a <- arg_str d "id" (id dflt) ;;
  b <- arg_str d "label" (label dflt) ;;
  c <- arg_optstr d "image_path" (image_path dflt) ;;
  e <- arg_float d "scale" (scale dflt) ;;
  f <- arg_float d "rotation" (rotation dflt) ;;
  g <- arg_float d "position_x" (position_x dflt) ;;
  h <- arg_float d "position_y" (position_y dflt) ;;
  i <- arg_float d "opacity" (opacity dflt) ;;
  j <- arg_bool d "flip_horizontal" (flip_horizontal dflt) ;;
  k <- arg_bool d "flip_vertical" (flip_vertical dflt) ;;
  m <- arg_bool d "add_shadow" (add_shadow dflt) ;;
  n <- arg_int d "shadow_blur" (shadow_blur dflt) ;;
  o <- arg_int d "shadow_offset_x" (shadow_offset_x dflt) ;;
  p <- arg_int d "shadow_offset_y" (shadow_offset_y dflt) ;;
  q <- arg_float d "shadow_opacity" (shadow_opacity dflt) ;;
  Ok (mk a b c e f g h i j k m n o p q).
End ImageDict.

Module OverlayDict.
Import OverlayLayer.
Definition fields : list string :=
  ["id"; "label"; "mode"; "color"; "opacity"; "position_x"; "position_y";
   "width"; "height"; "blur_radius"; "rotation"; "rounded"].
Definition asdict (l : t) : dict :=
  [("id", VStr (id l)); ("label", VStr (label l)); ("mode", VStr (mode l));
   ("color", VStr (color l)); ("opacity", VFloat (opacity l));
   ("position_x", VFloat (position_x l)); ("position_y", VFloat (position_y l));
   ("width", VFloat (width l)); ("height", VFloat (height l));
   ("blur_radius", VInt (blur_radius l)); ("rotation", VFloat (rotation l));
   ("rounded", VInt (rounded l))].
(** The constructor call [OverlayLayer] with keyword arguments [d]. *)
Definition of_kwargs (fresh_id : string) (d : dict) : result t :=
  if negb (known_keys fields d) then Raise TypeError else
  let dflt := default fresh_id in
  a <- arg_str d "id" (id dflt) ;;
  b <- arg_str d "label" (label dflt) ;;
  c <- arg_str d "mode" (mode dflt) ;;
  e <- arg_str d "color" (color dflt) ;;
  f <- arg_float d "opacity" (opacity dflt) ;;
  g <- arg_float d "position_x" (position_x dflt) ;;
  h <- arg_float d "position_y" (position_y dflt) ;;
  i <- arg_float d "width" (width dflt) ;;
  j <- arg_float d "height" (height dflt) ;;
  k <- arg_int d "blur_radius" (blur_radius dflt) ;;
  m <- arg_float d "rotation" (rotation dflt) ;;
  n <- arg_int d "rounded" (rounded dflt) ;;
  Ok (mk a b c e f g h i j k m n).
End OverlayDict.

(** The argument [fresh_id] of the three constructors is the value
    [str(uuid.uuid4())] yields when the [id] default factory runs, that is
    when the payload carries no ["id"]. *)

Definition create_text_layer (fresh_id : string) (data : option dict)
  : result TextLayer.t :=
  match data with
  | None | Some [] => Ok (TextLayer.default fresh_id)
  | Some payload =>
      sh <- match get "shadow" payload with
            | Some (VDict d) => ShadowDict.of_kwargs d
            | _ => Ok ShadowSettings.default
            end ;;
      st <- match get "stroke" payload with
            | Some (VDict d) => StrokeDict.of_kwargs d
            | _ => Ok StrokeSettings.default
            end ;;
      TextDict.of_kwargs fresh_id payload sh st
  end.

Definition create_image_layer (fresh_id : string) (data : option dict)
  : result ImageLayer.t :=
  match data with
  | None | Some [] => Ok (ImageLayer.default fresh_id)
  | Some payload => ImageDict.of_kwargs fresh_id payload
  end.

Definition create_overlay_layer (fresh_id : string) (data : option dict)
  : result OverlayLayer.t :=
  match data with
  | None | Some [] => Ok (OverlayLayer.default fresh_id)
  | Some payload => OverlayDict.of_kwargs fresh_id payload
  end.

(** ** Images, shapes and fonts *)

Local Close Scope string_scope.
Local Open Scope Z_scope.

Definition RGBA : Type := (Z * Z * Z * Z)%type.

Definition alpha_of (c : RGBA) : Z := snd c.

(** An RGBA raster: its size and the colour of each pixel. *)
Record Image : Type := mkImage {
  size : Z * Z;
  getpixel : Z -> Z -> RGBA
}.

(** [Image.new("RGBA", size, color)] *)
Definition Image_new (sz : Z * Z) (color : RGBA) : Image :=
  mkImage sz (fun _ _ => color).

Definition transparent : RGBA := (0, 0, 0, 0).

(** [draw.point((x, y), fill=color)] *)
Definition draw_point (img : Image) (x y : Z) (color : RGBA) : Image :=
  mkImage (size img)
          (fun x' y' => if (x' =? x) && (y' =? y) then color
                        else getpixel img x' y').

(** [draw.line([(x, 0), (x, H)], fill=color)]: column [x] of the canvas. *)
Definition draw_column (img : Image) (x : Z) (color : RGBA) : Image :=
  mkImage (size img)
          (fun x' y' => if (x' =? x) && (0 <=? y') && (y' <? snd (size img))
                        then color else getpixel img x' y').

(** [draw.line([(0, y), (W, y)], fill=color)]: row [y] of the canvas. *)
Definition draw_row (img : Image) (y : Z) (color : RGBA) : Image :=
  mkImage (size img)
          (fun x' y' => if (y' =? y) && (0 <=? x') && (x' <? fst (size img))
                        then color else getpixel img x' y').

Definition Rect : Type := (Z * Z * Z * Z)%type.  (* x0, y0, x1, y1 *)

(** What [_render_overlay_layer] asks [ImageDraw] to paint. *)
Inductive Shape : Type :=
| RoundedRectangle (rect : Rect) (radius : Z) (fill : RGBA)
| Ellipse (rect : Rect) (fill : RGBA)
| Polygon (points : list (Z * Z)) (fill : RGBA).

Definition fill_of (s : Shape) : RGBA :=
  match s with
  | RoundedRectangle _ _ c | Ellipse _ c | Polygon _ c => c
  end.

(** A font loaded at a pixel size; [getbbox] is (left, top, right, bottom). *)
Record Font : Type := mkFont {
  font_px : Z;
  getbbox : str -> Z * Z * Z * Z
}.

(** The measured width [bbox[2] - bbox[0]] of a line. *)
Definition bbox_width (font : Font) (s : str) : Z :=
  let '(x0, _, x1, _) := getbbox font s in x1 - x0.

(** The collaborators of the renderer: the file system, Pillow, and the two
    rasterisation passes that no statement below looks into. *)
Record Env : Type := mkEnv {
  (** [Path(p).exists()]: [False] for a path that is not there, and the
      [OSError] of [stat] for any other failure (a name that is too long, a
      directory that may not be searched), which [exists] raises again *)
  path_exists : string -> result bool;
  (** [FONTS_DIR / font_file] *)
  fonts_dir_join : string -> string;
  (** [ImageColor.getrgb(color)], its first three channels *)
  getrgb : string -> result (Z * Z * Z);
  (** the colour a string denotes as the fill of [Image.new("RGBA", ...)] *)
  getcolor : string -> result RGBA;
  (** [Image.open(p).convert("RGBA")] *)
  image_open : string -> result Image;
  (** [ImageFont.truetype(path, size=size)] *)
  truetype : string -> Z -> result Font;
  (** [Image.alpha_composite(dst, src)] on two canvas-sized images *)
  alpha_composite : Image -> Image -> Image;
  (** [img.filter(ImageFilter.GaussianBlur(radius))] *)
  gaussian_blur : float -> Image -> Image;
  (** [img.rotate(angle, expand=False, center=c, resample=BICUBIC)] *)
  rotate_about : float -> Z * Z -> Image -> Image;
  (** [ImageOps.fit(img, size, Image.LANCZOS)] *)
  fit : Image -> Z * Z -> Image;
  (** [ImageEnhance.Brightness / Contrast / Color (img).enhance(factor)] *)
  enhance_brightness : float -> Image -> Image;
  enhance_contrast : float -> Image -> Image;
  enhance_color : float -> Image -> Image;
  (** [draw.rounded_rectangle], [draw.ellipse], [draw.polygon] *)
  draw_shape : Image -> Shape -> result Image;
  (** the second half of [_render_text_layer]: vertical and horizontal
      placement, shadow and stroke of the wrapped lines on a canvas *)
  draw_text_lines : Z * Z -> Font -> TextLayer.t -> Z -> list str -> result Image;
  (** the second half of [_render_image_layer]: flips, scale, opacity,
      shadow, rotation and placement of the loaded picture on a canvas *)
  place_image : Z * Z -> ImageLayer.t -> Image -> result Image
}.

(** ** The application state *)

Record Designer : Type := mkDesigner {
  base_width : Z;
  base_height : Z;
  background : BackgroundSettings.t;
  text_layers : list TextLayer.t;
  image_layers : list ImageLayer.t;
  overlay_layers : list OverlayLayer.t;
  current_text_id : option string;
  current_image_id : option string;
  current_overlay_id : option string;
  layer_order : list (string * string);  (* (layer_type, id) *)
  latest_image : option Image
}.

(** The state [__init__] sets up before the default layers are added. *)
Definition Designer_init : Designer :=
  mkDesigner 1280 720 BackgroundSettings.default [] [] [] None None None [] None.

Definition set_latest_image (v : option Image) (a : Designer) : Designer :=
  mkDesigner (base_width a) (base_height a) (background a) (text_layers a)
             (image_layers a) (overlay_layers a) (current_text_id a)
             (current_image_id a) (current_overlay_id a) (layer_order a) v.

Definition set_layer_order (v : list (string * string)) (a : Designer) : Designer :=
  mkDesigner (base_width a) (base_height a) (background a) (text_layers a)
             (image_layers a) (overlay_layers a) (current_text_id a)
             (current_image_id a) (current_overlay_id a) v (latest_image a).

Definition set_background (v : BackgroundSettings.t) (a : Designer) : Designer :=
  mkDesigner (base_width a) (base_height a) v (text_layers a)
             (image_layers a) (overlay_layers a) (current_text_id a)
             (current_image_id a) (current_overlay_id a) (layer_order a)
             (latest_image a).

(** [self.text_layers.append(l)], [self.layer_order.append(("text", l.id))]
    and [self.current_text_id = l.id], and likewise for the other kinds. *)
Definition add_text (l : TextLayer.t) (a : Designer) : Designer :=
  mkDesigner (base_width a) (base_height a) (background a)
             (text_layers a ++ [l]) (image_layers a) (overlay_layers a)
             (Some (TextLayer.id l)) (current_image_id a) (current_overlay_id a)
             (layer_order a ++ [("text"%string, TextLayer.id l)]) (latest_image a).

Definition add_image (l : ImageLayer.t) (a : Designer) : Designer :=
  mkDesigner (base_width a) (base_height a) (background a)
             (text_layers a) (image_layers a ++ [l]) (overlay_layers a)
             (current_text_id a) (Some (ImageLayer.id l)) (current_overlay_id a)
             (layer_order a ++ [("image"%string, ImageLayer.id l)]) (latest_image a).

Definition add_overlay (l : OverlayLayer.t) (a : Designer) : Designer :=
  mkDesigner (base_width a) (base_height a) (background a)
             (text_layers a) (image_layers a) (overlay_layers a ++ [l])
             (current_text_id a) (current_image_id a) (Some (OverlayLayer.id l))
             (layer_order a ++ [("overlay"%string, OverlayLayer.id l)]) (latest_image a).

Definition canvas_size (a : Designer) : Z * Z := (base_width a, base_height a).

(** ** The renderer *)

(** [for x in xs: state = body(state, x)], stopping at the first exception. *)
Fixpoint for_each {A S : Type} (xs : list A) (s : S) (body : S -> A -> result S)
  : result S :=
  match xs with
  | [] => Ok s
  | x :: xs' => s' <- body s x ;; for_each xs' s' body
  end.

(** [range(n)] *)
Definition range (n : Z) : list Z := map Z.of_nat (seq 0 (Z.to_nat n)).

(** [_apply_tracking(text, tracking)] *)
Definition _apply_tracking (text : str) (tracking : Z) : str :=
  if tracking =? 0 then text
  else Py.join (repeat " "%char (Z.to_nat (Z.max 0 (tracking / 20))))
               (map (fun c => [c]) text).

Section Wrap.

Variable font : Font.
Variable tracking : Z.
Variable max_width_pixels : Z.

(** The test [width <= max_width_pixels] on a candidate line. *)
Definition fits (attempt : str) : bool :=
  bbox_width font (_apply_tracking attempt tracking) <=? max_width_pixels.

(** One turn of [for word in words], on the pair
    ([rendered_lines], [current_line]). *)
Definition wrap_word (st : list str * str) (word : str) : list str * str :=
  let '(rendered_lines, current_line) := st in
  let attempt := Py.strip (current_line ++ " "%char :: word) in
  if fits attempt then (rendered_lines, attempt)
  else
    ((if Py.nonempty current_line then rendered_lines ++ [current_line]
      else rendered_lines),
     word).

(** One turn of [for line in lines]. *)
Definition wrap_line (rendered_lines : list str) (line : str) : list str :=
  if negb (Py.nonempty (Py.strip line)) then rendered_lines ++ [[]]
  else
    let '(rendered_lines, current_line) :=
      fold_left wrap_word (Py.split_space line) (rendered_lines, []) in
    rendered_lines ++ [current_line].

(** [rendered_lines] after the wrapping loop. *)
Definition wrap_lines (lines : list str) : list str :=
  fold_left wrap_line lines [].

End Wrap.

Section Render.

Variable env : Env.

(** [ensure_font_path(font_file)] *)
Definition ensure_font_path (font_file : string) : result string :=
  let font_path := fonts_dir_join env font_file in
  there <- path_exists env font_path ;;
  if negb there then Raise (FileNotFoundError font_path)
  else Ok font_path.

(** [hex_to_rgba(hex_color, alpha)] *)
Definition hex_to_rgba (hex_color : string) (alpha : float) : result RGBA :=
  ' (r, g, b) <- getrgb env hex_color ;;
  a <- Py.int_of_float (clamp alpha 0 1 * 255)%float ;;
  Ok (r, g, b, a).

(** [Image.new("RGBA", size, color)] with the colour given as a string. *)
Definition Image_new_named (sz : Z * Z) (color : string) : result Image :=
  c <- getcolor env color ;;
  Ok (Image_new sz c).

(** [_apply_background_corrections(img)] *)
Definition _apply_background_corrections (bg : BackgroundSettings.t)
           (img : Image) : Image :=
  let img := if negb (BackgroundSettings.brightness bg =? 1.0)%float
             then enhance_brightness env (BackgroundSettings.brightness bg) img
             else img in
  let img := if negb (BackgroundSettings.contrast bg =? 1.0)%float
             then enhance_contrast env (BackgroundSettings.contrast bg) img
             else img in
  let img := if negb (BackgroundSettings.saturation bg =? 1.0)%float
             then enhance_color env (BackgroundSettings.saturation bg) img
             else img in
  img.

(** [int(start[i] + (end[i] - start[i]) * ratio)] *)
Definition lerp_channel (s e : Z) (ratio : float) : result Z :=
  Py.int_of_float (Py.float_of_Z s + Py.float_of_Z (e - s) * ratio)%float.

(** [tuple(int(start[i] + (end[i] - start[i]) * ratio) for i in range(4))] *)
Definition lerp (start end_ : RGBA) (ratio : float) : result RGBA :=
  let '(r0, g0, b0, a0) := start in
  let '(r1, g1, b1, a1) := end_ in
  r <- lerp_channel r0 r1 ratio ;;
  g <- lerp_channel g0 g1 ratio ;;
  b <- lerp_channel b0 b1 ratio ;;
  a <- lerp_channel a0 a1 ratio ;;
  Ok (r, g, b, a).

(** The ratio of the diagonal gradient at pixel [(x, y)]. *)
Definition diagonal_ratio (app : Designer) (x y : Z) : result float :=
  Py.truediv (x + y) (base_width app + base_height app).

(** The colour the diagonal loop body gives pixel [(x, y)]. *)
Definition diagonal_color (app : Designer) (start end_ : RGBA) (x y : Z)
  : result RGBA :=
  ratio <- diagonal_ratio app x y ;;
  lerp start end_ ratio.

(** [_render_gradient_background()] before the corrections. *)
Definition gradient_pixels (app : Designer) : result Image :=
  let g := BackgroundSettings.gradient (background app) in
  let gradient_layer := Image_new (canvas_size app) transparent in
  start <- hex_to_rgba (GradientSettings.start_color g) 1.0 ;;
  end_ <- hex_to_rgba (GradientSettings.end_color g) 1.0 ;;
  if String.eqb (GradientSettings.direction g) "horizontal" then
    for_each (range (base_width app)) gradient_layer (fun img x =>
      ratio <- Py.truediv x (base_width app - 1) ;;
      color <- lerp start end_ ratio ;;
      Ok (draw_column img x color))
  else if String.eqb (GradientSettings.direction g) "vertical" then
    for_each (range (base_height app)) gradient_layer (fun img y =>
      ratio <- Py.truediv y (base_height app - 1) ;;
      color <- lerp start end_ ratio ;;
      Ok (draw_row img y color))
  else
    for_each (range (base_height app)) gradient_layer (fun img y =>
      for_each (range (base_width app)) img (fun img x =>
        color <- diagonal_color app start end_ x y ;;
        Ok (draw_point img x y color))).

(** [_render_gradient_background()] *)
Definition _render_gradient_background (app : Designer) : result Image :=
  gradient_layer <- gradient_pixels app ;;
  Ok (_apply_background_corrections (background app) gradient_layer).

(** [_render_image_background()] *)
Definition _render_image_background (app : Designer) : result Image :=
  let bg := background app in
  base <- Image_new_named (canvas_size app) (BackgroundSettings.solid_color bg) ;;
  match BackgroundSettings.image_path bg with
  | None => Ok base
  | Some p =>
      if String.eqb p "" then Ok base
      else
        there <- path_exists env p ;;
        if negb there then Ok base
        else
          match image_open env p with
          | Raise e => if is_OSError e then Ok base else Raise e
          | Ok img =>
              let img := fit env img (canvas_size app) in
              let img := if (0 <? BackgroundSettings.blur_radius bg)%float
                         then gaussian_blur env (BackgroundSettings.blur_radius bg) img
                         else img in
              let img := _apply_background_corrections bg img in
              Ok (alpha_composite env base img)
          end
  end.

(** The pixel rectangle of an overlay, with the integers [width] and
    [height] it is built from and its centre [(x, y)]. *)
Record OverlayBox : Type := mkBox {
  box_width : Z;
  box_height : Z;
  box_x : Z;
  box_y : Z
}.

Definition box_rect (b : OverlayBox) : Rect :=
  (box_x b - box_width b / 2, box_y b - box_height b / 2,
   box_x b + box_width b / 2, box_y b + box_height b / 2).

Definition overlay_box (app : Designer) (layer : OverlayLayer.t)
  : result OverlayBox :=
  width <- Py.int_of_float
             (Py.float_of_Z (base_width app) * OverlayLayer.width layer)%float ;;
  height <- Py.int_of_float
              (Py.float_of_Z (base_height app) * OverlayLayer.height layer)%float ;;
  x <- Py.int_of_float
         (Py.float_of_Z (base_width app) * OverlayLayer.position_x layer)%float ;;
  y <- Py.int_of_float
         (Py.float_of_Z (base_height app) * OverlayLayer.position_y layer)%float ;;
  Ok (mkBox width height x y).

(** [rect[3] - int(height * 0.25)]: the bottom edge of the banner body. *)
Definition banner_bottom (b : OverlayBox) : result Z :=
  let '(_, _, _, y1) := box_rect b in
  q <- Py.int_of_float (Py.float_of_Z (box_height b) * 0.25)%float ;;
  Ok (y1 - q).

(** [triangle_height = int(height * 0.35)] *)
Definition triangle_height (b : OverlayBox) : result Z :=
  Py.int_of_float (Py.float_of_Z (box_height b) * 0.35)%float.

(** The shapes [_render_overlay_layer] draws for a layer, in order. *)
Definition overlay_shapes (b : OverlayBox) (mode : string) (rounded : Z)
           (color : RGBA) : result (list Shape) :=
  let '(x0, y0, x1, y1) := box_rect b in
  if String.eqb mode "rectangle" then
    Ok [RoundedRectangle (x0, y0, x1, y1) rounded color]
  else if String.eqb mode "circle" then
    Ok [Ellipse (x0, y0, x1, y1) color]
  else if String.eqb mode "banner" then
    bottom <- banner_bottom b ;;
    let banner_rect := (x0, y0, x1, bottom) in
    th <- triangle_height b ;;
    let triangle :=
      [(x0, y1 - th); (x0 + box_width b / 4, y1); (x0 + box_width b / 2, y1 - th)] in
    let triangle2 :=
      [(x1, y1 - th); (x1 - box_width b / 4, y1); (x1 - box_width b / 2, y1 - th)] in
    Ok [RoundedRectangle banner_rect rounded color;
        Polygon triangle color; Polygon triangle2 color]
  else Ok [].

(** The shapes [_render_overlay_layer] draws for [layer] on the canvas of
    [app]: its first three steps. *)
Definition layer_shapes (app : Designer) (layer : OverlayLayer.t)
  : result (list Shape) :=
  b <- overlay_box app layer ;;
  color <- hex_to_rgba (OverlayLayer.color layer) (OverlayLayer.opacity layer) ;;
  overlay_shapes b (OverlayLayer.mode layer) (OverlayLayer.rounded layer) color.

(** [_render_overlay_layer(layer)] *)
Definition _render_overlay_layer (app : Designer) (layer : OverlayLayer.t)
  : result Image :=
  let overlay := Image_new (canvas_size app) transparent in
  b <- overlay_box app layer ;;
  color <- hex_to_rgba (OverlayLayer.color layer) (OverlayLayer.opacity layer) ;;
  shapes <- overlay_shapes b (OverlayLayer.mode layer) (OverlayLayer.rounded layer)
              color ;;
  overlay <- for_each shapes overlay (draw_shape env) ;;
  let overlay :=
    if 0 <? OverlayLayer.blur_radius layer
    then gaussian_blur env (Py.float_of_Z (OverlayLayer.blur_radius layer)) overlay
    else overlay in
  let overlay :=
    if negb (OverlayLayer.rotation layer =? 0)%float
    then rotate_about env (OverlayLayer.rotation layer) (box_x b, box_y b) overlay
    else overlay in
  Ok overlay.

(** [_render_text_layer(layer)] *)
Definition _render_text_layer (app : Designer) (layer : TextLayer.t)
  : result Image :=
  let temp := Image_new (canvas_size app) transparent in
  font_path <- ensure_font_path (TextLayer.font_file layer) ;;
  font <- truetype env font_path (TextLayer.font_size layer) ;;
  let lines := Py.splitlines (list_ascii_of_string (TextLayer.text layer)) in
  max_width_pixels <- Py.int_of_float
    (Py.float_of_Z (base_width app) * TextLayer.max_width layer)%float ;;
  let rendered_lines :=
    wrap_lines font (TextLayer.tracking layer) max_width_pixels lines in
  text_image <- draw_text_lines env (canvas_size app) font layer
                  max_width_pixels rendered_lines ;;
  text_image <-
    (if negb (TextLayer.rotation layer =? 0)%float then
       cx <- Py.int_of_float
               (Py.float_of_Z (base_width app) * TextLayer.position_x layer)%float ;;
       cy <- Py.int_of_float
               (Py.float_of_Z (base_height app) * TextLayer.position_y layer)%float ;;
       Ok (rotate_about env (TextLayer.rotation layer) (cx, cy) text_image)
     else Ok text_image) ;;
  Ok (alpha_composite env temp text_image).

(** A path that is [None] or empty is falsy. *)
Definition truthy_path (p : option string) : option string :=
  match p with
  | Some s => if String.eqb s "" then None else Some s
  | None => None
  end.

(** [_render_image_layer(layer)] *)
Definition _render_image_layer (app : Designer) (layer : ImageLayer.t)
  : result Image :=
  let overlay := Image_new (canvas_size app) transparent in
  match truthy_path (ImageLayer.image_path layer) with
  | None => Ok overlay
  | Some p =>
      there <- path_exists env p ;;
      if negb there then Ok overlay
      else
        match image_open env p with
        | Raise e => if is_OSError e then Ok overlay else Raise e
        | Ok img => place_image env (canvas_size app) layer img
        end
  end.

(** The body of [for layer_type, layer_id in self.layer_order]. *)
Definition composite_entry (app : Designer) (base_image : Image)
           (entry : string * string) : result Image :=
  let '(layer_type, layer_id) := entry in
  if String.eqb layer_type "overlay" then
    match find (fun o => String.eqb (OverlayLayer.id o) layer_id)
               (overlay_layers app) with
    | Some layer =>
        img <- _render_overlay_layer app layer ;;
        Ok (alpha_composite env base_image img)
    | None => Ok base_image
    end
  else if String.eqb layer_type "image" then
    match find (fun i => String.eqb (ImageLayer.id i) layer_id)
               (image_layers app) with
    | Some layer =>
        match truthy_path (ImageLayer.image_path layer) with
        | Some _ =>
            img <- _render_image_layer app layer ;;
            Ok (alpha_composite env base_image img)
        | None => Ok base_image
        end
    | None => Ok base_image
    end
  else if String.eqb layer_type "text" then
    match find (fun t => String.eqb (TextLayer.id t) layer_id)
               (text_layers app) with
    | Some layer =>
        img <- _render_text_layer app layer ;;
        Ok (alpha_composite env base_image img)
    | None => Ok base_image
    end
  else Ok base_image.

(** The background layer [render_thumbnail] starts from. *)
Definition background_layer (app : Designer) : result Image :=
  let bg := background app in
  if String.eqb (BackgroundSettings.mode bg) "solid" then
    Image_new_named (canvas_size app) (BackgroundSettings.solid_color bg)
  else if String.eqb (BackgroundSettings.mode bg) "gradient" then
    _render_gradient_background app
  else _render_image_background app.

(** [render_thumbnail()]: the image it stores in [self.latest_image]
    (the preview widget is not part of the model). *)
Definition render_thumbnail (app : Designer) : result Image :=
  let base_image := Image_new (canvas_size app) (17, 17, 17, 255) in
  bg <- background_layer app ;;
  let base_image := alpha_composite env base_image bg in
  for_each (layer_order app) base_image (composite_entry app).

(** Running [self.render_thumbnail()] at the end of an editor command:
    the state keeps its changes when the render raises. *)
Definition rerender (app : Designer) : Designer * result unit :=
  match render_thumbnail app with
  | Ok img => (set_latest_image (Some img) app, Ok tt)
  | Raise e => (app, Raise e)
  end.

(** ** Editor commands *)

Definition truthy_id (i : option string) : option string := truthy_path i.

(** [_get_current_text()] and its two siblings *)
Definition _get_current_text (app : Designer) : option TextLayer.t :=
  match truthy_id (current_text_id app) with
  | None => None
  | Some cid => find (fun l => String.eqb (TextLayer.id l) cid) (text_layers app)
  end.

Definition _get_current_overlay (app : Designer) : option OverlayLayer.t :=
  match truthy_id (current_overlay_id app) with
  | None => None
  | Some cid =>
      find (fun l => String.eqb (OverlayLayer.id l) cid) (overlay_layers app)
  end.

Definition _get_current_image (app : Designer) : option ImageLayer.t :=
  match truthy_id (current_image_id app) with
  | None => None
  | Some cid => find (fun l => String.eqb (ImageLayer.id l) cid) (image_layers app)
  end.

(** The clone the three duplicate commands build: [new_id] is the value of
    [str(uuid.uuid4())] on the line [clone.id = ...]. *)
Definition clone_text (new_id fresh_id : string) (current : TextLayer.t)
  : result TextLayer.t :=
  clone <- create_text_layer fresh_id (Some (TextDict.asdict current)) ;;
  let clone := TextLayer.set_id new_id clone in
  Ok (TextLayer.set_label (TextLayer.label current ++ " (copy)")%string clone).

Definition clone_overlay (new_id fresh_id : string) (layer : OverlayLayer.t)
  : result OverlayLayer.t :=
  clone <- create_overlay_layer fresh_id (Some (OverlayDict.asdict layer)) ;;
  let clone := OverlayLayer.set_id new_id clone in
  Ok (OverlayLayer.set_label (OverlayLayer.label layer ++ " (copy)")%string clone).

Definition clone_image (new_id fresh_id : string) (layer : ImageLayer.t)
  : result ImageLayer.t :=
  clone <- create_image_layer fresh_id (Some (ImageDict.asdict layer)) ;;
  let clone := ImageLayer.set_id new_id clone in
  Ok (ImageLayer.set_label (ImageLayer.label layer ++ " (copy)")%string clone).

(** [_duplicate_text_layer()] *)
Definition _duplicate_text_layer (new_id fresh_id : string) (app : Designer)
  : Designer * result unit :=
  match _get_current_text app with
  | None => (app, Ok tt)
  | Some current =>
      match clone_text new_id fresh_id current with
      | Raise e => (app, Raise e)
      | Ok clone => rerender (add_text clone app)
      end
  end.

(** [_duplicate_overlay_layer()] *)
Definition _duplicate_overlay_layer (new_id fresh_id : string) (app : Designer)
  : Designer * result unit :=
  match _get_current_overlay app with
  | None => (app, Ok tt)
  | Some layer =>
      match clone_overlay new_id fresh_id layer with
      | Raise e => (app, Raise e)
      | Ok clone => rerender (add_overlay clone app)
      end
  end.

(** [_duplicate_image_layer()] *)
Definition _duplicate_image_layer (new_id fresh_id : string) (app : Designer)
  : Designer * result unit :=
  match _get_current_image app with
  | None => (app, Ok tt)
  | Some layer =>
      match clone_image new_id fresh_id layer with
      | Raise e => (app, Raise e)
      | Ok clone => rerender (add_image clone app)
      end
  end.

End Render.

(** ** Reference definitions for the statements *)

(** [n] spaces between every two neighbouring characters of [text]. *)
Fixpoint spaced_out (n : nat) (text : str) : str :=
  match text with
  | [] => []
  | c :: rest =>
      match rest with
      | [] => [c]
      | _ :: _ => c :: repeat " "%char n ++ spaced_out n rest
      end
  end.

(** A wrapped line is empty, fits the width, or is one of the words. *)
Definition fits_or_word (font : Font) (tracking max_width_pixels : Z)
           (words : list str) (l : str) : Prop :=
  l = [] \/ fits font tracking max_width_pixels l = true \/ In l words.

(** The candidate line is not wider than the limit: tracking is applied,
    the font measures the result, and [bbox[2] - bbox[0]] is compared with
    the limit. *)
Definition within (font : Font) (tracking limit : Z) (l : str) : Prop :=
  bbox_width font (_apply_tracking l tracking) <= limit.

(** Words joined by single spaces. *)
Definition spaced (ws : list str) : str := Py.join [" "%char] ws.

(** What greedy packing of [words] into lines means.  The lines, each the
    group of its words, are the words in order, none empty.  A word joined a
    line only when the line up to and including it measured within the
    limit.  A line was committed only before a word with which it would
    exceed the limit. *)
Definition greedily_packed (font : Font) (tracking limit : Z)
           (words : list str) (groups : list (list str)) : Prop :=
  List.concat groups = words
  /\ Forall (fun g => g <> []) groups
  /\ (forall g k,
         In g groups -> (2 <= k <= List.length g)%nat ->
         within font tracking limit (spaced (firstn k g)))
  /\ (forall before g w rest after,
         groups = before ++ g :: (w :: rest) :: after ->
         ~ within font tracking limit (spaced (g ++ [w]))).

(** The packing the loop computes, as groups of words: [cur] holds the words
    of the current line. *)
Fixpoint pack (fit : str -> bool) (cur : list str) (words : list str)
  : list (list str) :=
  match words with
  | [] => [cur]
  | w :: ws =>
      if fit (spaced (cur ++ [w])) then pack fit (cur ++ [w]) ws
      else match cur with
           | [] => pack fit [w] ws
           | _ :: _ => cur :: pack fit [w] ws
           end
  end.

(** A word of a line with single spaces: not empty and free of
    whitespace. *)
Definition tidy (w : str) : Prop :=
  forallb (fun c => negb (Py.isspace c)) w = true /\ w <> [].

(** A [LayerOrder] entry that names no layer of its type. *)
Definition stale (app : Designer) (entry : string * string) : Prop :=
  let '(layer_type, layer_id) := entry in
  (layer_type = "overlay"%string ->
   find (fun o => String.eqb (OverlayLayer.id o) layer_id) (overlay_layers app) = None)
  /\ (layer_type = "image"%string ->
      find (fun i => String.eqb (ImageLayer.id i) layer_id) (image_layers app) = None)
  /\ (layer_type = "text"%string ->
      find (fun t => String.eqb (TextLayer.id t) layer_id) (text_layers app) = None).

(** The background picture is absent, reported missing by [exists()], or
    there and not opened: [Image.open] raises [OSError]. *)
Definition picture_unavailable (env : Env) (app : Designer) : Prop :=
  match BackgroundSettings.image_path (background app) with
  | None => True
  | Some p =>
      p = ""%string \/ path_exists env p = Ok false
      \/ (path_exists env p = Ok true
          /\ exists e, image_open env p = Raise e /\ is_OSError e = true)
  end.

(** A colour channel is a byte. *)
Definition byte (v : Z) : Prop := 0 <= v <= 255.

(** [f z && f (z+1) && ...], [n] values from [z] on. *)
Fixpoint all_from (f : Z -> bool) (n : nat) (z : Z) : bool :=
  match n with
  | O => true
  | S n' => f z && all_from f n' (z + 1)
  end.

(** ** A small environment for the examples

    One font file, a monospaced font half an em wide, six-digit hex colours,
    a picture file that exists but cannot be read, and a compositor that lets
    the source pixel win wherever it is not fully transparent. *)

Definition hex_digit (c : ascii) : option Z :=
  let n := Z.of_N (N_of_ascii c) in
  if (48 <=? n) && (n <=? 57) then Some (n - 48)
  else if (97 <=? n) && (n <=? 102) then Some (n - 87)
  else if (65 <=? n) && (n <=? 70) then Some (n - 55)
  else None.

Definition hex_pair (a b : ascii) : result Z :=
  match hex_digit a, hex_digit b with
  | Some x, Some y => Ok (16 * x + y)
  | _, _ => Raise ValueError
  end.

Definition sample_getrgb (s : string) : result (Z * Z * Z) :=
  match list_ascii_of_string s with
  | [h; r1; r2; g1; g2; b1; b2] =>
      if Ascii.eqb h "#" then
        r <- hex_pair r1 r2 ;;
        g <- hex_pair g1 g2 ;;
        b <- hex_pair b1 b2 ;;
        Ok (r, g, b)
      else Raise ValueError
  | _ => Raise ValueError
  end.

Definition sample_font (px : Z) : Font :=
  mkFont px (fun s => (0, 0, (px / 2) * Z.of_nat (List.length s), px)).

Definition sample_over (dst src : Image) : Image :=
  mkImage (size dst)
          (fun x y => if alpha_of (getpixel src x y) =? 0 then getpixel dst x y
                      else getpixel src x y).

Definition sample_env : Env :=
  mkEnv (fun p => Ok (String.eqb p "assets/fonts/Montserrat-ExtraBold.ttf"
                      || String.eqb p "broken.png"))
        (fun f => ("assets/fonts/" ++ f)%string)
        sample_getrgb
        (fun s => ' (r, g, b) <- sample_getrgb s ;; Ok (r, g, b, 255))
        (fun _ => Raise OSError)
        (fun _ px => Ok (sample_font px))
        sample_over
        (fun _ img => img)
        (fun _ _ img => img)
        (fun img sz => mkImage sz (getpixel img))
        (fun _ img => img)
        (fun _ img => img)
        (fun _ img => img)
        (fun img _ => Ok img)
        (fun sz _ _ _ _ => Ok (Image_new sz transparent))
        (fun sz _ _ => Ok (Image_new sz transparent)).

(** The banner [_add_default_layers] creates, under the id ["b1"]. *)
Definition default_banner : OverlayLayer.t :=
  OverlayLayer.mk "b1" "Banner" "banner" "#ff3838" 0.88 0.5 0.6 0.9 0.3 0
                  (Py.float_of_Z (-2)) 40.

(** The headline [_add_default_layers] creates, under the id ["t1"]. *)
Definition default_headline : TextLayer.t :=
  TextLayer.mk "t1" "Headline"
               ("Tingkatkan Views" ++ String "010" "Dalam 5 Menit!")%string
               "Montserrat-ExtraBold.ttf" 170 "#ffffff" "center" 0.5 0.35 0.9 0
               0.0 ShadowSettings.default StrokeSettings.default.

(** A scene with the default banner and headline. *)
Definition sample_app : Designer :=
  mkDesigner 1280 720 BackgroundSettings.default [default_headline] []
             [default_banner] (Some "t1"%string) None (Some "b1"%string)
             [("text"%string, "t1"%string); ("overlay"%string, "b1"%string)] None.

(** An overlay whose opacity is out of range, as a workspace file may
    carry it. *)
Definition loud_overlay : OverlayLayer.t :=
  OverlayLayer.mk "o2" "Highlight" "rectangle" "#ff3838" 2.0 0.5 0.3 0.8 0.25 0
                  0.0 40.

(** A scene with a diagonal gradient from white to black. *)
Definition fade_app : Designer :=
  set_background
    (BackgroundSettings.mk "gradient" "#202020"
       (GradientSettings.mk "#ffffff" "#000000" "diagonal") None 0.0 1.0 1.0 1.0)
    sample_app.

(** The fade on a canvas of 3 x 2 pixels. *)
Definition tiny_fade_app : Designer :=
  mkDesigner 3 2 (background fade_app) [] [] [] None None None [] None.

(** A headline whose font file is not in the fonts directory, and a scene
    that paints it. *)
Definition fontless_headline : TextLayer.t :=
  TextLayer.mk "t2" "Headline" "Hello" "Missing.ttf" 170 "#ffffff" "center"
               0.5 0.35 0.9 0 0.0 ShadowSettings.default StrokeSettings.default.

Definition fontless_app : Designer :=
  mkDesigner 1280 720 BackgroundSettings.default [fontless_headline] []
             [default_banner] (Some "t2"%string) None (Some "b1"%string)
             [("overlay"%string, "b1"%string); ("text"%string, "t2"%string)] None.

(** A scene whose background is a picture that is not on disk. *)
Definition photo_app : Designer :=
  set_background
    (BackgroundSettings.mk "image" "#202020" GradientSettings.default
                           (Some "missing.png"%string) 0.0 1.0 1.0 1.0)
    sample_app.

(** A file name of 300 characters; no file system keeps names longer than
    255. *)
Definition long_name : string := string_of_list_ascii (repeat "a"%char 300).

(** The sample collaborators on a file system that answers [stat] on a name
    of more than 255 characters with ENAMETOOLONG, which [Path.exists]
    raises again as the [OSError] it is. *)
Definition strict_env : Env :=
  mkEnv (fun p => if (255 <? String.length p)%nat then Raise OSError
                  else path_exists sample_env p)
        (fonts_dir_join sample_env) (getrgb sample_env) (getcolor sample_env)
        (image_open sample_env) (truetype sample_env)
        (alpha_composite sample_env) (gaussian_blur sample_env)
        (rotate_about sample_env) (fit sample_env)
        (enhance_brightness sample_env) (enhance_contrast sample_env)
        (enhance_color sample_env) (draw_shape sample_env)
        (draw_text_lines sample_env) (place_image sample_env).

(** A scene whose background picture has the over-long name. *)
Definition long_photo_app : Designer :=
  set_background
    (BackgroundSettings.mk "image" "#202020" GradientSettings.default
                           (Some long_name) 0.0 1.0 1.0 1.0)
    sample_app.

(** A scene whose background is a picture that is on disk and cannot be
    opened. *)
Definition broken_photo_app : Designer :=
  set_background
    (BackgroundSettings.mk "image" "#202020" GradientSettings.default
                           (Some "broken.png"%string) 0.0 1.0 1.0 1.0)
    sample_app.

(** An image layer whose picture has the over-long name, and a scene that
    paints it. *)
Definition long_picture : ImageLayer.t :=
  ImageLayer.mk "i1" "Gambar" (Some long_name) 1.0 0.0 0.75 0.65 1.0 false false
                true 24 0 12 0.7.

Definition long_picture_app : Designer :=
  mkDesigner 1280 720 BackgroundSettings.default [] [long_picture] []
             None (Some "i1"%string) None [("image"%string, "i1"%string)] None.

(** No vertex of a drawn triangle lies above the line three quarters down
    the pixel rectangle. *)
Definition below_three_quarters (b : OverlayBox) (shapes : list Shape) : Prop :=
  let '(_, y0, _, y1) := box_rect b in
  forall points fill p,
    In (Polygon points fill) shapes -> In p points ->
    y0 + 3 * (y1 - y0) / 4 <= snd p.

(** The interpolated value [v] lies between [s] and [e], short of [e] when
    [e] is the larger. *)
Definition short_of (s e v : Z) : Prop :=
  (s < e -> s <= v < e) /\ (e <= s -> e <= v <= s).

(** ** Python lists *)

Module PyList.

(** [l[i]] with Python's negative indices; [None] stands for [IndexError]. *)
Definition item {A : Type} (l : list A) (i : Z) : option A :=
  let n := Z.of_nat (List.length l) in
  if (0 <=? i) && (i <? n) then nth_error l (Z.to_nat i)
  else if (- n <=? i) && (i <? 0) then nth_error l (Z.to_nat (n + i))
  else None.

(** [l.pop(i)] for an index [i >= 0]: the element and the rest of the list;
    [None] stands for [IndexError]. *)
Definition pop {A : Type} (l : list A) (i : nat) : option (A * list A) :=
  match nth_error l i with
  | Some x => Some (x, firstn i l ++ skipn (S i) l)
  | None => None
  end.

(** [l.insert(i, x)] for an index [i >= 0] *)
Definition insert {A : Type} (l : list A) (i : nat) (x : A) : list A :=
  firstn i l ++ x :: skipn i l.

(** [next((i for i, x in enumerate(l) if p(x)), None)] *)
Fixpoint find_index {A : Type} (p : A -> bool) (l : list A) : option nat :=
  match l with
  | [] => None
  | x :: l' => if p x then Some O else option_map S (find_index p l')
  end.

End PyList.

(** [clamp(value, min_value, max_value)] on [int]s, as [_shift_layer] calls
    it. *)
Definition clamp_int (value min_value max_value : Z) : Z :=
  let m := if max_value <? value then max_value else value in
  if min_value <? m then m else min_value.

(** ** Editor commands on the layer stack *)

(** [item == (layer_type, layer_id)] on two pairs of strings *)
Definition entry_eqb (a b : string * string) : bool :=
  String.eqb (fst a) (fst b) && String.eqb (snd a) (snd b).

(** [[item for item in self.layer_order if item != entry]] *)
Definition order_without (entry : string * string)
           (order : list (string * string)) : list (string * string) :=
  filter (fun item => negb (entry_eqb item entry)) order.

(** The mutation of the first layer that satisfies [p]: the object the
    [_get_current_*] loops return is the one in the list. *)
Fixpoint update_first {A : Type} (p : A -> bool) (f : A -> A) (l : list A)
  : list A :=
  match l with
  | [] => []
  | x :: l' => if p x then f x :: l' else x :: update_first p f l'
  end.

Definition set_text_scene (layers : list TextLayer.t)
           (order : list (string * string)) (cur : option string)
           (a : Designer) : Designer :=
  mkDesigner (base_width a) (base_height a) (background a) layers
             (image_layers a) (overlay_layers a) cur
             (current_image_id a) (current_overlay_id a) order (latest_image a).

Definition set_overlay_scene (layers : list OverlayLayer.t)
           (order : list (string * string)) (cur : option string)
           (a : Designer) : Designer :=
  mkDesigner (base_width a) (base_height a) (background a) (text_layers a)
             (image_layers a) layers (current_text_id a)
             (current_image_id a) cur order (latest_image a).

Definition set_image_scene (layers : list ImageLayer.t)
           (order : list (string * string)) (cur : option string)
           (a : Designer) : Designer :=
  mkDesigner (base_width a) (base_height a) (background a) (text_layers a)
             layers (overlay_layers a) (current_text_id a)
             cur (current_overlay_id a) order (latest_image a).

(** [str(n)] for a list length *)
Definition str_of_nat (n : nat) : string :=
  NilEmpty.string_of_uint (Nat.to_uint n).

Section Editor.

Variable env : Env.

(** The three remove commands take the index [idx] the list box reports as
    selected ([None] when nothing is selected).  They return [None] when
    [pop] raises [IndexError], before anything has changed. *)

(** [_remove_text_layer()] *)
Definition _remove_text_layer (idx : option nat) (app : Designer)
  : option (Designer * result unit) :=
  match idx with
  | None => Some (app, Ok tt)
  | Some idx =>
      match PyList.pop (text_layers app) idx with
      | None => None
      | Some (layer, rest) =>
          let order :=
            order_without ("text"%string, TextLayer.id layer) (layer_order app) in
          match rest with
          | [] => Some (rerender env (set_text_scene rest order None app))
          | _ :: _ =>
              match PyList.item rest (Z.of_nat idx - 1) with
              | None => None
              | Some l =>
                  Some (rerender env
                          (set_text_scene rest order (Some (TextLayer.id l)) app))
              end
          end
      end
  end.

(** [_remove_overlay_layer()] *)
Definition _remove_overlay_layer (idx : option nat) (app : Designer)
  : option (Designer * result unit) :=
  match idx with
  | None => Some (app, Ok tt)
  | Some idx =>
      match PyList.pop (overlay_layers app) idx with
      | None => None
      | Some (layer, rest) =>
          let order :=
            order_without ("overlay"%string, OverlayLayer.id layer)
                          (layer_order app) in
          match rest with
          | [] => Some (rerender env (set_overlay_scene rest order None app))
          | _ :: _ =>
              match PyList.item rest (Z.max 0 (Z.of_nat idx - 1)) with
              | None => None
              | Some l =>
                  Some (rerender env
                          (set_overlay_scene rest order
                                             (Some (OverlayLayer.id l)) app))
              end
          end
      end
  end.

(** [_remove_image_layer()] *)
Definition _remove_image_layer (idx : option nat) (app : Designer)
  : option (Designer * result unit) :=
  match idx with
  | None => Some (app, Ok tt)
  | Some idx =>
      match PyList.pop (image_layers app) idx with
      | None => None
      | Some (layer, rest) =>
          let order :=
            order_without ("image"%string, ImageLayer.id layer) (layer_order app) in
          match rest with
          | [] => Some (rerender env (set_image_scene rest order None app))
          | _ :: _ =>
              match PyList.item rest (Z.max 0 (Z.of_nat idx - 1)) with
              | None => None
              | Some l =>
                  Some (rerender env
                          (set_image_scene rest order (Some (ImageLayer.id l)) app))
              end
          end
      end
  end.

(** [_add_text_layer()]; [fresh_id] is the id the new layer draws. *)
Definition _add_text_layer (fresh_id : string) (app : Designer)
  : Designer * result unit :=
  match create_text_layer fresh_id
          (Some [("label"%string,
                  VStr ("Teks " ++ str_of_nat (List.length (text_layers app) + 1)))])
  with
  | Raise e => (app, Raise e)
  | Ok layer => rerender env (add_text layer app)
  end.

(** [_add_overlay_layer()] *)
Definition _add_overlay_layer (fresh_id : string) (app : Designer)
  : Designer * result unit :=
  match create_overlay_layer fresh_id
          (Some [("label"%string,
                  VStr ("Highlight "
                          ++ str_of_nat (List.length (overlay_layers app) + 1)))])
  with
  | Raise e => (app, Raise e)
  | Ok layer => rerender env (add_overlay layer app)
  end.

(** [_add_image_layer()] *)
Definition _add_image_layer (fresh_id : string) (app : Designer)
  : Designer * result unit :=
  match create_image_layer fresh_id
          (Some [("label"%string,
                  VStr ("Gambar " ++ str_of_nat (List.length (image_layers app) + 1)))])
  with
  | Raise e => (app, Raise e)
  | Ok layer => rerender env (add_image layer app)
  end.

(** [f"{item[0]}:{item[1]}"]: the row id of an entry in the layer tree. *)
Definition entry_key (item : string * string) : string :=
  (fst item ++ ":" ++ snd item)%string.

(** [_shift_layer(direction)]; [selection] is [self.layer_tree.selection()]. *)
Definition _shift_layer (selection : list string) (direction : Z)
           (app : Designer) : Designer * result unit :=
  match selection with
  | [] => (app, Ok tt)
  | selected :: _ =>
      match PyList.find_index (fun item => String.eqb (entry_key item) selected)
                              (layer_order app) with
      | None => (app, Ok tt)
      | Some index =>
          let new_index :=
            clamp_int (Z.of_nat index + direction) 0
                      (Z.of_nat (List.length (layer_order app)) - 1) in
          if new_index =? Z.of_nat index then (app, Ok tt)
          else
            match PyList.pop (layer_order app) index with
            | None => (app, Ok tt)
            | Some (item, rest) =>
                rerender env
                  (set_layer_order (PyList.insert rest (Z.to_nat new_index) item)
                                   app)
            end
      end
  end.

(** [layer.shadow.enabled = not layer.shadow.enabled] *)
Definition toggle_shadow_enabled (l : TextLayer.t) : TextLayer.t :=
  let s := TextLayer.shadow l in
  TextLayer.mk (TextLayer.id l) (TextLayer.label l) (TextLayer.text l)
               (TextLayer.font_file l) (TextLayer.font_size l) (TextLayer.color l)
               (TextLayer.align l) (TextLayer.position_x l) (TextLayer.position_y l)
               (TextLayer.max_width l) (TextLayer.tracking l) (TextLayer.rotation l)
               (ShadowSettings.mk (negb (ShadowSettings.enabled s))
                                  (ShadowSettings.offset_x s)
                                  (ShadowSettings.offset_y s)
                                  (ShadowSettings.blur_radius s)
                                  (ShadowSettings.color s)
                                  (ShadowSettings.opacity s))
               (TextLayer.stroke l).

(** [layer.add_shadow = not layer.add_shadow] *)
Definition toggle_add_shadow (l : ImageLayer.t) : ImageLayer.t :=
  ImageLayer.mk (ImageLayer.id l) (ImageLayer.label l) (ImageLayer.image_path l)
                (ImageLayer.scale l) (ImageLayer.rotation l)
                (ImageLayer.position_x l) (ImageLayer.position_y l)
                (ImageLayer.opacity l) (ImageLayer.flip_horizontal l)
                (ImageLayer.flip_vertical l) (negb (ImageLayer.add_shadow l))
                (ImageLayer.shadow_blur l) (ImageLayer.shadow_offset_x l)
                (ImageLayer.shadow_offset_y l) (ImageLayer.shadow_opacity l).

(** [_toggle_text_shadow()] *)
Definition _toggle_text_shadow (app : Designer) : Designer * result unit :=
  match _get_current_text app with
  | None => (app, Ok tt)
  | Some layer =>
      rerender env
        (set_text_scene
           (update_first (fun l => String.eqb (TextLayer.id l) (TextLayer.id layer))
                         toggle_shadow_enabled (text_layers app))
           (layer_order app) (current_text_id app) app)
  end.

(** [_toggle_image_shadow()] *)
Definition _toggle_image_shadow (app : Designer) : Designer * result unit :=
  match _get_current_image app with
  | None => (app, Ok tt)
  | Some layer =>
      rerender env
        (set_image_scene
           (update_first (fun l => String.eqb (ImageLayer.id l) (ImageLayer.id layer))
                         toggle_add_shadow (image_layers app))
           (layer_order app) (current_image_id app) app)
  end.

End Editor.

(** ** Reference definitions for the editor statements *)

Definition is_some {A : Type} (o : option A) : bool :=
  match o with Some _ => true | None => false end.

(** The entry names a layer of its type. *)
Definition resolves (app : Designer) (entry : string * string) : bool :=
  let '(layer_type, layer_id) := entry in
  if String.eqb layer_type "text" then
    is_some (find (fun t => String.eqb (TextLayer.id t) layer_id) (text_layers app))
  else if String.eqb layer_type "overlay" then
    is_some (find (fun o => String.eqb (OverlayLayer.id o) layer_id)
                  (overlay_layers app))
  else if String.eqb layer_type "image" then
    is_some (find (fun i => String.eqb (ImageLayer.id i) layer_id)
                  (image_layers app))
  else false.

(** No entry of the layer order is stale. *)
Definition well_referenced (app : Designer) : Prop :=
  forall entry, In entry (layer_order app) -> resolves app entry = true.

(** Three text layers over the default banner. *)
Definition three_texts_app : Designer :=
  mkDesigner 1280 720 BackgroundSettings.default
             [TextLayer.set_id "t1" default_headline;
              TextLayer.set_id "t2" default_headline;
              TextLayer.set_id "t3" default_headline] []
             [default_banner] (Some "t1"%string) None (Some "b1"%string)
             [("text"%string, "t1"%string); ("overlay"%string, "b1"%string);
              ("text"%string, "t2"%string); ("text"%string, "t3"%string)] None.

(** ** Stroke *)

(** [range(a, b)] *)
Definition range_from (a b : Z) : list Z :=
  map (fun k => a + Z.of_nat k) (seq 0 (Z.to_nat (b - a))).

(** The offsets [(dx, dy)] at which [_draw_text_with_stroke] stamps the
    text in the stroke colour, in the order of its two loops. *)
Definition stroke_offsets (stroke_width : Z) : list (Z * Z) :=
  flat_map (fun dx =>
              flat_map (fun dy =>
                          if dx * dx + dy * dy <=? stroke_width * stroke_width
                          then [(dx, dy)] else [])
                       (range_from (- stroke_width) (stroke_width + 1)))
           (range_from (- stroke_width) (stroke_width + 1)).

(** [_draw_text_with_stroke(draw, position, text, font, fill_color,
    stroke_color, stroke_width)]: the calls of [draw.text] it makes, each
    with its position and fill. *)
Definition _draw_text_with_stroke (position : Z * Z)
           (fill_color stroke_color : string) (stroke_width : Z)
  : list ((Z * Z) * string) :=
  let '(x, y) := position in
  map (fun d => ((x + fst d, y + snd d), stroke_color)) (stroke_offsets stroke_width)
  ++ [((x, y), fill_color)].

(** ** Workspace files *)

Local Open Scope string_scope.

Module GradientDict.
Import GradientSettings.
Definition fields : list string := ["start_color"; "end_color"; "direction"]%string.
Definition asdict (g : t) : dict :=
  [("start_color"%string, VStr (start_color g));
   ("end_color"%string, VStr (end_color g));
   ("direction"%string, VStr (direction g))].
(** The constructor call [GradientSettings] with keyword arguments [d]. *)
Definition of_kwargs (d : dict) : result t :=
  if negb (known_keys fields d) then Raise TypeError else
  a <- arg_str d "start_color" (start_color default) ;;
  b <- arg_str d "end_color" (end_color default) ;;
  c <- arg_str d "direction" (direction default) ;;
  Ok (mk a b c).
End GradientDict.

Module BackgroundDict.
Import BackgroundSettings.
Definition fields : list string :=
  ["mode"; "solid_color"; "gradient"; "image_path"; "blur_radius";
   "brightness"; "contrast"; "saturation"]%string.
Definition asdict (b : t) : dict :=
  [("mode"%string, VStr (mode b)); ("solid_color"%string, VStr (solid_color b));
   ("gradient"%string, VDict (GradientDict.asdict (gradient b)));
   ("image_path"%string, optstr_value (image_path b));
   ("blur_radius"%string, VFloat (blur_radius b));
   ("brightness"%string, VFloat (brightness b));
   ("contrast"%string, VFloat (contrast b));
   ("saturation"%string, VFloat (saturation b))].
(** The constructor call [BackgroundSettings] with keyword arguments [d],
    the gradient already built. *)
Definition of_kwargs (d : dict) (g : GradientSettings.t) : result t :=
  if negb (known_keys fields d) then Raise TypeError else
  a <- arg_str d "mode" (mode default) ;;
  b <- arg_str d "solid_color" (solid_color default) ;;
  c <- arg_optstr d "image_path" (image_path default) ;;
  e <- arg_float d "blur_radius" (blur_radius default) ;;
  f <- arg_float d "brightness" (brightness default) ;;
  h <- arg_float d "contrast" (contrast default) ;;
  i <- arg_float d "saturation" (saturation default) ;;
  Ok (mk a b g c e f h i).
End BackgroundDict.

(** [create_background_settings(data)] *)
Definition create_background_settings (data : option dict)
  : result BackgroundSettings.t :=
  match data with
  | None | Some [] => Ok BackgroundSettings.default
  | Some payload =>
      g <- match get "gradient" payload with
           | Some (VDict d) => GradientDict.of_kwargs d
           | _ => Ok GradientSettings.default
           end ;;
      BackgroundDict.of_kwargs payload g
  end.

Local Close Scope string_scope.

(** The object [save_workspace] hands to [json.dump] and [load_workspace]
    gets from [json.load]; a key may be missing from a file. *)
Record Workspace : Type := mkWorkspace {
  ws_background : option dict;
  ws_text_layers : option (list dict);
  ws_image_layers : option (list dict);
  ws_overlay_layers : option (list dict);
  ws_layer_order : option (list (string * string))
}.

(** The [data] of [save_workspace()]. *)
Definition save_workspace (app : Designer) : Workspace :=
  mkWorkspace (Some (BackgroundDict.asdict (background app)))
              (Some (map TextDict.asdict (text_layers app)))
              (Some (map ImageDict.asdict (image_layers app)))
              (Some (map OverlayDict.asdict (overlay_layers app)))
              (Some (layer_order app)).

(** [[create(layer) for layer in dicts]]; the k-th layer built draws the id
    [fresh (start + k)] if its dict carries none. *)
Fixpoint create_all {A : Type} (create : string -> option dict -> result A)
         (fresh : nat -> string) (start : nat) (dicts : list dict)
  : result (list A) :=
  match dicts with
  | [] => Ok []
  | d :: ds =>
      x <- create (fresh start) (Some d) ;;
      xs <- create_all create fresh (S start) ds ;;
      Ok (x :: xs)
  end.

Definition or_empty {A : Type} (o : option (list A)) : list A :=
  match o with Some l => l | None => [] end.

Definition first_id {A : Type} (key : A -> string) (l : list A) : option string :=
  match l with
  | [] => None
  | x :: _ => Some (key x)
  end.

Section Workspaces.

Variable env : Env.

(** [load_workspace()] from the point where the file has been read: the
    five assignments in order, the selection of the first layer of each
    kind, and the render.  An exception leaves the assignments made so far
    in place. *)
Definition load_workspace (fresh : nat -> string) (data : Workspace)
           (app : Designer) : Designer * result unit :=
  match create_background_settings (ws_background data) with
  | Raise e => (app, Raise e)
  | Ok bg =>
      let app := set_background bg app in
      let tds := or_empty (ws_text_layers data) in
      let ids := or_empty (ws_image_layers data) in
      let ods := or_empty (ws_overlay_layers data) in
      match create_all create_text_layer fresh 0 tds with
      | Raise e => (app, Raise e)
      | Ok texts =>
          let app := set_text_scene texts (layer_order app)
                                    (current_text_id app) app in
          match create_all create_image_layer fresh (List.length tds) ids with
          | Raise e => (app, Raise e)
          | Ok images =>
              let app := set_image_scene images (layer_order app)
                                         (current_image_id app) app in
              match create_all create_overlay_layer fresh
                               (List.length tds + List.length ids) ods with
              | Raise e => (app, Raise e)
              | Ok overlays =>
                  rerender env
                    (mkDesigner (base_width app) (base_height app)
                                (background app) texts images overlays
                                (first_id TextLayer.id texts)
                                (first_id ImageLayer.id images)
                                (first_id OverlayLayer.id overlays)
                                (or_empty (ws_layer_order data))
                                (latest_image app))
              end
          end
      end
  end.

End Workspaces.

(** Every channel of a colour is a byte. *)
Definition bytes (c : RGBA) : Prop :=
  let '(r, g, b, a) := c in byte r /\ byte g /\ byte b /\ byte a.

(** The only whitespace in the line is the space character. *)
Definition spaces_only (line : str) : Prop :=
  forall c, In c line -> Py.isspace c = true -> c = " "%char.

(** A word without whitespace. *)
Definition solid (w : str) : Prop :=
  forallb (fun c => negb (Py.isspace c)) w = true.

(** ** Default layers and reset *)

Local Open Scope string_scope.

(** The three payloads of [_add_default_layers]. *)
Definition headline_payload : dict :=
  [("label", VStr "Headline");
   ("text", VStr ("Tingkatkan Views" ++ String "010" "Dalam 5 Menit!"));
   ("font_size", VInt 170)].

Definition subhead_payload : dict :=
  [("label", VStr "Subheadline");
   ("text", VStr "Strategi Thumbnail Viral");
   ("font_size", VInt 90);
   ("position_y", VFloat 0.62);
   ("color", VStr "#ffcf00");
   ("shadow", VDict [("enabled", VBool true); ("offset_x", VInt 4);
                     ("offset_y", VInt 4); ("blur_radius", VInt 8);
                     ("color", VStr "#000000"); ("opacity", VFloat 0.7)]);
   ("stroke", VDict [("width", VInt 4); ("color", VStr "#111111")])].

Definition banner_payload : dict :=
  [("label", VStr "Banner"); ("mode", VStr "banner"); ("color", VStr "#ff3838");
   ("opacity", VFloat 0.88); ("position_x", VFloat 0.5);
   ("position_y", VFloat 0.6); ("width", VFloat 0.9); ("height", VFloat 0.3);
   ("rotation", VInt (-2))].

(** The subheadline [_add_default_layers] creates, under the id ["t2"]. *)
Definition default_subhead : TextLayer.t :=
  TextLayer.mk "t2" "Subheadline" "Strategi Thumbnail Viral"
               "Montserrat-ExtraBold.ttf" 90 "#ffcf00" "center" 0.5 0.62 0.9 0
               0.0 (ShadowSettings.mk true 4 4 8 "#000000" 0.7)
               (StrokeSettings.mk 4 "#111111").

Local Close Scope string_scope.

Section Defaults.

Variable env : Env.

(** [_add_default_layers()]; the three ids are the ones the three layers
    draw.  The tree and list widgets are not part of the model. *)
Definition _add_default_layers (id1 id2 id3 : string) (app : Designer)
  : result Designer :=
  headline <- create_text_layer id1 (Some headline_payload) ;;
  subhead <- create_text_layer id2 (Some subhead_payload) ;;
  overlay <- create_overlay_layer id3 (Some banner_payload) ;;
  let texts := text_layers app ++ [headline; subhead] in
  let order :=
    layer_order app
    ++ map (fun layer => ("text"%string, TextLayer.id layer)) texts
    ++ [("overlay"%string, OverlayLayer.id overlay)] in
  Ok (mkDesigner (base_width app) (base_height app) (background app) texts
                 (image_layers app) (overlay_layers app ++ [overlay])
                 (Some (TextLayer.id headline)) (current_image_id app)
                 (current_overlay_id app) order (latest_image app)).

(** [_reset_layers()]; [confirmed] is the answer to the question box. *)
Definition _reset_layers (confirmed : bool) (id1 id2 id3 : string)
           (app : Designer) : Designer * result unit :=
  if negb confirmed then (app, Ok tt)
  else
    let cleared :=
      mkDesigner (base_width app) (base_height app) (background app) [] [] []
                 (current_text_id app) (current_image_id app)
                 (current_overlay_id app) [] (latest_image app) in
    match _add_default_layers id1 id2 id3 cleared with
    | Raise e => (cleared, Raise e)
    | Ok app' => rerender env app'
    end.

End Defaults.

(** The only exception a computation raises is [TypeError]. *)
Definition only_type_error {A : Type} (m : result A) : Prop :=
  forall e, m = Raise e -> e = TypeError.

(** * Properties *)

(** ** Text: joining, splitting and stripping *)

Lemma join_singletons (n : nat) (text : str) :
  Py.join (repeat " "%char n) (map (fun c => [c]) text) = spaced_out n text.
Proof.
  induction text as [|c rest IH]; [reflexivity|].
  destruct rest as [|d rest']; [reflexivity|].
  change (Py.join (repeat " "%char n) (map (fun c => [c]) (c :: d :: rest')))
    with ([c] ++ repeat " "%char n
            ++ Py.join (repeat " "%char n) (map (fun c => [c]) (d :: rest'))).
  rewrite IH. reflexivity.
Qed.

Lemma split_by_cons (p : ascii -> bool) (s : str) :
  exists w ws, Py.split_by p s = w :: ws.
Proof.
  destruct s as [|c s']; simpl; [eauto|].
  destruct (p c); [eauto|].
  destruct (Py.split_by p s'); eauto.
Qed.

Lemma split_by_app (p : ascii -> bool) (a b : str) (c : ascii) :
  p c = true ->
  Py.split_by p (a ++ c :: b) = Py.split_by p a ++ Py.split_by p b.
Proof.
  intros Hc. induction a as [|x a' IH]; simpl.
  - rewrite Hc. reflexivity.
  - destruct (p x).
    + rewrite IH. reflexivity.
    + rewrite IH. destruct (split_by_cons p a') as (w & ws & E).
      rewrite E. reflexivity.
Qed.

Lemma split_app (a b : str) (c : ascii) :
  Py.isspace c = true -> Py.split (a ++ c :: b) = Py.split a ++ Py.split b.
Proof.
  intros Hc. unfold Py.split. rewrite (split_by_app _ _ _ _ Hc).
  apply filter_app.
Qed.

Lemma split_space_char (c : ascii) :
  Py.isspace c = true -> forall s, Py.split (c :: s) = Py.split s.
Proof.
  intros Hc s. unfold Py.split. simpl. rewrite Hc. reflexivity.
Qed.

Lemma split_blank (t : str) :
  forallb Py.isspace t = true -> Py.split t = [].
Proof.
  induction t as [|c t' IH]; simpl; [reflexivity|].
  intros H. apply andb_prop in H as [Hc Ht].
  rewrite (split_space_char c Hc). auto.
Qed.

Lemma split_app_blank (r t : str) :
  forallb Py.isspace t = true -> Py.split (r ++ t) = Py.split r.
Proof.
  destruct t as [|c t']; intros H.
  - rewrite app_nil_r. reflexivity.
  - simpl in H. apply andb_prop in H as [Hc Ht].
    rewrite (split_app _ _ _ Hc), (split_blank _ Ht). apply app_nil_r.
Qed.

Lemma split_lstrip (s : str) : Py.split (Py.lstrip s) = Py.split s.
Proof.
  induction s as [|c s' IH]; simpl; [reflexivity|].
  destruct (Py.isspace c) eqn:Hc; [|reflexivity].
  rewrite IH. symmetry. apply split_space_char. exact Hc.
Qed.

Lemma rstrip_tail (s : str) :
  exists t, s = Py.rstrip s ++ t /\ forallb Py.isspace t = true.
Proof.
  induction s as [|c s' (t & E & Ht)]; simpl.
  - exists []. split; reflexivity.
  - destruct (Py.rstrip s') as [|d r] eqn:R.
    + simpl in E. subst t. destruct (Py.isspace c) eqn:Hc.
      * exists (c :: s'). simpl. rewrite Hc, Ht. split; reflexivity.
      * exists s'. split; [reflexivity|exact Ht].
    + exists t. split; [|exact Ht]. simpl. f_equal. exact E.
Qed.

Lemma split_rstrip (s : str) : Py.split (Py.rstrip s) = Py.split s.
Proof.
  destruct (rstrip_tail s) as (t & E & Ht).
  rewrite E at 2. symmetry. apply split_app_blank. exact Ht.
Qed.

Lemma split_strip (s : str) : Py.split (Py.strip s) = Py.split s.
Proof.
  unfold Py.strip. rewrite split_rstrip. apply split_lstrip.
Qed.

Lemma join_split_space (s : str) :
  Py.join [" "%char] (Py.split_space s) = s.
Proof.
  unfold Py.split_space.
  induction s as [|c s' IH]; [reflexivity|].
  cbn -[Ascii.eqb Py.join].
  destruct (split_by_cons (Ascii.eqb " ") s') as (w & ws & E).
  rewrite E in *.
  destruct (Ascii.eqb " " c) eqn:Hc.
  - apply Ascii.eqb_eq in Hc. subst c.
    change (Py.join [" "%char] ([] :: w :: ws))
      with (" "%char :: Py.join [" "%char] (w :: ws)).
    rewrite IH. reflexivity.
  - rewrite <- IH. destruct ws; reflexivity.
Qed.

Lemma split_join_space (parts : list str) :
  Py.split (Py.join [" "%char] parts) = List.concat (map Py.split parts).
Proof.
  induction parts as [|x rest IH]; [reflexivity|].
  destruct rest as [|y rest'].
  - simpl. rewrite app_nil_r. reflexivity.
  - change (Py.join [" "%char] (x :: y :: rest'))
      with (x ++ " "%char :: Py.join [" "%char] (y :: rest')).
    rewrite split_app by reflexivity. rewrite IH. reflexivity.
Qed.

Lemma split_words (s : str) :
  List.concat (map Py.split (Py.split_space s)) = Py.split s.
Proof.
  rewrite <- split_join_space, join_split_space. reflexivity.
Qed.

(** ** Wrapping *)

Section WrapFacts.

Variable font : Font.
Variable tracking : Z.
Variable max_width_pixels : Z.

Local Abbreviation fits := (fits font tracking max_width_pixels).
Local Abbreviation wrap_word := (wrap_word font tracking max_width_pixels).
Local Abbreviation wrap_line := (wrap_line font tracking max_width_pixels).

Lemma wrap_word_words (rendered : list str) (cur word : str) :
  let '(rendered', cur') := wrap_word (rendered, cur) word in
  List.concat (map Py.split rendered') ++ Py.split cur'
  = List.concat (map Py.split rendered) ++ Py.split cur ++ Py.split word.
Proof.
  unfold wrap_word.
  destruct (fits _).
  - rewrite split_strip, split_app by reflexivity. reflexivity.
  - destruct cur as [|c cur']; cbn [Py.nonempty].
    + reflexivity.
    + rewrite map_app, concat_app. cbn [map List.concat].
      rewrite app_nil_r, <- app_assoc. reflexivity.
Qed.

Lemma wrap_fold_words (words : list str) :
  forall rendered cur,
    let '(rendered', cur') := fold_left wrap_word words (rendered, cur) in
    List.concat (map Py.split rendered') ++ Py.split cur'
    = List.concat (map Py.split rendered) ++ Py.split cur
        ++ List.concat (map Py.split words).
Proof.
  induction words as [|w ws IH]; intros rendered cur; cbn [fold_left map List.concat].
  - rewrite app_nil_r. reflexivity.
  - pose proof (wrap_word_words rendered cur w) as Hw.
    revert Hw. destruct (wrap_word (rendered, cur) w) as [r1 c1]. intros Hw.
    specialize (IH r1 c1). revert IH.
    destruct (fold_left wrap_word ws (r1, c1)) as [r2 c2]. intros IH.
    rewrite IH, app_assoc, Hw, <- !app_assoc. reflexivity.
Qed.

Lemma wrap_line_words (rendered : list str) (line : str) :
  List.concat (map Py.split (wrap_line rendered line))
  = List.concat (map Py.split rendered) ++ Py.split line.
Proof.
  unfold wrap_line.
  destruct (Py.nonempty (Py.strip line)) eqn:Hb; cbn [negb].
  - pose proof (wrap_fold_words (Py.split_space line) rendered []) as H.
    revert H.
    destruct (fold_left wrap_word (Py.split_space line) (rendered, [])) as [r c].
    intros H. cbv beta iota in H.
    rewrite map_app, concat_app. cbn [map List.concat]. rewrite app_nil_r.
    rewrite H, split_words. reflexivity.
  - rewrite map_app, concat_app. cbn [map List.concat].
    rewrite <- (split_strip line).
    destruct (Py.strip line); [reflexivity|discriminate].
Qed.

Local Abbreviation fits_or_word := (fits_or_word font tracking max_width_pixels).

Lemma wrap_word_fits (words : list str) (rendered : list str) (cur word : str) :
  In word words ->
  Forall (fits_or_word words) rendered -> fits_or_word words cur ->
  let '(rendered', cur') := wrap_word (rendered, cur) word in
  Forall (fits_or_word words) rendered' /\ fits_or_word words cur'.
Proof.
  intros Hw Hr Hc. unfold wrap_word.
  destruct (fits _) eqn:F.
  - split; [exact Hr|]. right. left. exact F.
  - split; [|right; right; exact Hw].
    destruct (Py.nonempty cur); [|exact Hr].
    apply Forall_app. split; [exact Hr|]. constructor; [exact Hc|constructor].
Qed.

Lemma wrap_fold_fits (words ws : list str) :
  incl ws words ->
  forall rendered cur,
    Forall (fits_or_word words) rendered -> fits_or_word words cur ->
    let '(rendered', cur') := fold_left wrap_word ws (rendered, cur) in
    Forall (fits_or_word words) rendered' /\ fits_or_word words cur'.
Proof.
  induction ws as [|w ws' IH]; intros Hi rendered cur Hr Hc; cbn [fold_left].
  - split; assumption.
  - pose proof (wrap_word_fits words rendered cur w (Hi w (or_introl eq_refl)) Hr Hc) as H.
    revert H. destruct (wrap_word (rendered, cur) w) as [r1 c1]. intros [H1 H2].
    apply IH; [|exact H1|exact H2].
    intros x Hx. apply Hi. right. exact Hx.
Qed.

Lemma wrap_line_fits (line l : str) :
  In l (wrap_line [] line) -> fits_or_word (Py.split_space line) l.
Proof.
  unfold wrap_line.
  destruct (negb (Py.nonempty (Py.strip line))).
  - intros [H|[]]. left. symmetry. exact H.
  - pose proof (wrap_fold_fits (Py.split_space line) (Py.split_space line)
                  (incl_refl _) [] [] (Forall_nil _) (or_introl eq_refl)) as H.
    revert H.
    destruct (fold_left wrap_word (Py.split_space line) ([], [])) as [r c].
    intros [H1 H2] Hin. apply in_app_or in Hin as [Hin|[Hin|[]]].
    + rewrite Forall_forall in H1. apply H1. exact Hin.
    + subst l. exact H2.
Qed.

End WrapFacts.

Lemma rstrip_solid (w : str) :
  forallb (fun c => negb (Py.isspace c)) w = true -> Py.rstrip w = w.
Proof.
  induction w as [|c w' IH]; [reflexivity|].
  cbn [forallb Py.rstrip]. intros H. apply andb_prop in H as [Hc Hw].
  rewrite (IH Hw). destruct w'; [|reflexivity].
  apply negb_true_iff in Hc. rewrite Hc. reflexivity.
Qed.

Lemma strip_solid (w : str) :
  forallb (fun c => negb (Py.isspace c)) w = true -> Py.strip w = w.
Proof.
  intros H. unfold Py.strip.
  destruct w as [|c w']; [reflexivity|].
  pose proof H as H'. cbn [forallb] in H'. apply andb_prop in H' as [Hc _].
  apply negb_true_iff in Hc. cbn [Py.lstrip]. rewrite Hc.
  apply rstrip_solid. exact H.
Qed.

Lemma split_space_solid (w : str) :
  forallb (fun c => negb (Py.isspace c)) w = true -> Py.split_space w = [w].
Proof.
  unfold Py.split_space.
  induction w as [|c w' IH]; [reflexivity|].
  cbn [forallb]. intros H. apply andb_prop in H as [Hc Hw].
  cbn -[Ascii.eqb]. rewrite (IH Hw).
  destruct (Ascii.eqb " " c) eqn:E; [|reflexivity].
  apply Ascii.eqb_eq in E. subst c. discriminate.
Qed.

(** ** Tracking *)

(** C5 (as amended): [_apply_tracking] leaves the line alone when the
    tracking is 0 and otherwise puts [max(0, floor(tracking / 20))] spaces
    between every two neighbouring characters; that count is
    [floor(tracking / 20)] itself when the tracking is not negative, and 0
    when it is negative. *)
Theorem apply_tracking_spaces (text : str) (tracking : Z) :
  (tracking = 0 -> _apply_tracking text tracking = text)
  /\ (tracking <> 0 ->
      _apply_tracking text tracking
      = spaced_out (Z.to_nat (Z.max 0 (tracking / 20))) text)
  /\ (0 <= tracking ->
      Z.of_nat (Z.to_nat (Z.max 0 (tracking / 20))) = tracking / 20)
  /\ (tracking < 0 -> _apply_tracking text tracking = text).
Proof.
  assert (Hne : tracking <> 0 ->
                _apply_tracking text tracking
                = spaced_out (Z.to_nat (Z.max 0 (tracking / 20))) text).
  { intros Hn. unfold _apply_tracking.
    destruct (Z.eqb_spec tracking 0) as [E|_]; [contradiction|].
    apply join_singletons. }
  repeat split.
  - intros ->. reflexivity.
  - exact Hne.
  - intros Hp. assert (0 <= tracking / 20) by (apply Z.div_pos; lia). lia.
  - intros Hneg. rewrite Hne by lia.
    assert (tracking / 20 < 0) by (apply Z.div_lt_upper_bound; lia).
    replace (Z.max 0 (tracking / 20)) with 0 by lia.
    clear. induction text as [|c rest IH]; [reflexivity|].
    destruct rest; [reflexivity|].
    cbn [spaced_out Z.to_nat repeat app] in *. rewrite IH. reflexivity.
Qed.

Lemma apply_tracking_spaces_witness :
  45 <> 0
  /\ _apply_tracking (list_ascii_of_string "abc") 45
     = list_ascii_of_string "a  b  c".
Proof.
  split; [lia|].
  exact (proj1 (proj2 (apply_tracking_spaces (list_ascii_of_string "abc") 45))
               ltac:(lia)).
Defined.

(** C5 as stated fails for a negative tracking: [floor(-40 / 20)] is [-2],
    no number of spaces, and the line comes back unchanged. *)
Lemma apply_tracking_negative_counterexample :
  (-40) / 20 = -2
  /\ _apply_tracking (list_ascii_of_string "ab") (-40) = list_ascii_of_string "ab"
  /\ ~ (exists n : nat,
           Z.of_nat n = (-40) / 20
           /\ _apply_tracking (list_ascii_of_string "ab") (-40)
              = spaced_out n (list_ascii_of_string "ab")).
Proof.
  split; [reflexivity|]. split; [reflexivity|].
  intros (n & Hn & _). change ((-40) / 20) with (-2) in Hn. lia.
Qed.

(** ** Word wrap *)

(** C10: wrapping a line keeps its words: the non-empty whitespace-separated
    words of the output lines, read in order, are exactly those of the input
    line; nothing is dropped, repeated, reordered or split. *)
Theorem wrap_preserves_words (font : Font) (tracking max_width_pixels : Z)
        (line : str) :
  List.concat (map Py.split (wrap_line font tracking max_width_pixels [] line))
  = Py.split line.
Proof.
  rewrite wrap_line_words. reflexivity.
Qed.

(** ** Checking a range of integers by evaluation *)

Lemma all_from_nat (f : Z -> bool) (n : nat) :
  forall z, all_from f n z = true ->
  forall k, z <= k < z + Z.of_nat n -> f k = true.
Proof.
  induction n as [|n IH]; intros z H k Hk; [lia|].
  cbn [all_from] in H. apply andb_prop in H as [Hz Hrest].
  destruct (Z.eq_dec k z) as [->|Hne]; [exact Hz|].
  apply (IH (z + 1) Hrest). lia.
Qed.

Lemma all_from_spec (f : Z -> bool) (n z : Z) :
  all_from f (Z.to_nat n) z = true ->
  forall k, z <= k < z + n -> f k = true.
Proof.
  intros H k Hk. apply (all_from_nat f (Z.to_nat n) z H). lia.
Qed.

(** ** Overlay colour *)

Lemma clamp_unit (v : float) :
  clamp v 0 1
  = if (1 <? v)%float then 1%float
    else if (0 <? v)%float then v else 0%float.
Proof.
  unfold clamp, Py.min, Py.max.
  destruct (1 <? v)%float; reflexivity.
Qed.

Lemma overlay_shapes_fill (b : OverlayBox) (mode : string) (rounded : Z)
      (color : RGBA) (shapes : list Shape) :
  overlay_shapes b mode rounded color = Ok shapes ->
  forall s, In s shapes -> fill_of s = color.
Proof.
  unfold overlay_shapes. destruct (box_rect b) as [[[x0 y0] x1] y1].
  destruct (String.eqb mode "rectangle").
  { intros [= <-] s [<-|[]]. reflexivity. }
  destruct (String.eqb mode "circle").
  { intros [= <-] s [<-|[]]. reflexivity. }
  destruct (String.eqb mode "banner").
  - destruct (banner_bottom b) as [bottom|]; [|discriminate].
    destruct (triangle_height b) as [th|]; [|discriminate].
    intros [= <-] s [<-|[<-|[<-|[]]]]; reflexivity.
  - intros [= <-] s [].
Qed.

Lemma render_overlay_shapes (env : Env) (app : Designer) (layer : OverlayLayer.t) :
  _render_overlay_layer env app layer
  = (b <- overlay_box app layer ;;
     shapes <- layer_shapes env app layer ;;
     overlay <- for_each shapes (Image_new (canvas_size app) transparent)
                         (draw_shape env) ;;
     let overlay :=
       if 0 <? OverlayLayer.blur_radius layer
       then gaussian_blur env (Py.float_of_Z (OverlayLayer.blur_radius layer)) overlay
       else overlay in
     Ok (if negb (OverlayLayer.rotation layer =? 0)%float
         then rotate_about env (OverlayLayer.rotation layer) (box_x b, box_y b)
                           overlay
         else overlay)).
Proof.
  unfold _render_overlay_layer, layer_shapes.
  destruct (overlay_box app layer); [cbn [bind]|reflexivity].
  destruct (hex_to_rgba env _ _); reflexivity.
Qed.

(** C2 (as amended): every shape of an overlay is filled with the alpha byte
    [int(clamp(opacity, 0, 1) * 255)]: an opacity above 1 gives 255, an
    opacity that is not above 0 gives 0, and only an opacity in between is
    used as given, as [int(opacity * 255)]. *)
Theorem overlay_alpha_clamped (env : Env) (app : Designer)
        (layer : OverlayLayer.t) (shapes : list Shape) :
  layer_shapes env app layer = Ok shapes ->
  exists a,
    Py.int_of_float (clamp (OverlayLayer.opacity layer) 0 1 * 255)%float = Ok a
    /\ (forall s, In s shapes -> alpha_of (fill_of s) = a)
    /\ ((1 <? OverlayLayer.opacity layer)%float = true -> a = 255)
    /\ ((1 <? OverlayLayer.opacity layer)%float = false ->
        (0 <? OverlayLayer.opacity layer)%float = false -> a = 0)
    /\ ((1 <? OverlayLayer.opacity layer)%float = false ->
        (0 <? OverlayLayer.opacity layer)%float = true ->
        Py.int_of_float (OverlayLayer.opacity layer * 255)%float = Ok a).
Proof.
  unfold layer_shapes, hex_to_rgba.
  destruct (overlay_box app layer) as [b|]; [|discriminate].
  cbn [bind].
  destruct (getrgb env (OverlayLayer.color layer)) as [[[r g] bl]|]; [|discriminate].
  cbn [bind].
  destruct (Py.int_of_float (clamp (OverlayLayer.opacity layer) 0 1 * 255)%float)
    as [a|] eqn:Ha; [|discriminate].
  cbn [bind]. intros Hs. exists a.
  split; [reflexivity|]. split.
  { intros s Hin. rewrite (overlay_shapes_fill _ _ _ _ _ Hs s Hin). reflexivity. }
  rewrite clamp_unit in Ha.
  repeat split.
  - intros H1. rewrite H1 in Ha. vm_compute in Ha. congruence.
  - intros H1 H0. rewrite H1, H0 in Ha. vm_compute in Ha. congruence.
  - intros H1 H0. rewrite H1, H0 in Ha. exact Ha.
Qed.

Lemma overlay_alpha_clamped_witness :
  exists a,
    (forall s, In s [RoundedRectangle (64, 324, 1216, 486) 40 (255, 56, 56, 224);
                   Polygon [(64, 465); (352, 540); (640, 465)] (255, 56, 56, 224);
                   Polygon [(1216, 465); (928, 540); (640, 465)] (255, 56, 56, 224)] ->
               alpha_of (fill_of s) = a)
    /\ Py.int_of_float (OverlayLayer.opacity default_banner * 255)%float = Ok a.
Proof.
  destruct (overlay_alpha_clamped sample_env sample_app default_banner _ eq_refl)
    as (a & _ & Hfill & _ & _ & Hmid).
  exists a. split; [exact Hfill|]. apply Hmid; reflexivity.
Defined.

(** C2 as stated fails for an opacity of 2.0: the rectangle is filled with
    alpha 255, not with [int(2.0 * 255) = 510]. *)
Lemma overlay_alpha_counterexample :
  layer_shapes sample_env sample_app loud_overlay
  = Ok [RoundedRectangle (128, 126, 1152, 306) 40 (255, 56, 56, 255)]
  /\ Py.int_of_float (OverlayLayer.opacity loud_overlay * 255)%float = Ok 510
  /\ ~ (forall shapes s,
           layer_shapes sample_env sample_app loud_overlay = Ok shapes ->
           In s shapes ->
           Ok (alpha_of (fill_of s))
           = Py.int_of_float (OverlayLayer.opacity loud_overlay * 255)%float).
Proof.
  split; [reflexivity|]. split; [reflexivity|].
  intros H. specialize (H _ _ eq_refl (or_introl eq_refl)). discriminate H.
Qed.

(** ** Banner geometry *)

Lemma banner_heights_checked :
  all_from (fun h =>
              match Py.int_of_float (Py.float_of_Z h * 0.25)%float,
                    Py.int_of_float (Py.float_of_Z h * 0.35)%float with
              | Ok q, Ok th => (q =? h / 4) && (q <=? th)
              | _, _ => false
              end) (Z.to_nat 8193) 0 = true.
Proof. vm_compute. reflexivity. Qed.

Lemma banner_heights (h : Z) :
  0 <= h <= 8192 ->
  exists th,
    Py.int_of_float (Py.float_of_Z h * 0.25)%float = Ok (h / 4)
    /\ Py.int_of_float (Py.float_of_Z h * 0.35)%float = Ok th
    /\ h / 4 <= th.
Proof.
  intros Hh.
  pose proof (all_from_spec _ _ _ banner_heights_checked h ltac:(lia)) as H.
  cbv beta in H.
  destruct (Py.int_of_float (Py.float_of_Z h * 0.25)%float) as [q|]; [|discriminate].
  destruct (Py.int_of_float (Py.float_of_Z h * 0.35)%float) as [th|]; [|discriminate].
  apply andb_prop in H as [Hq Hle].
  apply Z.eqb_eq in Hq. apply Z.leb_le in Hle. subst q.
  exists th. repeat split. exact Hle.
Qed.

(** C1 (as amended): a banner is a rounded rectangle from the top of the
    pixel rectangle down to [int(0.25 * height)] above its bottom edge, and
    two triangles of height [int(0.35 * height)]: their bases lie on the line
    [y1 - int(0.35 * height)], at or above the bottom of the rounded
    rectangle, one from the left edge to the centre line and one from the
    right edge to the centre line, and their apexes lie on the bottom edge
    [y1], a quarter of the width in from either side. *)
Theorem banner_geometry (env : Env) (app : Designer) (layer : OverlayLayer.t)
        (b : OverlayBox) (color : RGBA) (x0 y0 x1 y1 : Z) :
  OverlayLayer.mode layer = "banner"%string ->
  overlay_box app layer = Ok b ->
  hex_to_rgba env (OverlayLayer.color layer) (OverlayLayer.opacity layer) = Ok color ->
  box_rect b = (x0, y0, x1, y1) ->
  0 <= box_height b <= 8192 ->
  exists th,
    triangle_height b = Ok th
    /\ box_height b / 4 <= th
    /\ layer_shapes env app layer
       = Ok [RoundedRectangle (x0, y0, x1, y1 - box_height b / 4)
                              (OverlayLayer.rounded layer) color;
             Polygon [(x0, y1 - th); (x0 + box_width b / 4, y1); (box_x b, y1 - th)]
                     color;
             Polygon [(x1, y1 - th); (x1 - box_width b / 4, y1); (box_x b, y1 - th)]
                     color].
Proof.
  intros Hmode Hbox Hcolor Hrect Hh.
  destruct (banner_heights (box_height b) Hh) as (th & Hq & Hth & Hle).
  exists th. split; [exact Hth|]. split; [exact Hle|].
  unfold layer_shapes. rewrite Hbox, Hcolor. cbn [bind].
  unfold overlay_shapes, banner_bottom, triangle_height.
  rewrite Hrect, Hmode, Hq, Hth. cbn [bind String.eqb].
  unfold box_rect in Hrect. injection Hrect as <- <- <- <-.
  change ("banner" =? "rectangle")%string with false.
  change ("banner" =? "circle")%string with false.
  change ("banner" =? "banner")%string with true.
  cbv iota.
  replace (box_x b - box_width b / 2 + box_width b / 2) with (box_x b) by lia.
  replace (box_x b + box_width b / 2 - box_width b / 2) with (box_x b) by lia.
  reflexivity.
Qed.

Lemma banner_geometry_witness :
  exists th,
    triangle_height (mkBox 1152 216 640 432) = Ok th
    /\ 216 / 4 <= th
    /\ layer_shapes sample_env sample_app default_banner
       = Ok [RoundedRectangle (64, 324, 1216, 540 - 216 / 4) 40 (255, 56, 56, 224);
             Polygon [(64, 540 - th); (64 + 1152 / 4, 540); (640, 540 - th)]
                     (255, 56, 56, 224);
             Polygon [(1216, 540 - th); (1216 - 1152 / 4, 540); (640, 540 - th)]
                     (255, 56, 56, 224)].
Proof.
  apply (banner_geometry sample_env sample_app default_banner
                         (mkBox 1152 216 640 432) (255, 56, 56, 224)
                         64 324 1216 540);
    [reflexivity | reflexivity | reflexivity | reflexivity | cbn; lia].
Defined.

(** C1 as stated fails on the default banner: the bases of its triangles
    lie at y = 465, above the line y = 486 three quarters down the
    rectangle from y = 324 to y = 540. *)
Lemma banner_counterexample :
  overlay_box sample_app default_banner = Ok (mkBox 1152 216 640 432)
  /\ layer_shapes sample_env sample_app default_banner
     = Ok [RoundedRectangle (64, 324, 1216, 486) 40 (255, 56, 56, 224);
           Polygon [(64, 465); (352, 540); (640, 465)] (255, 56, 56, 224);
           Polygon [(1216, 465); (928, 540); (640, 465)] (255, 56, 56, 224)]
  /\ ~ below_three_quarters
         (mkBox 1152 216 640 432)
         [RoundedRectangle (64, 324, 1216, 486) 40 (255, 56, 56, 224);
          Polygon [(64, 465); (352, 540); (640, 465)] (255, 56, 56, 224);
          Polygon [(1216, 465); (928, 540); (640, 465)] (255, 56, 56, 224)].
Proof.
  split; [reflexivity|]. split; [reflexivity|].
  unfold below_three_quarters. cbn [box_rect box_x box_y box_width box_height].
  intros H.
  specialize (H [(64, 465); (352, 540); (640, 465)] (255, 56, 56, 224) (64, 465)
                (or_intror (or_introl eq_refl)) (or_introl eq_refl)).
  revert H. vm_compute. intros H. apply H. reflexivity.
Qed.

(** ** Diagonal gradient *)

Lemma in_range (n x : Z) : In x (range n) <-> 0 <= x < n.
Proof.
  unfold range. rewrite in_map_iff. split.
  - intros (k & <- & Hk). apply in_seq in Hk. lia.
  - intros Hx. exists (Z.to_nat x). split; [lia|]. apply in_seq. lia.
Qed.

Section DiagonalLoop.

Variable app : Designer.
Variables start end_ : RGBA.

Local Abbreviation paint_row y :=
  (fun img x => color <- diagonal_color app start end_ x y ;;
                Ok (draw_point img x y color)).

Lemma diagonal_row (y : Z) (xs : list Z) :
  forall img img',
    for_each xs img (paint_row y) = Ok img' ->
    forall x' y',
      (y' = y /\ In x' xs ->
       diagonal_color app start end_ x' y' = Ok (getpixel img' x' y'))
      /\ (~ (y' = y /\ In x' xs) -> getpixel img' x' y' = getpixel img x' y').
Proof.
  induction xs as [|x xs IH]; intros img img' Hrun x' y'.
  - injection Hrun as <-. split; [intros [_ []]|reflexivity].
  - cbn [for_each] in Hrun.
    destruct (diagonal_color app start end_ x y) as [c|] eqn:Hc; [|discriminate].
    cbn [bind] in Hrun.
    destruct (IH _ _ Hrun x' y') as [Hin Hout].
    change (getpixel (draw_point img x y c) x' y')
      with (if (x' =? x) && (y' =? y) then c else getpixel img x' y') in Hout.
    destruct (in_dec Z.eq_dec x' xs) as [Hx|Hx].
    + split.
      * intros [Hy _]. apply Hin. split; assumption.
      * intros Hn. assert (Hy : y' <> y).
        { intros ->. apply Hn. split; [reflexivity|right; exact Hx]. }
        rewrite Hout by tauto.
        destruct (Z.eqb_spec y' y) as [|_]; [contradiction|].
        rewrite andb_false_r. reflexivity.
    + rewrite Hout by tauto. split.
      * intros [-> [<-|Hx']]; [|contradiction].
        rewrite !Z.eqb_refl. exact Hc.
      * intros Hn. destruct (Z.eqb_spec x' x) as [->|]; [|reflexivity].
        destruct (Z.eqb_spec y' y) as [->|]; [|reflexivity].
        exfalso. apply Hn. split; [reflexivity|left; reflexivity].
Qed.

Lemma diagonal_rows (xs ys : list Z) :
  forall img img',
    for_each ys img (fun img y => for_each xs img (paint_row y)) = Ok img' ->
    forall x' y',
      (In y' ys /\ In x' xs ->
       diagonal_color app start end_ x' y' = Ok (getpixel img' x' y'))
      /\ (~ (In y' ys /\ In x' xs) -> getpixel img' x' y' = getpixel img x' y').
Proof.
  induction ys as [|y ys IH]; intros img img' Hrun x' y'.
  - injection Hrun as <-. split; [intros [[] _]|reflexivity].
  - cbn [for_each] in Hrun.
    destruct (for_each xs img (paint_row y)) as [img1|] eqn:Hrow; [|discriminate].
    cbn [bind] in Hrun.
    destruct (IH _ _ Hrun x' y') as [Hin Hout].
    destruct (diagonal_row y xs _ _ Hrow x' y') as [Rin Rout].
    destruct (in_dec Z.eq_dec y' ys) as [Hy|Hy];
      destruct (in_dec Z.eq_dec x' xs) as [Hx|Hx].
    + split; [intros _; apply Hin; tauto|]. intros Hn. exfalso. apply Hn.
      split; [right; exact Hy|exact Hx].
    + split; [tauto|]. intros _. rewrite Hout by tauto. apply Rout. tauto.
    + split.
      * intros [[<-|Hy'] _]; [|contradiction].
        rewrite Hout by tauto. apply Rin. tauto.
      * intros Hn. rewrite Hout by tauto. apply Rout. intros [-> _].
        apply Hn. split; [left; reflexivity|exact Hx].
    + split; [tauto|]. intros _. rewrite Hout by tauto. apply Rout. tauto.
Qed.

End DiagonalLoop.

(** The diagonal branch of [_render_gradient_background] gives every pixel
    of the canvas the colour interpolated with the ratio of that pixel. *)
Lemma gradient_pixels_diagonal (env : Env) (app : Designer)
      (start end_ : RGBA) (img : Image) :
  let g := BackgroundSettings.gradient (background app) in
  String.eqb (GradientSettings.direction g) "horizontal" = false ->
  String.eqb (GradientSettings.direction g) "vertical" = false ->
  hex_to_rgba env (GradientSettings.start_color g) 1.0 = Ok start ->
  hex_to_rgba env (GradientSettings.end_color g) 1.0 = Ok end_ ->
  gradient_pixels env app = Ok img ->
  forall x y,
    0 <= x < base_width app -> 0 <= y < base_height app ->
    exists ratio,
      Py.truediv (x + y) (base_width app + base_height app) = Ok ratio
      /\ lerp start end_ ratio = Ok (getpixel img x y).
Proof.
  intros g Hh Hv Hs He. unfold gradient_pixels. fold g.
  rewrite Hs, He, Hh, Hv. cbn [bind]. intros Hrun x y Hx Hy.
  destruct (diagonal_rows app start end_ _ _ _ _ Hrun x y) as [Hin _].
  specialize (Hin (conj (proj2 (in_range _ _) Hy) (proj2 (in_range _ _) Hx))).
  unfold diagonal_color, diagonal_ratio in Hin.
  destruct (Py.truediv _ _) as [ratio|]; [|discriminate].
  exists ratio. split; [reflexivity|exact Hin].
Qed.

Example gradient_pixels_tiny :
  exists img,
    gradient_pixels sample_env tiny_fade_app = Ok img
    /\ getpixel img 0 0 = (255, 255, 255, 255)
    /\ getpixel img 2 1 = (102, 102, 102, 255).
Proof.
  eexists. split; [reflexivity|]. split; reflexivity.
Qed.

Lemma for_each_total {A S : Type} (body : S -> A -> result S) (xs : list A) :
  (forall s x, In x xs -> exists s', body s x = Ok s') ->
  forall s, exists s', for_each xs s body = Ok s'.
Proof.
  induction xs as [|x xs IH]; intros Hbody s; cbn [for_each].
  - exists s. reflexivity.
  - destruct (Hbody s x (or_introl eq_refl)) as (s1 & ->). cbn [bind].
    apply IH. intros s2 y Hy. apply Hbody. right. exact Hy.
Qed.

Lemma fade_colors_checked :
  all_from (fun k =>
              match diagonal_color fade_app (255, 255, 255, 255) (0, 0, 0, 255) k 0
              with
              | Ok _ => true
              | Raise _ => false
              end) (Z.to_nat 1999) 0 = true.
Proof. vm_compute. reflexivity. Qed.

Lemma fade_color (x y : Z) :
  0 <= x < 1280 -> 0 <= y < 720 ->
  exists c,
    diagonal_color fade_app (255, 255, 255, 255) (0, 0, 0, 255) x y = Ok c.
Proof.
  intros Hx Hy.
  pose proof (all_from_spec _ _ _ fade_colors_checked (x + y) ltac:(lia)) as H.
  cbv beta in H. unfold diagonal_color, diagonal_ratio in *.
  rewrite Z.add_0_r in H.
  destruct (bind _ _) as [c|]; [|discriminate].
  exists c. reflexivity.
Qed.

Lemma fade_renders :
  exists img, gradient_pixels sample_env fade_app = Ok img.
Proof.
  unfold gradient_pixels.
  change (hex_to_rgba sample_env
            (GradientSettings.start_color
               (BackgroundSettings.gradient (background fade_app))) 1.0)
    with (Ok (A:=RGBA) (255, 255, 255, 255)).
  change (hex_to_rgba sample_env
            (GradientSettings.end_color
               (BackgroundSettings.gradient (background fade_app))) 1.0)
    with (Ok (A:=RGBA) (0, 0, 0, 255)).
  cbn [bind].
  change (GradientSettings.direction
            (BackgroundSettings.gradient (background fade_app)))
    with "diagonal"%string.
  change ("diagonal" =? "horizontal")%string with false.
  change ("diagonal" =? "vertical")%string with false.
  cbv iota.
  apply for_each_total. intros img y Hy.
  apply for_each_total. intros img' x Hx.
  apply in_range in Hy. apply in_range in Hx.
  destruct (fade_color x y Hx Hy) as (c & ->).
  eexists. reflexivity.
Qed.

Lemma far_corner_ratios_checked :
  all_from (fun n => match Py.truediv (n - 2) n with
                     | Ok r => (r <? 1)%float
                     | Raise _ => false
                     end) (Z.to_nat 4095) 2 = true.
Proof. vm_compute. reflexivity. Qed.

Lemma far_corner_channels_checked :
  all_from (fun s =>
    all_from (fun e =>
      match lerp_channel s e 0.999 with
      | Ok v => if s <? e then (s <=? v) && (v <? e) else (e <=? v) && (v <=? s)
      | Raise _ => false
      end) (Z.to_nat 256) 0) (Z.to_nat 256) 0 = true.
Proof. vm_compute. reflexivity. Qed.

Lemma far_corner_channel (s e : Z) :
  byte s -> byte e -> exists v, lerp_channel s e 0.999 = Ok v /\ short_of s e v.
Proof.
  unfold byte. intros Hs He.
  pose proof (all_from_spec _ _ _ far_corner_channels_checked s ltac:(lia)) as H.
  cbv beta in H.
  pose proof (all_from_spec _ _ _ H e ltac:(lia)) as H'. cbv beta in H'.
  destruct (lerp_channel s e 0.999) as [v|]; [|discriminate].
  exists v. split; [reflexivity|]. unfold short_of.
  destruct (Z.ltb_spec s e); apply andb_prop in H' as [H1 H2]; lia.
Qed.

(** C9 (as amended): the diagonal gradient gives pixel (x, y) the colour
    interpolated with the ratio (x + y) / (W + H).  At the far corner
    (W - 1, H - 1) that ratio is below 1 (for every canvas with
    W + H <= 4096), and on the 1280 x 720 canvas it is 0.999: there a channel
    whose end value is larger than its start value stays strictly below the
    end value, while a channel whose end value is not larger lies between
    the two and may land on the end value. *)
Theorem diagonal_far_corner (env : Env) (app : Designer) :
  (forall start end_ img,
      let g := BackgroundSettings.gradient (background app) in
      String.eqb (GradientSettings.direction g) "horizontal" = false ->
      String.eqb (GradientSettings.direction g) "vertical" = false ->
      hex_to_rgba env (GradientSettings.start_color g) 1.0 = Ok start ->
      hex_to_rgba env (GradientSettings.end_color g) 1.0 = Ok end_ ->
      gradient_pixels env app = Ok img ->
      forall x y,
        0 <= x < base_width app -> 0 <= y < base_height app ->
        exists ratio,
          Py.truediv (x + y) (base_width app + base_height app) = Ok ratio
          /\ lerp start end_ ratio = Ok (getpixel img x y))
  /\ (1 <= base_width app -> 1 <= base_height app ->
      base_width app + base_height app <= 4096 ->
      exists r,
        diagonal_ratio app (base_width app - 1) (base_height app - 1) = Ok r
        /\ (r <? 1)%float = true)
  /\ (base_width app = 1280 -> base_height app = 720 ->
      diagonal_ratio app 1279 719 = Ok 0.999%float
      /\ forall r0 g0 b0 a0 r1 g1 b1 a1,
          byte r0 -> byte g0 -> byte b0 -> byte a0 ->
          byte r1 -> byte g1 -> byte b1 -> byte a1 ->
          exists r g b a,
            diagonal_color app (r0, g0, b0, a0) (r1, g1, b1, a1) 1279 719
            = Ok (r, g, b, a)
            /\ short_of r0 r1 r /\ short_of g0 g1 g
            /\ short_of b0 b1 b /\ short_of a0 a1 a).
Proof.
  split; [|split].
  - intros start end_ img g. apply gradient_pixels_diagonal.
  - intros HW HH Hsum. unfold diagonal_ratio.
    pose proof (all_from_spec _ _ _ far_corner_ratios_checked
                  (base_width app + base_height app) ltac:(lia)) as H.
    cbv beta in H.
    replace (base_width app - 1 + (base_height app - 1))
      with (base_width app + base_height app - 2) by lia.
    destruct (Py.truediv _ _) as [r|]; [|discriminate].
    exists r. split; [reflexivity|exact H].
  - intros HW HH.
    assert (Hr : diagonal_ratio app 1279 719 = Ok 0.999%float).
    { unfold diagonal_ratio. rewrite HW, HH. reflexivity. }
    split; [exact Hr|].
    intros r0 g0 b0 a0 r1 g1 b1 a1 Hr0 Hg0 Hb0 Ha0 Hr1 Hg1 Hb1 Ha1.
    destruct (far_corner_channel r0 r1 Hr0 Hr1) as (r & Er & Sr).
    destruct (far_corner_channel g0 g1 Hg0 Hg1) as (g & Eg & Sg).
    destruct (far_corner_channel b0 b1 Hb0 Hb1) as (b & Eb & Sb).
    destruct (far_corner_channel a0 a1 Ha0 Ha1) as (a & Ea & Sa).
    exists r, g, b, a. unfold diagonal_color. rewrite Hr. cbn [bind].
    unfold lerp. rewrite Er, Eg, Eb, Ea. cbn [bind].
    exact (conj eq_refl (conj Sr (conj Sg (conj Sb Sa)))).
Qed.

Lemma diagonal_far_corner_witness :
  exists r g b a,
    diagonal_color sample_app (255, 56, 56, 255) (255, 207, 0, 255) 1279 719
    = Ok (r, g, b, a)
    /\ short_of 255 255 r /\ short_of 56 207 g
    /\ short_of 56 0 b /\ short_of 255 255 a.
Proof.
  apply (proj2 (proj2 (proj2 (diagonal_far_corner sample_env sample_app)) eq_refl eq_refl));
    unfold byte; lia.
Defined.

(** C9 as stated fails for a gradient from white to black: the render
    succeeds and the far corner of the 1280 x 720 canvas is exactly the end
    colour. *)
Lemma diagonal_far_corner_counterexample :
  hex_to_rgba sample_env "#000000" 1.0 = Ok (0, 0, 0, 255)
  /\ exists img,
      _render_gradient_background sample_env fade_app = Ok img
      /\ getpixel img (base_width fade_app - 1) (base_height fade_app - 1)
         = (0, 0, 0, 255).
Proof.
  split; [reflexivity|].
  destruct fade_renders as (img & Himg).
  exists img. split.
  - unfold _render_gradient_background. rewrite Himg. reflexivity.
  - destruct (gradient_pixels_diagonal sample_env fade_app
                (255, 255, 255, 255) (0, 0, 0, 255) img
                eq_refl eq_refl eq_refl eq_refl Himg 1279 719)
      as (ratio & Hratio & Hlerp).
    + cbn. lia.
    + cbn. lia.
    + change (Py.truediv (1279 + 719) (base_width fade_app + base_height fade_app))
        with (Ok 0.999%float) in Hratio.
      injection Hratio as <-.
      change (lerp (255, 255, 255, 255) (0, 0, 0, 255) 0.999)
        with (Ok (0, 0, 0, 255)) in Hlerp.
      injection Hlerp as Hp.
      change (base_width fade_app - 1) with 1279.
      change (base_height fade_app - 1) with 719.
      symmetry. exact Hp.
Qed.

(** ** Duplicating a layer *)

Lemma create_text_roundtrip (fresh_id : string) (l : TextLayer.t) :
  create_text_layer fresh_id (Some (TextDict.asdict l)) = Ok l.
Proof.
  destruct l as [i lb tx ff fs co al px py mw tr ro [e ox oy br sc so] [sw sc']].
  reflexivity.
Qed.

Lemma create_overlay_roundtrip (fresh_id : string) (l : OverlayLayer.t) :
  create_overlay_layer fresh_id (Some (OverlayDict.asdict l)) = Ok l.
Proof. destruct l. reflexivity. Qed.

Lemma create_image_roundtrip (fresh_id : string) (l : ImageLayer.t) :
  create_image_layer fresh_id (Some (ImageDict.asdict l)) = Ok l.
Proof. destruct l as [i lb [p|] sc ro px py op fh fv sh sb sx sy so]; reflexivity. Qed.

Lemma rerender_scene (env : Env) (app : Designer) :
  text_layers (fst (rerender env app)) = text_layers app
  /\ overlay_layers (fst (rerender env app)) = overlay_layers app
  /\ image_layers (fst (rerender env app)) = image_layers app
  /\ layer_order (fst (rerender env app)) = layer_order app.
Proof.
  unfold rerender. destruct (render_thumbnail env app); repeat split.
Qed.

(** C3 (as amended): duplicating the current text, overlay or image layer
    appends a clone that carries the freshly drawn id, the label of the
    original followed by " (copy)", and every other field of the original
    unchanged; the clone's id differs from the original's whenever the drawn
    id does. *)
Theorem duplicate_copies_fields (env : Env) (new_id fresh_id : string)
        (app : Designer) :
  (forall l,
      _get_current_text app = Some l ->
      let clone :=
        TextLayer.mk new_id (TextLayer.label l ++ " (copy)")%string
                     (TextLayer.text l) (TextLayer.font_file l)
                     (TextLayer.font_size l) (TextLayer.color l)
                     (TextLayer.align l) (TextLayer.position_x l)
                     (TextLayer.position_y l) (TextLayer.max_width l)
                     (TextLayer.tracking l) (TextLayer.rotation l)
                     (TextLayer.shadow l) (TextLayer.stroke l) in
      let app' := fst (_duplicate_text_layer env new_id fresh_id app) in
      clone_text new_id fresh_id l = Ok clone
      /\ text_layers app' = text_layers app ++ [clone]
      /\ layer_order app' = layer_order app ++ [("text"%string, new_id)]
      /\ (new_id <> TextLayer.id l -> TextLayer.id clone <> TextLayer.id l))
  /\ (forall l,
         _get_current_overlay app = Some l ->
         let clone :=
           OverlayLayer.mk new_id (OverlayLayer.label l ++ " (copy)")%string
                           (OverlayLayer.mode l) (OverlayLayer.color l)
                           (OverlayLayer.opacity l) (OverlayLayer.position_x l)
                           (OverlayLayer.position_y l) (OverlayLayer.width l)
                           (OverlayLayer.height l) (OverlayLayer.blur_radius l)
                           (OverlayLayer.rotation l) (OverlayLayer.rounded l) in
         let app' := fst (_duplicate_overlay_layer env new_id fresh_id app) in
         clone_overlay new_id fresh_id l = Ok clone
         /\ overlay_layers app' = overlay_layers app ++ [clone]
         /\ layer_order app' = layer_order app ++ [("overlay"%string, new_id)]
         /\ (new_id <> OverlayLayer.id l -> OverlayLayer.id clone <> OverlayLayer.id l))
  /\ (forall l,
         _get_current_image app = Some l ->
         let clone :=
           ImageLayer.mk new_id (ImageLayer.label l ++ " (copy)")%string
                         (ImageLayer.image_path l) (ImageLayer.scale l)
                         (ImageLayer.rotation l) (ImageLayer.position_x l)
                         (ImageLayer.position_y l) (ImageLayer.opacity l)
                         (ImageLayer.flip_horizontal l) (ImageLayer.flip_vertical l)
                         (ImageLayer.add_shadow l) (ImageLayer.shadow_blur l)
                         (ImageLayer.shadow_offset_x l) (ImageLayer.shadow_offset_y l)
                         (ImageLayer.shadow_opacity l) in
         let app' := fst (_duplicate_image_layer env new_id fresh_id app) in
         clone_image new_id fresh_id l = Ok clone
         /\ image_layers app' = image_layers app ++ [clone]
         /\ layer_order app' = layer_order app ++ [("image"%string, new_id)]
         /\ (new_id <> ImageLayer.id l -> ImageLayer.id clone <> ImageLayer.id l)).
Proof.
  split; [|split].
  - intros l Hcur clone app'.
    assert (Hc : clone_text new_id fresh_id l = Ok clone).
    { unfold clone_text. rewrite create_text_roundtrip. reflexivity. }
    split; [exact Hc|].
    subst app'. unfold _duplicate_text_layer. rewrite Hcur, Hc.
    destruct (rerender_scene env (add_text clone app)) as (Ht & _ & _ & Ho).
    rewrite Ht, Ho. repeat split. intros Hne. exact Hne.
  - intros l Hcur clone app'.
    assert (Hc : clone_overlay new_id fresh_id l = Ok clone).
    { unfold clone_overlay. rewrite create_overlay_roundtrip. reflexivity. }
    split; [exact Hc|].
    subst app'. unfold _duplicate_overlay_layer. rewrite Hcur, Hc.
    destruct (rerender_scene env (add_overlay clone app)) as (_ & Hv & _ & Ho).
    rewrite Hv, Ho. repeat split. intros Hne. exact Hne.
  - intros l Hcur clone app'.
    assert (Hc : clone_image new_id fresh_id l = Ok clone).
    { unfold clone_image. rewrite create_image_roundtrip. reflexivity. }
    split; [exact Hc|].
    subst app'. unfold _duplicate_image_layer. rewrite Hcur, Hc.
    destruct (rerender_scene env (add_image clone app)) as (_ & _ & Hi & Ho).
    rewrite Hi, Ho. repeat split. intros Hne. exact Hne.
Qed.

Lemma duplicate_copies_fields_witness :
  clone_text "t9" "t8" default_headline
  = Ok (TextLayer.mk "t9" "Headline (copy)" (TextLayer.text default_headline)
                     "Montserrat-ExtraBold.ttf" 170 "#ffffff" "center" 0.5 0.35
                     0.9 0 0.0 ShadowSettings.default StrokeSettings.default)
  /\ layer_order (fst (_duplicate_text_layer sample_env "t9" "t8" sample_app))
     = [("text"%string, "t1"%string); ("overlay"%string, "b1"%string);
        ("text"%string, "t9"%string)].
Proof.
  destruct (proj1 (duplicate_copies_fields sample_env "t9" "t8" sample_app)
                  default_headline eq_refl) as (Hc & _ & Ho & _).
  split; [exact Hc|exact Ho].
Defined.

(** C3 as stated fails on the label: the clone of the default headline is
    labelled "Headline (copy)", not "Headline". *)
Lemma duplicate_counterexample :
  exists clone,
    clone_text "t9" "t8" default_headline = Ok clone
    /\ TextLayer.label clone = "Headline (copy)"%string
    /\ TextLayer.label clone <> TextLayer.label default_headline.
Proof.
  eexists. split; [reflexivity|]. split; [reflexivity|]. discriminate.
Qed.

(** ** The compositing loop *)

Lemma for_each_app {A S : Type} (body : S -> A -> result S) (xs ys : list A) :
  forall s,
    for_each (xs ++ ys) s body = (s' <- for_each xs s body ;; for_each ys s' body).
Proof.
  induction xs as [|x xs IH]; intros s; cbn [app for_each bind]; [reflexivity|].
  destruct (body s x) as [s1|e]; cbn [bind]; [apply IH|reflexivity].
Qed.

Lemma for_each_raises {A S : Type} (body : S -> A -> result S) (x : A)
      (xs : list A) :
  In x xs -> (forall s, raises (body s x)) -> forall s, raises (for_each xs s body).
Proof.
  intros Hin Hx. induction xs as [|y ys IH]; [contradiction|].
  intros s. cbn [for_each].
  destruct (body s y) as [s1|e] eqn:E; cbn [bind].
  - destruct Hin as [->|Hin].
    + destruct (Hx s) as (e & He). congruence.
    + apply IH. exact Hin.
  - exists e. reflexivity.
Qed.

Lemma composite_entry_stale (env : Env) (app : Designer) (acc : Image)
      (entry : string * string) :
  stale app entry -> composite_entry env app acc entry = Ok acc.
Proof.
  destruct entry as [layer_type layer_id]. unfold stale, composite_entry.
  intros (Ho & Hi & Ht).
  destruct (String.eqb_spec layer_type "overlay") as [E|_].
  { rewrite (Ho E). reflexivity. }
  destruct (String.eqb_spec layer_type "image") as [E|_].
  { rewrite (Hi E). reflexivity. }
  destruct (String.eqb_spec layer_type "text") as [E|_].
  { rewrite (Ht E). reflexivity. }
  reflexivity.
Qed.

Lemma render_thumbnail_order (env : Env) (app : Designer)
      (order : list (string * string)) :
  render_thumbnail env (set_layer_order order app)
  = (bg <- background_layer env app ;;
     for_each order
              (alpha_composite env (Image_new (canvas_size app) (17, 17, 17, 255)) bg)
              (composite_entry env app)).
Proof. destruct app. reflexivity. Qed.

(** C6: a [LayerOrder] entry that names no layer of its type is skipped:
    its turn of the loop raises nothing and leaves the canvas as it was, so
    the render is the one of the same scene without the entry. *)
Theorem stale_entry_skipped (env : Env) (app : Designer)
        (entry : string * string) :
  stale app entry ->
  (forall acc, composite_entry env app acc entry = Ok acc)
  /\ (forall before after,
         render_thumbnail env (set_layer_order (before ++ entry :: after) app)
         = render_thumbnail env (set_layer_order (before ++ after) app)).
Proof.
  intros Hstale. split.
  - intros acc. apply composite_entry_stale. exact Hstale.
  - intros before after. rewrite !render_thumbnail_order.
    destruct (background_layer env app) as [bg|e]; cbn [bind]; [|reflexivity].
    rewrite !for_each_app.
    destruct (for_each before _ _) as [acc|e]; cbn [bind for_each]; [|reflexivity].
    rewrite (composite_entry_stale env app acc entry Hstale). reflexivity.
Qed.

Lemma stale_entry_skipped_witness :
  render_thumbnail sample_env
    (set_layer_order ([("text"%string, "t1"%string)]
                        ++ ("text"%string, "gone"%string)
                        :: [("overlay"%string, "b1"%string)])
                     sample_app)
  = render_thumbnail sample_env
      (set_layer_order ([("text"%string, "t1"%string)]
                          ++ [("overlay"%string, "b1"%string)])
                       sample_app).
Proof.
  assert (Hs : stale sample_app ("text"%string, "gone"%string)).
  { unfold stale. repeat split; intros E; try discriminate E; reflexivity. }
  exact (proj2 (stale_entry_skipped sample_env sample_app _ Hs) _ _).
Defined.

(** ** Fonts *)

(** C7: a text layer whose font file is not in the fonts directory makes
    [_render_text_layer] raise [FileNotFoundError], and the error reaches
    the caller of [render_thumbnail] for every scene that paints the layer;
    a text layer that does render was set in the font loaded from exactly
    the file it names; and when the existence test itself fails, its error
    aborts the render in the same way. *)
Theorem missing_font_aborts (env : Env) (app : Designer) (layer : TextLayer.t) :
  (path_exists env (fonts_dir_join env (TextLayer.font_file layer)) = Ok false ->
   _render_text_layer env app layer
   = Raise (FileNotFoundError (fonts_dir_join env (TextLayer.font_file layer)))
   /\ (forall layer_id,
          In ("text"%string, layer_id) (layer_order app) ->
          find (fun t => String.eqb (TextLayer.id t) layer_id) (text_layers app)
          = Some layer ->
          raises (render_thumbnail env app)))
  /\ (forall img,
         _render_text_layer env app layer = Ok img ->
         path_exists env (fonts_dir_join env (TextLayer.font_file layer)) = Ok true
         /\ exists font,
             truetype env (fonts_dir_join env (TextLayer.font_file layer))
                      (TextLayer.font_size layer) = Ok font)
  /\ (forall e,
         path_exists env (fonts_dir_join env (TextLayer.font_file layer)) = Raise e ->
         _render_text_layer env app layer = Raise e
         /\ (forall layer_id,
                In ("text"%string, layer_id) (layer_order app) ->
                find (fun t => String.eqb (TextLayer.id t) layer_id) (text_layers app)
                = Some layer ->
                raises (render_thumbnail env app))).
Proof.
  assert (Hall : forall e,
             _render_text_layer env app layer = Raise e ->
             forall layer_id,
               In ("text"%string, layer_id) (layer_order app) ->
               find (fun t => String.eqb (TextLayer.id t) layer_id) (text_layers app)
               = Some layer ->
               raises (render_thumbnail env app)).
  { intros e Hr layer_id Hin Hfind. unfold render_thumbnail.
    destruct (background_layer env app) as [bg|e0]; cbn [bind];
      [|exists e0; reflexivity].
    apply (for_each_raises _ _ _ Hin).
    intros s. unfold composite_entry.
    change ("text" =? "overlay")%string with false.
    change ("text" =? "image")%string with false.
    change ("text" =? "text")%string with true.
    cbv iota. rewrite Hfind, Hr. eexists. reflexivity. }
  split; [|split].
  - intros Hmissing.
    assert (Hr : _render_text_layer env app layer
                 = Raise (FileNotFoundError
                            (fonts_dir_join env (TextLayer.font_file layer)))).
    { unfold _render_text_layer, ensure_font_path. rewrite Hmissing. reflexivity. }
    split; [exact Hr|]. exact (Hall _ Hr).
  - intros img. unfold _render_text_layer, ensure_font_path.
    destruct (path_exists env _) as [[|]|]; cbn [negb bind]; try discriminate.
    destruct (truetype env _ _) as [font|]; [|discriminate].
    intros _. split; [reflexivity|]. exists font. reflexivity.
  - intros e Hfail.
    assert (Hr : _render_text_layer env app layer = Raise e).
    { unfold _render_text_layer, ensure_font_path. rewrite Hfail. reflexivity. }
    split; [exact Hr|]. exact (Hall _ Hr).
Qed.

Lemma missing_font_aborts_witness :
  _render_text_layer sample_env fontless_app fontless_headline
  = Raise (FileNotFoundError "assets/fonts/Missing.ttf")
  /\ raises (render_thumbnail sample_env fontless_app).
Proof.
  destruct (proj1 (missing_font_aborts sample_env fontless_app fontless_headline)
                  eq_refl) as [Hr Hall].
  split; [exact Hr|].
  apply (Hall "t2"%string); [right; left; reflexivity | reflexivity].
Defined.

(** ** Background picture *)

(** Where the code does fall back: when the background picture is absent,
    reported missing by [exists()], or there and not opened ([OSError]),
    [_render_image_background] raises nothing and returns the canvas filled
    with [solid_color], and so does the background of a scene in mode
    "image". *)
Lemma background_falls_back (env : Env) (app : Designer) (c : RGBA) :
  getcolor env (BackgroundSettings.solid_color (background app)) = Ok c ->
  picture_unavailable env app ->
  _render_image_background env app = Ok (Image_new (canvas_size app) c)
  /\ (BackgroundSettings.mode (background app) = "image"%string ->
      background_layer env app = Ok (Image_new (canvas_size app) c))
  /\ (forall x y, getpixel (Image_new (canvas_size app) c) x y = c).
Proof.
  intros Hc Hun.
  assert (H : _render_image_background env app = Ok (Image_new (canvas_size app) c)).
  { unfold _render_image_background, Image_new_named, picture_unavailable in *.
    rewrite Hc. cbn [bind].
    destruct (BackgroundSettings.image_path (background app)) as [p|]; [|reflexivity].
    destruct (String.eqb_spec p "") as [|Hne]; [reflexivity|].
    destruct Hun as [E|[E|(E & e & Eo & He)]]; [contradiction| |];
      rewrite E; cbn [bind negb]; [reflexivity|].
    rewrite Eo, He. reflexivity. }
  split; [exact H|]. split; [|reflexivity].
  intros Hmode. unfold background_layer. rewrite Hmode. exact H.
Qed.

(** Where it does not: the existence test stands before the [try], so an
    error it raises is the error of the background and of the render. *)
Lemma background_exists_error (env : Env) (app : Designer) (c : RGBA)
      (p : string) (e : exn) :
  getcolor env (BackgroundSettings.solid_color (background app)) = Ok c ->
  BackgroundSettings.image_path (background app) = Some p ->
  p <> ""%string ->
  path_exists env p = Raise e ->
  _render_image_background env app = Raise e
  /\ (BackgroundSettings.mode (background app) = "image"%string ->
      render_thumbnail env app = Raise e).
Proof.
  intros Hc Hp Hne He.
  assert (H : _render_image_background env app = Raise e).
  { unfold _render_image_background, Image_new_named. rewrite Hc, Hp. cbn [bind].
    destruct (String.eqb_spec p "") as [|_]; [contradiction|].
    rewrite He. reflexivity. }
  split; [exact H|].
  intros Hmode. unfold render_thumbnail, background_layer. rewrite Hmode, H.
  reflexivity.
Qed.

(** C8 fails on the code: the background picture of this scene is not on
    disk, its name being longer than the file system allows, and the
    existence test raises the [OSError] of [stat] before the [try] that
    would have caught it: the background renderer and the render raise,
    where a missing file with a short name, or a file that is there and
    does not open, gives the canvas filled with [solid_color]. *)
Theorem background_exists_raises :
  String.length long_name = 300%nat
  /\ path_exists strict_env long_name = Raise OSError
  /\ _render_image_background strict_env long_photo_app = Raise OSError
  /\ render_thumbnail strict_env long_photo_app = Raise OSError
  /\ _render_image_background strict_env photo_app
     = Ok (Image_new (1280, 720) (32, 32, 32, 255))
  /\ _render_image_background strict_env broken_photo_app
     = Ok (Image_new (1280, 720) (32, 32, 32, 255)).
Proof.
  assert (Hlong : path_exists strict_env long_name = Raise OSError)
    by (vm_compute; reflexivity).
  split; [vm_compute; reflexivity|]. split; [exact Hlong|].
  destruct (background_exists_error strict_env long_photo_app (32, 32, 32, 255)
              long_name OSError eq_refl eq_refl) as [Hb Hr];
    [discriminate|exact Hlong|].
  split; [exact Hb|]. split; [exact (Hr eq_refl)|].
  split.
  - apply (proj1 (background_falls_back strict_env photo_app (32, 32, 32, 255)
                    eq_refl (or_intror (or_introl eq_refl)))).
  - apply (proj1 (background_falls_back strict_env broken_photo_app
                    (32, 32, 32, 255) eq_refl
                    (or_intror (or_intror
                       (conj eq_refl
                             (ex_intro _ OSError (conj eq_refl eq_refl))))))).
Qed.

(** ** Python lists *)

Lemma entry_eqb_eq (a b : string * string) : entry_eqb a b = true <-> a = b.
Proof.
  destruct a as [a1 a2], b as [b1 b2]. unfold entry_eqb. cbn [fst snd].
  rewrite andb_true_iff, !String.eqb_eq. split.
  - intros [-> ->]. reflexivity.
  - intros [= -> ->]. split; reflexivity.
Qed.

Lemma order_without_in (entry e : string * string)
      (order : list (string * string)) :
  In e (order_without entry order) <-> In e order /\ e <> entry.
Proof.
  unfold order_without. rewrite filter_In, negb_true_iff.
  split; intros [Hin H]; (split; [exact Hin|]).
  - intros ->. rewrite (proj2 (entry_eqb_eq entry entry) eq_refl) in H. discriminate.
  - destruct (entry_eqb e entry) eqn:E; [|reflexivity].
    apply entry_eqb_eq in E. contradiction.
Qed.

Lemma pop_some {A : Type} (l : list A) (i : nat) :
  (i < List.length l)%nat -> exists x, PyList.pop l i = Some (x, firstn i l ++ skipn (S i) l).
Proof.
  intros Hi. unfold PyList.pop.
  destruct (nth_error l i) as [x|] eqn:E.
  - exists x. reflexivity.
  - apply nth_error_None in E. lia.
Qed.

Lemma pop_none {A : Type} (l : list A) (i : nat) :
  (List.length l <= i)%nat -> PyList.pop l i = None.
Proof.
  intros Hi. unfold PyList.pop.
  rewrite (proj2 (nth_error_None l i) Hi). reflexivity.
Qed.

Lemma pop_inv {A : Type} (l : list A) (i : nat) (x : A) (rest : list A) :
  PyList.pop l i = Some (x, rest) ->
  nth_error l i = Some x /\ rest = firstn i l ++ skipn (S i) l
  /\ l = firstn i l ++ x :: skipn (S i) l
  /\ (i < List.length l)%nat /\ S (List.length rest) = List.length l.
Proof.
  unfold PyList.pop. destruct (nth_error l i) as [y|] eqn:E; [|discriminate].
  intros H. injection H as -> <-.
  assert (Hi : (i < List.length l)%nat) by (apply nth_error_Some; congruence).
  assert (Hl : l = firstn i l ++ x :: skipn (S i) l).
  { clear Hi. revert i E. induction l as [|a l IH]; intros [|i] E;
      try discriminate.
    - injection E as ->. reflexivity.
    - cbn [firstn skipn app]. f_equal. apply IH. exact E. }
  split; [reflexivity|]. split; [reflexivity|]. split; [exact Hl|].
  split; [exact Hi|].
  change (S (List.length (firstn i l ++ skipn (S i) l)) = List.length l).
  rewrite length_app, length_firstn, length_skipn. lia.
Qed.

Lemma item_nonneg {A : Type} (l : list A) (i : nat) :
  (i < List.length l)%nat -> PyList.item l (Z.of_nat i) = nth_error l i.
Proof.
  intros Hi. unfold PyList.item.
  destruct (Z.leb_spec 0 (Z.of_nat i)); [|lia].
  destruct (Z.ltb_spec (Z.of_nat i) (Z.of_nat (List.length l))); [|lia].
  cbn [andb]. rewrite Nat2Z.id. reflexivity.
Qed.

Lemma item_minus_one {A : Type} (l : list A) (d : A) :
  l <> [] -> PyList.item l (-1) = Some (last l d).
Proof.
  intros Hne. unfold PyList.item.
  assert (Hn : (0 < List.length l)%nat) by (destruct l; [contradiction|cbn; lia]).
  destruct (Z.leb_spec 0 (-1)); [lia|]. cbn [andb].
  destruct (Z.leb_spec (- Z.of_nat (List.length l)) (-1)); [|lia].
  destruct (Z.ltb_spec (-1) 0); [|lia]. cbn [andb].
  replace (Z.to_nat (Z.of_nat (List.length l) + -1)) with (List.length l - 1)%nat by lia.
  clear -Hne. induction l as [|a l IH]; [contradiction|].
  destruct l as [|b l']; [reflexivity|].
  cbn [List.length last]. replace (S (S (List.length l')) - 1)%nat with (S (List.length (b :: l') - 1)) by (cbn; lia).
  cbn [nth_error]. apply IH. discriminate.
Qed.

Lemma last_indep {A : Type} (l : list A) (d d' : A) :
  l <> [] -> last l d = last l d'.
Proof.
  induction l as [|a l IH]; intros Hne; [contradiction|].
  destruct l as [|b l']; [reflexivity|].
  cbn [last] in *. apply IH. discriminate.
Qed.

Lemma find_app_last {A : Type} (p : A -> bool) (l : list A) (x : A) :
  is_some (find p (l ++ [x])) = is_some (find p l) || p x.
Proof.
  induction l as [|y l IH]; cbn [find app].
  - destruct (p x); reflexivity.
  - destruct (p y); [reflexivity|exact IH].
Qed.

Lemma find_pop {A : Type} (p : A -> bool) (l : list A) (i : nat) (x y : A) :
  find p l = Some y -> nth_error l i = Some x -> p x = false ->
  find p (firstn i l ++ skipn (S i) l) = Some y.
Proof.
  revert i. induction l as [|a l IH]; intros i Hf Hn Hx; [discriminate|].
  destruct i as [|i].
  - injection Hn as ->. cbn [find] in Hf. rewrite Hx in Hf. exact Hf.
  - cbn [firstn skipn app find] in *. destruct (p a); [exact Hf|].
    apply (IH i Hf Hn Hx).
Qed.

(** ** The state after an editor command *)

Lemma rerender_keeps (env : Env) (app : Designer) :
  base_width (fst (rerender env app)) = base_width app
  /\ base_height (fst (rerender env app)) = base_height app
  /\ background (fst (rerender env app)) = background app
  /\ current_text_id (fst (rerender env app)) = current_text_id app
  /\ current_image_id (fst (rerender env app)) = current_image_id app
  /\ current_overlay_id (fst (rerender env app)) = current_overlay_id app.
Proof.
  unfold rerender. destruct (render_thumbnail env app); repeat split.
Qed.

Lemma rerender_resolves (env : Env) (app : Designer) (entry : string * string) :
  resolves (fst (rerender env app)) entry = resolves app entry.
Proof.
  destruct (rerender_scene env app) as (Ht & Ho & Hi & _).
  unfold resolves. rewrite Ht, Ho, Hi. reflexivity.
Qed.

Lemma rerender_well_referenced (env : Env) (app : Designer) :
  well_referenced app -> well_referenced (fst (rerender env app)).
Proof.
  intros H entry Hin. rewrite rerender_resolves. apply H.
  destruct (rerender_scene env app) as (_ & _ & _ & Ho).
  rewrite Ho in Hin. exact Hin.
Qed.

(** ** Removing a layer *)

(** The id [_remove_text_layer] selects afterwards: [text_layers[idx - 1]],
    which for [idx = 0] is the last layer left. *)
Lemma remove_text_result (env : Env) (idx : nat) (app : Designer) :
  (idx < List.length (text_layers app))%nat ->
  exists layer cur,
    nth_error (text_layers app) idx = Some layer
    /\ let rest := firstn idx (text_layers app) ++ skipn (S idx) (text_layers app) in
       _remove_text_layer env (Some idx) app
       = Some (rerender env
                 (set_text_scene rest
                    (order_without ("text"%string, TextLayer.id layer)
                                   (layer_order app)) cur app))
       /\ cur = match rest with
                | [] => None
                | _ :: _ =>
                    if (idx =? 0)%nat then Some (TextLayer.id (last rest layer))
                    else option_map TextLayer.id (nth_error rest (idx - 1))
                end.
Proof.
  intros Hi. destruct (pop_some (text_layers app) idx Hi) as (layer & Hpop).
  destruct (pop_inv _ _ _ _ Hpop) as (Hn & _ & _ & _ & Hlen).
  unfold _remove_text_layer. rewrite Hpop.
  set (rest := firstn idx (text_layers app) ++ skipn (S idx) (text_layers app)) in *.
  exists layer.
  destruct rest as [|r0 rest'] eqn:Er.
  { exists None. split; [exact Hn|]. split; reflexivity. }
  destruct idx as [|k].
  - change (Z.of_nat 0 - 1) with (-1).
    rewrite (item_minus_one (r0 :: rest') layer) by discriminate.
    eexists. split; [exact Hn|]. split; reflexivity.
  - replace (Z.of_nat (S k) - 1) with (Z.of_nat k) by lia.
    assert (Hk : (k < List.length (r0 :: rest'))%nat) by lia.
    rewrite (item_nonneg _ _ Hk).
    destruct (nth_error (r0 :: rest') k) as [l|] eqn:El.
    + eexists. split; [exact Hn|]. split; [reflexivity|].
      cbn [Nat.eqb]. replace (S k - 1)%nat with k by lia. rewrite El. reflexivity.
    + apply nth_error_None in El. lia.
Qed.

(** X1: [_remove_text_layer] with nothing selected changes nothing; with an
    index past the end it raises before changing anything; with an index in
    range it drops exactly that layer from [text_layers], drops every
    [("text", id)] entry of the removed layer from the layer order, keeps
    every other entry in its place and leaves the other collections alone. *)
Theorem remove_text_layer_spec (env : Env) (app : Designer) :
  _remove_text_layer env None app = Some (app, Ok tt)
  /\ (forall idx,
         (List.length (text_layers app) <= idx)%nat ->
         _remove_text_layer env (Some idx) app = None)
  /\ (forall idx,
         (idx < List.length (text_layers app))%nat ->
         exists layer out,
           nth_error (text_layers app) idx = Some layer
           /\ _remove_text_layer env (Some idx) app = Some out
           /\ text_layers (fst out)
              = firstn idx (text_layers app) ++ skipn (S idx) (text_layers app)
           /\ layer_order (fst out)
              = order_without ("text"%string, TextLayer.id layer) (layer_order app)
           /\ ~ In ("text"%string, TextLayer.id layer) (layer_order (fst out))
           /\ (forall e, In e (layer_order app) ->
                         e <> ("text"%string, TextLayer.id layer) ->
                         In e (layer_order (fst out)))
           /\ overlay_layers (fst out) = overlay_layers app
           /\ image_layers (fst out) = image_layers app).
Proof.
  split; [reflexivity|]. split.
  - intros idx Hi. unfold _remove_text_layer. rewrite (pop_none _ _ Hi). reflexivity.
  - intros idx Hi.
    destruct (remove_text_result env idx app Hi) as (layer & cur & Hn & Hr & _).
    exists layer. eexists. split; [exact Hn|]. split; [exact Hr|].
    cbn [fst].
    destruct (rerender_scene env
                (set_text_scene
                   (firstn idx (text_layers app) ++ skipn (S idx) (text_layers app))
                   (order_without ("text"%string, TextLayer.id layer) (layer_order app))
                   cur app)) as (Ht & Ho & Him & Hord).
    rewrite Ht, Ho, Him, Hord. cbn [text_layers overlay_layers image_layers
                                       layer_order set_text_scene].
    repeat split.
    + intros Hin. apply order_without_in in Hin. destruct Hin as [_ Hne].
      apply Hne. reflexivity.
    + intros e Hin Hne. apply order_without_in. split; assumption.
Qed.

Lemma remove_text_layer_spec_witness :
  exists out,
    _remove_text_layer sample_env (Some 0%nat) sample_app = Some out
    /\ text_layers (fst out) = []
    /\ layer_order (fst out) = [("overlay"%string, "b1"%string)].
Proof.
  destruct (proj2 (proj2 (remove_text_layer_spec sample_env sample_app)) 0%nat)
    as (layer & out & Hn & Hr & Ht & Ho & _).
  - cbn. lia.
  - injection Hn as <-. exists out. split; [exact Hr|].
    split; [exact Ht|exact Ho].
Defined.

Lemma remove_overlay_result (env : Env) (idx : nat) (app : Designer) :
  (idx < List.length (overlay_layers app))%nat ->
  exists layer cur,
    nth_error (overlay_layers app) idx = Some layer
    /\ let rest :=
         firstn idx (overlay_layers app) ++ skipn (S idx) (overlay_layers app) in
       _remove_overlay_layer env (Some idx) app
       = Some (rerender env
                 (set_overlay_scene rest
                    (order_without ("overlay"%string, OverlayLayer.id layer)
                                   (layer_order app)) cur app))
       /\ cur = option_map OverlayLayer.id (nth_error rest (idx - 1)).
Proof.
  intros Hi. destruct (pop_some (overlay_layers app) idx Hi) as (layer & Hpop).
  destruct (pop_inv _ _ _ _ Hpop) as (Hn & _ & _ & _ & Hlen).
  unfold _remove_overlay_layer. rewrite Hpop.
  set (rest := firstn idx (overlay_layers app) ++ skipn (S idx) (overlay_layers app))
    in *.
  exists layer.
  destruct rest as [|r0 rest'] eqn:Er.
  { exists None. split; [exact Hn|]. split; [reflexivity|].
    destruct (idx - 1)%nat; reflexivity. }
  assert (Hz : Z.max 0 (Z.of_nat idx - 1) = Z.of_nat (idx - 1)) by (clear; lia).
  rewrite Hz.
  assert (Hk : (idx - 1 < List.length (r0 :: rest'))%nat)
    by (cbn [List.length] in *; lia).
  rewrite (item_nonneg _ _ Hk).
  destruct (nth_error (r0 :: rest') (idx - 1)) as [l|] eqn:El.
  - eexists. split; [exact Hn|]. split; reflexivity.
  - apply nth_error_None in El. lia.
Qed.

Lemma remove_image_result (env : Env) (idx : nat) (app : Designer) :
  (idx < List.length (image_layers app))%nat ->
  exists layer cur,
    nth_error (image_layers app) idx = Some layer
    /\ let rest := firstn idx (image_layers app) ++ skipn (S idx) (image_layers app) in
       _remove_image_layer env (Some idx) app
       = Some (rerender env
                 (set_image_scene rest
                    (order_without ("image"%string, ImageLayer.id layer)
                                   (layer_order app)) cur app))
       /\ cur = option_map ImageLayer.id (nth_error rest (idx - 1)).
Proof.
  intros Hi. destruct (pop_some (image_layers app) idx Hi) as (layer & Hpop).
  destruct (pop_inv _ _ _ _ Hpop) as (Hn & _ & _ & _ & Hlen).
  unfold _remove_image_layer. rewrite Hpop.
  set (rest := firstn idx (image_layers app) ++ skipn (S idx) (image_layers app)) in *.
  exists layer.
  destruct rest as [|r0 rest'] eqn:Er.
  { exists None. split; [exact Hn|]. split; [reflexivity|].
    destruct (idx - 1)%nat; reflexivity. }
  assert (Hz : Z.max 0 (Z.of_nat idx - 1) = Z.of_nat (idx - 1)) by (clear; lia).
  rewrite Hz.
  assert (Hk : (idx - 1 < List.length (r0 :: rest'))%nat)
    by (cbn [List.length] in *; lia).
  rewrite (item_nonneg _ _ Hk).
  destruct (nth_error (r0 :: rest') (idx - 1)) as [l|] eqn:El.
  - eexists. split; [exact Hn|]. split; reflexivity.
  - apply nth_error_None in El. lia.
Qed.

(** X2: after a removal [_remove_text_layer] selects the layer before the
    removed one, and for the first layer ([idx = 0]) the index [-1], that is
    the last layer left; [_remove_overlay_layer] and [_remove_image_layer]
    select the layer before the removed one too, but for [idx = 0] the first
    layer left. *)
Theorem selection_after_removal (env : Env) (app : Designer) (idx : nat) :
  (forall out,
      _remove_text_layer env (Some idx) app = Some out ->
      current_text_id (fst out)
      = match text_layers (fst out) with
        | [] => None
        | first :: _ =>
            if (idx =? 0)%nat
            then Some (TextLayer.id (last (text_layers (fst out)) first))
            else option_map TextLayer.id (nth_error (text_layers (fst out)) (idx - 1))
        end)
  /\ (forall out,
         _remove_overlay_layer env (Some idx) app = Some out ->
         current_overlay_id (fst out)
         = if (idx =? 0)%nat
           then option_map OverlayLayer.id (hd_error (overlay_layers (fst out)))
           else option_map OverlayLayer.id
                           (nth_error (overlay_layers (fst out)) (idx - 1)))
  /\ (forall out,
         _remove_image_layer env (Some idx) app = Some out ->
         current_image_id (fst out)
         = if (idx =? 0)%nat
           then option_map ImageLayer.id (hd_error (image_layers (fst out)))
           else option_map ImageLayer.id
                           (nth_error (image_layers (fst out)) (idx - 1))).
Proof.
  split; [|split]; intros out Hout.
  - destruct (Nat.lt_ge_cases idx (List.length (text_layers app))) as [Hi|Hi].
    2:{ unfold _remove_text_layer in Hout. rewrite (pop_none _ _ Hi) in Hout.
        discriminate. }
    destruct (remove_text_result env idx app Hi) as (layer & cur & _ & Hr & Hcur).
    cbv zeta in Hr, Hcur. rewrite Hr in Hout.
    apply (f_equal (fun o => match o with Some x => x | None => out end)) in Hout.
    cbv beta iota in Hout. subst out.
    destruct (rerender_keeps env
                (set_text_scene
                   (firstn idx (text_layers app) ++ skipn (S idx) (text_layers app))
                   (order_without ("text"%string, TextLayer.id layer) (layer_order app))
                   cur app)) as (_ & _ & _ & Hc & _).
    destruct (rerender_scene env
                (set_text_scene
                   (firstn idx (text_layers app) ++ skipn (S idx) (text_layers app))
                   (order_without ("text"%string, TextLayer.id layer) (layer_order app))
                   cur app)) as (Ht & _).
    rewrite Hc, Ht. cbn [current_text_id text_layers set_text_scene].
    rewrite Hcur.
    destruct (firstn idx (text_layers app) ++ skipn (S idx) (text_layers app))
      as [|r0 rest'] eqn:Er; [reflexivity|].
    destruct (idx =? 0)%nat; [|reflexivity].
    f_equal. f_equal. apply last_indep. discriminate.
  - destruct (Nat.lt_ge_cases idx (List.length (overlay_layers app))) as [Hi|Hi].
    2:{ unfold _remove_overlay_layer in Hout. rewrite (pop_none _ _ Hi) in Hout.
        discriminate. }
    destruct (remove_overlay_result env idx app Hi) as (layer & cur & _ & Hr & Hcur).
    cbv zeta in Hr, Hcur. rewrite Hr in Hout.
    apply (f_equal (fun o => match o with Some x => x | None => out end)) in Hout.
    cbv beta iota in Hout. subst out.
    destruct (rerender_keeps env
                (set_overlay_scene
                   (firstn idx (overlay_layers app) ++ skipn (S idx) (overlay_layers app))
                   (order_without ("overlay"%string, OverlayLayer.id layer)
                                  (layer_order app))
                   cur app)) as (_ & _ & _ & _ & _ & Hc).
    destruct (rerender_scene env
                (set_overlay_scene
                   (firstn idx (overlay_layers app) ++ skipn (S idx) (overlay_layers app))
                   (order_without ("overlay"%string, OverlayLayer.id layer)
                                  (layer_order app))
                   cur app)) as (_ & Ho & _).
    rewrite Hc, Ho. cbn [current_overlay_id overlay_layers set_overlay_scene].
    rewrite Hcur. destruct idx as [|k]; [|reflexivity].
    cbn [Nat.eqb Nat.sub].
    destruct (firstn 0 (overlay_layers app) ++ skipn 1 (overlay_layers app));
      reflexivity.
  - destruct (Nat.lt_ge_cases idx (List.length (image_layers app))) as [Hi|Hi].
    2:{ unfold _remove_image_layer in Hout. rewrite (pop_none _ _ Hi) in Hout.
        discriminate. }
    destruct (remove_image_result env idx app Hi) as (layer & cur & _ & Hr & Hcur).
    cbv zeta in Hr, Hcur. rewrite Hr in Hout.
    apply (f_equal (fun o => match o with Some x => x | None => out end)) in Hout.
    cbv beta iota in Hout. subst out.
    destruct (rerender_keeps env
                (set_image_scene
                   (firstn idx (image_layers app) ++ skipn (S idx) (image_layers app))
                   (order_without ("image"%string, ImageLayer.id layer)
                                  (layer_order app))
                   cur app)) as (_ & _ & _ & _ & Hc & _).
    destruct (rerender_scene env
                (set_image_scene
                   (firstn idx (image_layers app) ++ skipn (S idx) (image_layers app))
                   (order_without ("image"%string, ImageLayer.id layer)
                                  (layer_order app))
                   cur app)) as (_ & _ & Him & _).
    rewrite Hc, Him. cbn [current_image_id image_layers set_image_scene].
    rewrite Hcur. destruct idx as [|k]; [|reflexivity].
    cbn [Nat.eqb Nat.sub].
    destruct (firstn 0 (image_layers app) ++ skipn 1 (image_layers app));
      reflexivity.
Qed.

Lemma selection_after_removal_witness :
  exists out,
    _remove_text_layer sample_env (Some 0%nat) three_texts_app = Some out
    /\ current_text_id (fst out) = Some "t3"%string.
Proof.
  destruct (remove_text_result sample_env 0 three_texts_app) as (l & c & _ & Hr & _).
  - cbn. lia.
  - eexists. split; [exact Hr|].
    rewrite (proj1 (selection_after_removal sample_env three_texts_app 0) _ Hr).
    destruct (rerender_scene sample_env
                (set_text_scene
                   (firstn 0 (text_layers three_texts_app)
                      ++ skipn 1 (text_layers three_texts_app))
                   (order_without ("text"%string, TextLayer.id l)
                                  (layer_order three_texts_app)) c three_texts_app))
      as (Ht & _).
    rewrite Ht. reflexivity.
Defined.

(** ** The layer order stays free of stale entries *)

Lemma removal_keeps_resolved_text (app : Designer) (idx : nat) (layer : TextLayer.t)
      (order : list (string * string)) (cur : option string)
      (entry : string * string) :
  nth_error (text_layers app) idx = Some layer ->
  entry <> ("text"%string, TextLayer.id layer) ->
  resolves app entry = true ->
  resolves (set_text_scene
              (firstn idx (text_layers app) ++ skipn (S idx) (text_layers app))
              order cur app) entry = true.
Proof.
  intros Hn Hne. destruct entry as [ty i]. unfold resolves.
  cbn [text_layers overlay_layers image_layers set_text_scene].
  destruct (String.eqb_spec ty "text") as [->|]; [|trivial].
  destruct (find _ (text_layers app)) as [l|] eqn:E; [|discriminate].
  intros _. rewrite (find_pop _ _ idx layer l E Hn); [reflexivity|].
  destruct (String.eqb_spec (TextLayer.id layer) i) as [<-|]; [|reflexivity].
  contradiction Hne. reflexivity.
Qed.

Lemma removal_keeps_resolved_overlay (app : Designer) (idx : nat)
      (layer : OverlayLayer.t) (order : list (string * string))
      (cur : option string) (entry : string * string) :
  nth_error (overlay_layers app) idx = Some layer ->
  entry <> ("overlay"%string, OverlayLayer.id layer) ->
  resolves app entry = true ->
  resolves (set_overlay_scene
              (firstn idx (overlay_layers app) ++ skipn (S idx) (overlay_layers app))
              order cur app) entry = true.
Proof.
  intros Hn Hne. destruct entry as [ty i]. unfold resolves.
  cbn [text_layers overlay_layers image_layers set_overlay_scene].
  destruct (String.eqb_spec ty "text") as [->|]; [trivial|].
  destruct (String.eqb_spec ty "overlay") as [->|]; [|trivial].
  destruct (find _ (overlay_layers app)) as [l|] eqn:E; [|discriminate].
  intros _. rewrite (find_pop _ _ idx layer l E Hn); [reflexivity|].
  destruct (String.eqb_spec (OverlayLayer.id layer) i) as [<-|]; [|reflexivity].
  contradiction Hne. reflexivity.
Qed.

Lemma removal_keeps_resolved_image (app : Designer) (idx : nat)
      (layer : ImageLayer.t) (order : list (string * string))
      (cur : option string) (entry : string * string) :
  nth_error (image_layers app) idx = Some layer ->
  entry <> ("image"%string, ImageLayer.id layer) ->
  resolves app entry = true ->
  resolves (set_image_scene
              (firstn idx (image_layers app) ++ skipn (S idx) (image_layers app))
              order cur app) entry = true.
Proof.
  intros Hn Hne. destruct entry as [ty i]. unfold resolves.
  cbn [text_layers overlay_layers image_layers set_image_scene].
  destruct (String.eqb_spec ty "text") as [->|]; [trivial|].
  destruct (String.eqb_spec ty "overlay") as [->|]; [trivial|].
  destruct (String.eqb_spec ty "image") as [->|]; [|trivial].
  destruct (find _ (image_layers app)) as [l|] eqn:E; [|discriminate].
  intros _. rewrite (find_pop _ _ idx layer l E Hn); [reflexivity|].
  destruct (String.eqb_spec (ImageLayer.id layer) i) as [<-|]; [|reflexivity].
  contradiction Hne. reflexivity.
Qed.

(** X3: removing a layer never leaves a stale entry behind: in a scene whose
    layer order names only existing layers, the order after
    [_remove_text_layer], [_remove_overlay_layer] or [_remove_image_layer]
    names only existing layers too. *)
Theorem removal_keeps_references (env : Env) (app : Designer)
        (idx : option nat) :
  well_referenced app ->
  (forall out, _remove_text_layer env idx app = Some out -> well_referenced (fst out))
  /\ (forall out,
         _remove_overlay_layer env idx app = Some out -> well_referenced (fst out))
  /\ (forall out,
         _remove_image_layer env idx app = Some out -> well_referenced (fst out)).
Proof.
  intros Hwr. destruct idx as [idx|].
  2:{ repeat split; intros out [= <-]; exact Hwr. }
  split; [|split]; intros out Hout.
  - destruct (Nat.lt_ge_cases idx (List.length (text_layers app))) as [Hi|Hi].
    2:{ unfold _remove_text_layer in Hout. rewrite (pop_none _ _ Hi) in Hout.
        discriminate. }
    destruct (remove_text_result env idx app Hi) as (layer & cur & Hn & Hr & _).
    cbv zeta in Hr. rewrite Hr in Hout.
    apply (f_equal (fun o => match o with Some x => x | None => out end)) in Hout.
    cbv beta iota in Hout. subst out.
    apply rerender_well_referenced. intros entry Hin.
    cbn [layer_order set_text_scene] in Hin.
    apply order_without_in in Hin. destruct Hin as [Hin Hne].
    apply (removal_keeps_resolved_text app idx layer _ _ entry Hn Hne (Hwr entry Hin)).
  - destruct (Nat.lt_ge_cases idx (List.length (overlay_layers app))) as [Hi|Hi].
    2:{ unfold _remove_overlay_layer in Hout. rewrite (pop_none _ _ Hi) in Hout.
        discriminate. }
    destruct (remove_overlay_result env idx app Hi) as (layer & cur & Hn & Hr & _).
    cbv zeta in Hr. rewrite Hr in Hout.
    apply (f_equal (fun o => match o with Some x => x | None => out end)) in Hout.
    cbv beta iota in Hout. subst out.
    apply rerender_well_referenced. intros entry Hin.
    cbn [layer_order set_overlay_scene] in Hin.
    apply order_without_in in Hin. destruct Hin as [Hin Hne].
    apply (removal_keeps_resolved_overlay app idx layer _ _ entry Hn Hne
                                          (Hwr entry Hin)).
  - destruct (Nat.lt_ge_cases idx (List.length (image_layers app))) as [Hi|Hi].
    2:{ unfold _remove_image_layer in Hout. rewrite (pop_none _ _ Hi) in Hout.
        discriminate. }
    destruct (remove_image_result env idx app Hi) as (layer & cur & Hn & Hr & _).
    cbv zeta in Hr. rewrite Hr in Hout.
    apply (f_equal (fun o => match o with Some x => x | None => out end)) in Hout.
    cbv beta iota in Hout. subst out.
    apply rerender_well_referenced. intros entry Hin.
    cbn [layer_order set_image_scene] in Hin.
    apply order_without_in in Hin. destruct Hin as [Hin Hne].
    apply (removal_keeps_resolved_image app idx layer _ _ entry Hn Hne
                                        (Hwr entry Hin)).
Qed.

Lemma three_texts_referenced : well_referenced three_texts_app.
Proof.
  intros entry [<-|[<-|[<-|[<-|[]]]]]; reflexivity.
Qed.

Lemma removal_keeps_references_witness :
  exists out,
    _remove_text_layer sample_env (Some 1%nat) three_texts_app = Some out
    /\ well_referenced (fst out).
Proof.
  destruct (remove_text_result sample_env 1 three_texts_app) as (l & c & _ & Hr & _).
  - cbn. lia.
  - eexists. split; [exact Hr|].
    apply (proj1 (removal_keeps_references sample_env three_texts_app (Some 1%nat)
                    three_texts_referenced) _ Hr).
Defined.

Lemma add_text_well_referenced (layer : TextLayer.t) (app : Designer) :
  well_referenced app -> well_referenced (add_text layer app).
Proof.
  intros Hwr [ty i] Hin. cbn [layer_order add_text] in Hin.
  apply in_app_or in Hin. destruct Hin as [Hin|[[= <- <-]|[]]].
  - specialize (Hwr _ Hin). revert Hwr. unfold resolves.
    cbn [text_layers overlay_layers image_layers add_text].
    destruct (String.eqb ty "text"); [|trivial].
    rewrite find_app_last. intros ->. reflexivity.
  - unfold resolves. cbn [text_layers add_text].
    change ("text" =? "text")%string with true. cbv iota.
    rewrite find_app_last, String.eqb_refl. apply orb_true_r.
Qed.

Lemma add_overlay_well_referenced (layer : OverlayLayer.t) (app : Designer) :
  well_referenced app -> well_referenced (add_overlay layer app).
Proof.
  intros Hwr [ty i] Hin. cbn [layer_order add_overlay] in Hin.
  apply in_app_or in Hin. destruct Hin as [Hin|[[= <- <-]|[]]].
  - specialize (Hwr _ Hin). revert Hwr. unfold resolves.
    cbn [text_layers overlay_layers image_layers add_overlay].
    destruct (String.eqb ty "text"); [trivial|].
    destruct (String.eqb ty "overlay"); [|trivial].
    rewrite find_app_last. intros ->. reflexivity.
  - unfold resolves. cbn [overlay_layers add_overlay].
    change ("overlay" =? "text")%string with false.
    change ("overlay" =? "overlay")%string with true. cbv iota.
    rewrite find_app_last, String.eqb_refl. apply orb_true_r.
Qed.

Lemma add_image_well_referenced (layer : ImageLayer.t) (app : Designer) :
  well_referenced app -> well_referenced (add_image layer app).
Proof.
  intros Hwr [ty i] Hin. cbn [layer_order add_image] in Hin.
  apply in_app_or in Hin. destruct Hin as [Hin|[[= <- <-]|[]]].
  - specialize (Hwr _ Hin). revert Hwr. unfold resolves.
    cbn [text_layers overlay_layers image_layers add_image].
    destruct (String.eqb ty "text"); [trivial|].
    destruct (String.eqb ty "overlay"); [trivial|].
    destruct (String.eqb ty "image"); [|trivial].
    rewrite find_app_last. intros ->. reflexivity.
  - unfold resolves. cbn [image_layers add_image].
    change ("image" =? "text")%string with false.
    change ("image" =? "overlay")%string with false.
    change ("image" =? "image")%string with true. cbv iota.
    rewrite find_app_last, String.eqb_refl. apply orb_true_r.
Qed.

Lemma add_text_created (fresh_id label : string) :
  create_text_layer fresh_id (Some [("label"%string, VStr label)])
  = Ok (TextLayer.set_label label (TextLayer.default fresh_id)).
Proof. reflexivity. Qed.

Lemma add_overlay_created (fresh_id label : string) :
  create_overlay_layer fresh_id (Some [("label"%string, VStr label)])
  = Ok (OverlayLayer.set_label label (OverlayLayer.default fresh_id)).
Proof. reflexivity. Qed.

Lemma add_image_created (fresh_id label : string) :
  create_image_layer fresh_id (Some [("label"%string, VStr label)])
  = Ok (ImageLayer.set_label label (ImageLayer.default fresh_id)).
Proof. reflexivity. Qed.

(** X4: adding or duplicating a layer never leaves a stale entry: in a scene
    whose layer order names only existing layers, the order after any of the
    three add commands and the three duplicate commands names only existing
    layers too, whatever id is drawn. *)
Theorem growth_keeps_references (env : Env) (app : Designer)
        (new_id fresh_id : string) :
  well_referenced app ->
  well_referenced (fst (_add_text_layer env fresh_id app))
  /\ well_referenced (fst (_add_overlay_layer env fresh_id app))
  /\ well_referenced (fst (_add_image_layer env fresh_id app))
  /\ well_referenced (fst (_duplicate_text_layer env new_id fresh_id app))
  /\ well_referenced (fst (_duplicate_overlay_layer env new_id fresh_id app))
  /\ well_referenced (fst (_duplicate_image_layer env new_id fresh_id app)).
Proof.
  intros Hwr. repeat split.
  - unfold _add_text_layer. rewrite add_text_created.
    apply rerender_well_referenced, add_text_well_referenced, Hwr.
  - unfold _add_overlay_layer. rewrite add_overlay_created.
    apply rerender_well_referenced, add_overlay_well_referenced, Hwr.
  - unfold _add_image_layer. rewrite add_image_created.
    apply rerender_well_referenced, add_image_well_referenced, Hwr.
  - unfold _duplicate_text_layer, clone_text.
    destruct (_get_current_text app) as [l|]; [|exact Hwr].
    rewrite create_text_roundtrip. cbn [bind].
    apply rerender_well_referenced, add_text_well_referenced, Hwr.
  - unfold _duplicate_overlay_layer, clone_overlay.
    destruct (_get_current_overlay app) as [l|]; [|exact Hwr].
    rewrite create_overlay_roundtrip. cbn [bind].
    apply rerender_well_referenced, add_overlay_well_referenced, Hwr.
  - unfold _duplicate_image_layer, clone_image.
    destruct (_get_current_image app) as [l|]; [|exact Hwr].
    rewrite create_image_roundtrip. cbn [bind].
    apply rerender_well_referenced, add_image_well_referenced, Hwr.
Qed.

Lemma growth_keeps_references_witness :
  well_referenced (fst (_duplicate_text_layer sample_env "t9" "t8" three_texts_app)).
Proof.
  apply (growth_keeps_references sample_env three_texts_app "t9" "t8"
                                 three_texts_referenced).
Defined.

(** ** Adding a layer and taking it away again *)

Lemma order_without_fresh (entry : string * string)
      (order : list (string * string)) :
  ~ In entry order -> order_without entry (order ++ [entry]) = order.
Proof.
  intros Hnot. unfold order_without. rewrite filter_app. cbn [filter].
  rewrite (proj2 (entry_eqb_eq entry entry) eq_refl). cbn [negb].
  rewrite app_nil_r. induction order as [|e order IH]; [reflexivity|].
  cbn [filter]. destruct (entry_eqb e entry) eqn:E.
  - apply entry_eqb_eq in E. subst e. contradiction Hnot. left. reflexivity.
  - cbn [negb]. f_equal. apply IH. intros Hin. apply Hnot. right. exact Hin.
Qed.

Lemma pop_last {A : Type} (l : list A) (x : A) :
  PyList.pop (l ++ [x]) (List.length l) = Some (x, l).
Proof.
  unfold PyList.pop. rewrite nth_error_app2 by lia. rewrite Nat.sub_diag.
  cbn [nth_error]. f_equal. f_equal.
  rewrite firstn_app, Nat.sub_diag, firstn_all. cbn [firstn].
  rewrite skipn_all2 by (rewrite length_app; cbn; lia).
  rewrite !app_nil_r. reflexivity.
Qed.

(** X5: [_add_text_layer] appends a default text layer labelled "Teks n+1"
    (n the number of text layers so far) under the drawn id, puts its entry
    last in the layer order, that is on top, and selects it; removing that
    layer again gives back the text layers and the layer order as they were,
    provided the drawn id was not already in the order. *)
Theorem add_then_remove_text (env : Env) (app : Designer) (fresh_id : string) :
  ~ In ("text"%string, fresh_id) (layer_order app) ->
  let layer :=
    TextLayer.set_label
      ("Teks " ++ str_of_nat (List.length (text_layers app) + 1))%string
      (TextLayer.default fresh_id) in
  let app1 := fst (_add_text_layer env fresh_id app) in
  text_layers app1 = text_layers app ++ [layer]
  /\ layer_order app1 = layer_order app ++ [("text"%string, fresh_id)]
  /\ current_text_id app1 = Some fresh_id
  /\ exists out,
      _remove_text_layer env (Some (List.length (text_layers app))) app1 = Some out
      /\ text_layers (fst out) = text_layers app
      /\ layer_order (fst out) = layer_order app.
Proof.
  intros Hfresh layer app1.
  assert (E1 : app1 = fst (rerender env (add_text layer app))).
  { subst app1. unfold _add_text_layer. rewrite add_text_created. reflexivity. }
  destruct (rerender_scene env (add_text layer app)) as (Ht & _ & _ & Ho).
  destruct (rerender_keeps env (add_text layer app)) as (_ & _ & _ & Hc & _).
  rewrite <- E1 in Ht, Ho, Hc.
  cbn [text_layers layer_order current_text_id add_text] in Ht, Ho, Hc.
  split; [exact Ht|]. split; [exact Ho|]. split; [exact Hc|].
  unfold _remove_text_layer. rewrite Ht, pop_last, Ho.
  change (TextLayer.id layer) with fresh_id.
  rewrite (order_without_fresh _ _ Hfresh).
  destruct (text_layers app) as [|t0 ts] eqn:El.
  - eexists. split; [reflexivity|].
    destruct (rerender_scene env (set_text_scene [] (layer_order app) None app1))
      as (Ht' & _ & _ & Ho').
    split; [exact Ht'|exact Ho'].
  - destruct (PyList.item (t0 :: ts) (Z.of_nat (List.length (t0 :: ts)) - 1))
      as [l|] eqn:Ei.
    + eexists. split; [reflexivity|].
      destruct (rerender_scene env
                  (set_text_scene (t0 :: ts) (layer_order app)
                                  (Some (TextLayer.id l)) app1))
        as (Ht' & _ & _ & Ho').
      split; [exact Ht'|exact Ho'].
    + exfalso. cbn [List.length] in Ei.
      replace (Z.of_nat (S (List.length ts)) - 1) with (Z.of_nat (List.length ts))
        in Ei by lia.
      rewrite (item_nonneg (t0 :: ts) (List.length ts)) in Ei by (cbn; lia).
      apply nth_error_None in Ei. cbn in Ei. lia.
Qed.

Lemma add_then_remove_text_witness :
  text_layers (fst (_add_text_layer sample_env "t2" sample_app))
  = [default_headline;
     TextLayer.set_label "Teks 2" (TextLayer.default "t2")]
  /\ exists out,
      _remove_text_layer sample_env (Some 1%nat)
                         (fst (_add_text_layer sample_env "t2" sample_app))
      = Some out
      /\ text_layers (fst out) = text_layers sample_app
      /\ layer_order (fst out) = layer_order sample_app.
Proof.
  assert (Hf : ~ In ("text"%string, "t2"%string) (layer_order sample_app)).
  { intros [H|[H|[]]]; discriminate H. }
  destruct (add_then_remove_text sample_env sample_app "t2" Hf)
    as (Ht & _ & _ & Hrm).
  split; [exact Ht|exact Hrm].
Defined.

(** ** Reordering *)

Lemma pop_middle {A : Type} (l1 l2 : list A) (a : A) :
  PyList.pop (l1 ++ a :: l2) (List.length l1) = Some (a, l1 ++ l2).
Proof.
  unfold PyList.pop.
  induction l1 as [|x l1 IH]; [reflexivity|].
  cbn [app List.length nth_error firstn skipn].
  destruct (nth_error (l1 ++ a :: l2) (List.length l1)); [|discriminate].
  injection IH as -> E. cbn [app]. rewrite E. reflexivity.
Qed.

Lemma insert_middle {A : Type} (l1 l2 : list A) (a : A) :
  PyList.insert (l1 ++ l2) (List.length l1) a = l1 ++ a :: l2.
Proof.
  unfold PyList.insert.
  induction l1 as [|x l1 IH]; [reflexivity|].
  cbn [app List.length firstn skipn]. rewrite IH. reflexivity.
Qed.

Lemma find_index_middle {A : Type} (p : A -> bool) (l1 l2 : list A) (a : A) :
  forallb (fun x => negb (p x)) l1 = true -> p a = true ->
  PyList.find_index p (l1 ++ a :: l2) = Some (List.length l1).
Proof.
  intros H1 Ha. induction l1 as [|x l1 IH]; cbn [app PyList.find_index List.length].
  - rewrite Ha. reflexivity.
  - cbn [forallb] in H1. apply andb_prop in H1 as [Hx H1].
    apply negb_true_iff in Hx. rewrite Hx, (IH H1). reflexivity.
Qed.

Lemma clamp_int_spec (v lo hi : Z) :
  clamp_int v lo hi = Z.max lo (Z.min v hi).
Proof.
  unfold clamp_int.
  destruct (Z.ltb_spec hi v);
    match goal with |- context [?a <? ?b] => destruct (Z.ltb_spec a b) end; lia.
Qed.

Lemma find_index_some {A : Type} (p : A -> bool) (l : list A) (i : nat) :
  PyList.find_index p l = Some i -> (i < List.length l)%nat.
Proof.
  revert i. induction l as [|x l IH]; intros i; cbn [PyList.find_index];
    [discriminate|].
  destruct (p x); [intros [= <-]; cbn; lia|].
  destruct (PyList.find_index p l) as [j|]; [|discriminate].
  intros [= <-]. specialize (IH j eq_refl). cbn. lia.
Qed.

Lemma shift_order (env : Env) (selection : list string) (direction : Z)
      (app : Designer) :
  fst (_shift_layer env selection direction app) = app
  \/ exists index item rest new_index,
      PyList.pop (layer_order app) index = Some (item, rest)
      /\ (new_index <= List.length rest)%nat
      /\ fst (_shift_layer env selection direction app)
         = fst (rerender env
                  (set_layer_order (PyList.insert rest new_index item) app)).
Proof.
  unfold _shift_layer. destruct selection as [|selected _]; [left; reflexivity|].
  destruct (PyList.find_index _ (layer_order app)) as [index|] eqn:Ei;
    [|left; reflexivity].
  apply find_index_some in Ei.
  destruct (Z.eqb_spec
              (clamp_int (Z.of_nat index + direction) 0
                         (Z.of_nat (List.length (layer_order app)) - 1))
              (Z.of_nat index)); [left; reflexivity|].
  destruct (PyList.pop (layer_order app) index) as [[item rest]|] eqn:Ep;
    [|left; reflexivity].
  right. exists index, item, rest. eexists. split; [exact Ep|].
  split; [|reflexivity].
  destruct (pop_inv _ _ _ _ Ep) as (_ & _ & _ & _ & Hlen).
  rewrite clamp_int_spec. lia.
Qed.

(** X6: [_shift_layer] only reorders: whatever row is selected and whatever
    the direction, the layer order afterwards is a permutation of the one
    before, the three layer collections are untouched, and no stale entry
    appears. *)
Theorem shift_layer_permutes (env : Env) (selection : list string)
        (direction : Z) (app : Designer) :
  let app' := fst (_shift_layer env selection direction app) in
  Permutation (layer_order app) (layer_order app')
  /\ text_layers app' = text_layers app
  /\ overlay_layers app' = overlay_layers app
  /\ image_layers app' = image_layers app
  /\ (well_referenced app -> well_referenced app').
Proof.
  intros app'. subst app'.
  destruct (shift_order env selection direction app)
    as [->|(index & item & rest & k & Hpop & Hk & ->)].
  { repeat split; trivial. }
  destruct (pop_inv _ _ _ _ Hpop) as (_ & Hrest & Hl & _).
  destruct (rerender_scene env
              (set_layer_order (PyList.insert rest k item) app))
    as (Ht & Ho & Hi & Hord).
  assert (Hperm : Permutation (layer_order app) (PyList.insert rest k item)).
  { pose proof (Permutation_middle (firstn index (layer_order app))
                                    (skipn (S index) (layer_order app)) item) as Hp.
    rewrite <- Hl, <- Hrest in Hp.
    apply (Permutation_trans (Permutation_sym Hp)).
    unfold PyList.insert.
    pose proof (Permutation_middle (firstn k rest) (skipn k rest) item) as Hq.
    rewrite firstn_skipn in Hq. exact Hq. }
  rewrite Ht, Ho, Hi, Hord.
  cbn [text_layers overlay_layers image_layers layer_order set_layer_order].
  repeat split; trivial.
  intros Hwr entry Hin. rewrite rerender_resolves.
  destruct (rerender_scene env (set_layer_order (PyList.insert rest k item) app))
    as (_ & _ & _ & Hord').
  rewrite Hord' in Hin. cbn [layer_order set_layer_order] in Hin.
  apply (Permutation_in _ (Permutation_sym Hperm)) in Hin.
  specialize (Hwr entry Hin). revert Hwr. destruct entry as [ty i].
  unfold resolves. cbn [text_layers overlay_layers image_layers set_layer_order].
  trivial.
Qed.

Lemma shift_layer_permutes_witness :
  well_referenced
    (fst (_shift_layer sample_env ["text:t2"%string] (-1) three_texts_app)).
Proof.
  apply (proj2 (proj2 (proj2 (proj2
           (shift_layer_permutes sample_env ["text:t2"%string] (-1)
                                 three_texts_app))))).
  exact three_texts_referenced.
Defined.

Lemma keys_differ (selected : string) (l : list (string * string)) :
  (forall e, In e l -> entry_key e <> selected) ->
  forallb (fun x => negb (String.eqb (entry_key x) selected)) l = true.
Proof.
  intros H. apply forallb_forall. intros e He. apply negb_true_iff.
  destruct (String.eqb_spec (entry_key e) selected) as [E|]; [|reflexivity].
  contradiction (H e He).
Qed.

(** X7: with the row of entry [a] selected (the first entry with that row
    id), [_shift_layer(1)] swaps [a] with the entry after it and
    [_shift_layer(-1)] swaps it with the entry before it, so one after the
    other restores the order; at the two ends of the order the command that
    would move [a] off the list changes nothing. *)
Theorem shift_layer_swaps (env : Env) (app : Designer)
        (l1 l2 : list (string * string)) (a b : string * string) :
  (forall e, In e l1 -> entry_key e <> entry_key a) ->
  entry_key b <> entry_key a ->
  (layer_order app = l1 ++ a :: b :: l2 ->
   layer_order (fst (_shift_layer env [entry_key a] 1 app)) = l1 ++ b :: a :: l2
   /\ layer_order (fst (_shift_layer env [entry_key a] (-1)
                                     (fst (_shift_layer env [entry_key a] 1 app))))
      = layer_order app)
  /\ (layer_order app = l1 ++ b :: a :: l2 ->
      layer_order (fst (_shift_layer env [entry_key a] (-1) app))
      = l1 ++ a :: b :: l2)
  /\ (layer_order app = a :: l2 ->
      fst (_shift_layer env [entry_key a] (-1) app) = app)
  /\ (layer_order app = l1 ++ [a] ->
      fst (_shift_layer env [entry_key a] 1 app) = app).
Proof.
  intros Hl1 Hb.
  pose proof (keys_differ _ _ Hl1) as Hk1.
  assert (Hup : forall app0,
             layer_order app0 = l1 ++ a :: b :: l2 ->
             layer_order (fst (_shift_layer env [entry_key a] 1 app0))
             = l1 ++ b :: a :: l2).
  { intros app0 Ho. unfold _shift_layer. rewrite Ho.
    rewrite (find_index_middle _ l1 (b :: l2) a Hk1 (String.eqb_refl _)).
    rewrite pop_middle.
    assert (Hc : clamp_int (Z.of_nat (List.length l1) + 1) 0
                           (Z.of_nat (List.length (l1 ++ a :: b :: l2)) - 1)
                 = Z.of_nat (List.length (l1 ++ [b]))).
    { rewrite !length_app. cbn [List.length]. rewrite clamp_int_spec. lia. }
    rewrite Hc.
    destruct (Z.eqb_spec (Z.of_nat (List.length (l1 ++ [b])))
                         (Z.of_nat (List.length l1))) as [E|_].
    { rewrite length_app in E. cbn [List.length] in E. lia. }
    destruct (rerender_scene env
                (set_layer_order
                   (PyList.insert (l1 ++ b :: l2)
                                  (Z.to_nat (Z.of_nat (List.length (l1 ++ [b])))) a)
                   app0)) as (_ & _ & _ & Hord).
    rewrite Hord. cbn [layer_order set_layer_order]. rewrite Nat2Z.id.
    change (l1 ++ b :: l2) with (l1 ++ [b] ++ l2). rewrite app_assoc.
    rewrite insert_middle, <- app_assoc. reflexivity. }
  assert (Hdown : forall app0,
             layer_order app0 = l1 ++ b :: a :: l2 ->
             layer_order (fst (_shift_layer env [entry_key a] (-1) app0))
             = l1 ++ a :: b :: l2).
  { intros app0 Ho. unfold _shift_layer. rewrite Ho.
    change (l1 ++ b :: a :: l2) with (l1 ++ [b] ++ a :: l2). rewrite app_assoc.
    assert (Hk2 : forallb (fun x => negb (String.eqb (entry_key x) (entry_key a)))
                          (l1 ++ [b]) = true).
    { rewrite forallb_app, Hk1. cbn [forallb].
      destruct (String.eqb_spec (entry_key b) (entry_key a)); [contradiction|].
      reflexivity. }
    rewrite (find_index_middle _ (l1 ++ [b]) l2 a Hk2 (String.eqb_refl _)).
    rewrite pop_middle.
    assert (Hc : clamp_int (Z.of_nat (List.length (l1 ++ [b])) + -1) 0
                           (Z.of_nat (List.length ((l1 ++ [b]) ++ a :: l2)) - 1)
                 = Z.of_nat (List.length l1)).
    { rewrite !length_app. cbn [List.length]. rewrite clamp_int_spec. lia. }
    rewrite Hc.
    destruct (Z.eqb_spec (Z.of_nat (List.length l1))
                         (Z.of_nat (List.length (l1 ++ [b])))) as [E|_].
    { rewrite length_app in E. cbn [List.length] in E. lia. }
    destruct (rerender_scene env
                (set_layer_order
                   (PyList.insert ((l1 ++ [b]) ++ l2)
                                  (Z.to_nat (Z.of_nat (List.length l1))) a)
                   app0)) as (_ & _ & _ & Hord).
    rewrite Hord. cbn [layer_order set_layer_order]. rewrite Nat2Z.id.
    rewrite <- app_assoc. rewrite insert_middle. reflexivity. }
  split; [|split; [|split]].
  - intros Ho. split; [apply Hup; exact Ho|].
    rewrite Ho. apply Hdown. apply Hup. exact Ho.
  - apply Hdown.
  - intros Ho. unfold _shift_layer. rewrite Ho.
    cbn [PyList.find_index]. rewrite String.eqb_refl.
    assert (Hc : clamp_int (Z.of_nat 0 + -1) 0
                           (Z.of_nat (List.length (a :: l2)) - 1) = Z.of_nat 0).
    { cbn [List.length]. rewrite clamp_int_spec. lia. }
    rewrite Hc, Z.eqb_refl. reflexivity.
  - intros Ho. unfold _shift_layer. rewrite Ho.
    rewrite (find_index_middle _ l1 [] a Hk1 (String.eqb_refl _)).
    assert (Hc : clamp_int (Z.of_nat (List.length l1) + 1) 0
                           (Z.of_nat (List.length (l1 ++ [a])) - 1)
                 = Z.of_nat (List.length l1)).
    { rewrite length_app. cbn [List.length]. rewrite clamp_int_spec. lia. }
    rewrite Hc, Z.eqb_refl. reflexivity.
Qed.

Lemma shift_layer_swaps_witness :
  layer_order (fst (_shift_layer sample_env ["text:t1"%string] 1 sample_app))
  = [("overlay"%string, "b1"%string); ("text"%string, "t1"%string)].
Proof.
  apply (proj1 (proj1 (shift_layer_swaps sample_env sample_app [] []
                         ("text"%string, "t1"%string) ("overlay"%string, "b1"%string)
                         (fun e (H : In e []) => match H with end)
                         ltac:(discriminate))
                      eq_refl)).
Defined.

(** ** Toggles *)

Lemma update_first_twice {A : Type} (p : A -> bool) (f : A -> A) (l : list A) :
  (forall x, f (f x) = x) -> (forall x, p (f x) = p x) ->
  update_first p f (update_first p f l) = l.
Proof.
  intros Hinv Hp. induction l as [|x l IH]; [reflexivity|].
  cbn [update_first]. destruct (p x) eqn:E; cbn [update_first].
  - rewrite Hp, E, Hinv. reflexivity.
  - rewrite E, IH. reflexivity.
Qed.

Lemma find_update_first {A : Type} (p : A -> bool) (f : A -> A) (l : list A) :
  (forall x, p (f x) = p x) ->
  find p (update_first p f l) = option_map f (find p l).
Proof.
  intros Hp. induction l as [|x l IH]; [reflexivity|].
  cbn [update_first find]. destruct (p x) eqn:E; cbn [find].
  - rewrite Hp, E. reflexivity.
  - rewrite E, IH. reflexivity.
Qed.

Lemma update_first_ids {A : Type} (p : A -> bool) (f : A -> A) (key : A -> string)
      (l : list A) :
  (forall x, key (f x) = key x) -> map key (update_first p f l) = map key l.
Proof.
  intros Hk. induction l as [|x l IH]; [reflexivity|].
  cbn [update_first]. destruct (p x); cbn [map]; [rewrite Hk|rewrite IH]; reflexivity.
Qed.

Lemma toggle_shadow_twice (l : TextLayer.t) :
  toggle_shadow_enabled (toggle_shadow_enabled l) = l.
Proof.
  destruct l as [i lb tx ff fs co al px py mw tr ro [e ox oy br sc so] st].
  unfold toggle_shadow_enabled. cbn. rewrite negb_involutive. reflexivity.
Qed.

Lemma toggle_add_shadow_twice (l : ImageLayer.t) :
  toggle_add_shadow (toggle_add_shadow l) = l.
Proof.
  destruct l. unfold toggle_add_shadow. cbn. rewrite negb_involutive. reflexivity.
Qed.

Lemma toggle_text_state (env : Env) (app : Designer) (cid : string)
      (layer : TextLayer.t) :
  truthy_id (current_text_id app) = Some cid ->
  find (fun l => String.eqb (TextLayer.id l) cid) (text_layers app) = Some layer ->
  let app' := fst (_toggle_text_shadow env app) in
  text_layers app'
  = update_first (fun l => String.eqb (TextLayer.id l) cid) toggle_shadow_enabled
                 (text_layers app)
  /\ current_text_id app' = current_text_id app
  /\ layer_order app' = layer_order app
  /\ image_layers app' = image_layers app
  /\ overlay_layers app' = overlay_layers app.
Proof.
  intros Hc Hf app'. subst app'. unfold _toggle_text_shadow, _get_current_text.
  rewrite Hc, Hf.
  assert (Hid : TextLayer.id layer = cid).
  { apply find_some in Hf. apply String.eqb_eq. exact (proj2 Hf). }
  rewrite Hid.
  match goal with |- context [rerender env ?a] =>
    destruct (rerender_scene env a) as (Ht & Ho & Hi & Hord);
    destruct (rerender_keeps env a) as (_ & _ & _ & Hcur & _)
  end.
  rewrite Ht, Ho, Hi, Hord, Hcur. repeat split.
Qed.

Lemma toggle_image_state (env : Env) (app : Designer) (cid : string)
      (layer : ImageLayer.t) :
  truthy_id (current_image_id app) = Some cid ->
  find (fun l => String.eqb (ImageLayer.id l) cid) (image_layers app) = Some layer ->
  let app' := fst (_toggle_image_shadow env app) in
  image_layers app'
  = update_first (fun l => String.eqb (ImageLayer.id l) cid) toggle_add_shadow
                 (image_layers app)
  /\ current_image_id app' = current_image_id app
  /\ layer_order app' = layer_order app
  /\ text_layers app' = text_layers app
  /\ overlay_layers app' = overlay_layers app.
Proof.
  intros Hc Hf app'. subst app'. unfold _toggle_image_shadow, _get_current_image.
  rewrite Hc, Hf.
  assert (Hid : ImageLayer.id layer = cid).
  { apply find_some in Hf. apply String.eqb_eq. exact (proj2 Hf). }
  rewrite Hid.
  match goal with |- context [rerender env ?a] =>
    destruct (rerender_scene env a) as (Ht & Ho & Hi & Hord);
    destruct (rerender_keeps env a) as (_ & _ & _ & _ & Hcur & _)
  end.
  rewrite Ht, Ho, Hi, Hord, Hcur. repeat split.
Qed.

Lemma update_first_split {A : Type} (p : A -> bool) (f : A -> A) (l : list A)
      (x : A) :
  find p l = Some x ->
  exists before after,
    l = before ++ x :: after
    /\ (forall y, In y before -> p y = false)
    /\ update_first p f l = before ++ f x :: after.
Proof.
  induction l as [|y l IH]; [discriminate|].
  cbn [find update_first]. destruct (p y) eqn:Py.
  - intros [= ->]. exists [], l. repeat split. intros z [].
  - intros Hf. destruct (IH Hf) as (before & after & -> & Hb & Hu).
    exists (y :: before), after. cbn [List.app]. rewrite Hu.
    repeat split. intros z [<-|Hz]; [exact Py|exact (Hb z Hz)].
Qed.

Lemma current_text_found (app : Designer) (layer : TextLayer.t) :
  _get_current_text app = Some layer ->
  truthy_id (current_text_id app) = Some (TextLayer.id layer)
  /\ find (fun l => String.eqb (TextLayer.id l) (TextLayer.id layer))
          (text_layers app) = Some layer.
Proof.
  unfold _get_current_text.
  destruct (truthy_id (current_text_id app)) as [cid|]; [|discriminate].
  intros Hf. pose proof (find_some _ _ Hf) as [_ Hid].
  apply String.eqb_eq in Hid. subst cid. split; [reflexivity|exact Hf].
Qed.

Lemma current_image_found (app : Designer) (layer : ImageLayer.t) :
  _get_current_image app = Some layer ->
  truthy_id (current_image_id app) = Some (ImageLayer.id layer)
  /\ find (fun l => String.eqb (ImageLayer.id l) (ImageLayer.id layer))
          (image_layers app) = Some layer.
Proof.
  unfold _get_current_image.
  destruct (truthy_id (current_image_id app)) as [cid|]; [|discriminate].
  intros Hf. pose proof (find_some _ _ Hf) as [_ Hid].
  apply String.eqb_eq in Hid. subst cid. split; [reflexivity|exact Hf].
Qed.

Lemma toggle_shadow_fields (l : TextLayer.t) :
  ShadowSettings.enabled (TextLayer.shadow (toggle_shadow_enabled l))
  = negb (ShadowSettings.enabled (TextLayer.shadow l))
  /\ (forall k, k <> "enabled"%string ->
                get k (ShadowDict.asdict (TextLayer.shadow (toggle_shadow_enabled l)))
                = get k (ShadowDict.asdict (TextLayer.shadow l)))
  /\ (forall k, k <> "shadow"%string ->
                get k (TextDict.asdict (toggle_shadow_enabled l))
                = get k (TextDict.asdict l)).
Proof.
  split; [reflexivity|]. split; intros k Hk.
  - unfold ShadowDict.asdict. cbn [get].
    destruct (String.eqb_spec k "enabled"); [contradiction|reflexivity].
  - unfold TextDict.asdict. cbn [get TextLayer.id TextLayer.label TextLayer.text
      TextLayer.font_file TextLayer.font_size TextLayer.color TextLayer.align
      TextLayer.position_x TextLayer.position_y TextLayer.max_width
      TextLayer.tracking TextLayer.rotation TextLayer.stroke toggle_shadow_enabled].
    destruct (String.eqb_spec k "shadow"); [contradiction|reflexivity].
Qed.

Lemma toggle_add_shadow_fields (l : ImageLayer.t) :
  ImageLayer.add_shadow (toggle_add_shadow l) = negb (ImageLayer.add_shadow l)
  /\ (forall k, k <> "add_shadow"%string ->
                get k (ImageDict.asdict (toggle_add_shadow l))
                = get k (ImageDict.asdict l)).
Proof.
  split; [reflexivity|]. intros k Hk.
  unfold ImageDict.asdict, toggle_add_shadow.
  cbn [get ImageLayer.id ImageLayer.label ImageLayer.image_path ImageLayer.scale
       ImageLayer.rotation ImageLayer.position_x ImageLayer.position_y
       ImageLayer.opacity ImageLayer.flip_horizontal ImageLayer.flip_vertical
       ImageLayer.shadow_blur ImageLayer.shadow_offset_x ImageLayer.shadow_offset_y
       ImageLayer.shadow_opacity ImageLayer.add_shadow].
  destruct (String.eqb_spec k "add_shadow"); [contradiction|reflexivity].
Qed.

Lemma toggle_text_only (env : Env) (app : Designer) :
  let t1 := fst (_toggle_text_shadow env app) in
  (_get_current_text app = None -> t1 = app)
  /\ (forall layer,
         _get_current_text app = Some layer ->
         exists before after,
           text_layers app = before ++ layer :: after
           /\ (forall l, In l before -> TextLayer.id l <> TextLayer.id layer)
           /\ text_layers t1 = before ++ toggle_shadow_enabled layer :: after)
  /\ image_layers t1 = image_layers app
  /\ overlay_layers t1 = overlay_layers app
  /\ layer_order t1 = layer_order app
  /\ current_text_id t1 = current_text_id app.
Proof.
  intros t1. subst t1.
  destruct (_get_current_text app) as [layer|] eqn:Hcur.
  2:{ unfold _toggle_text_shadow. rewrite Hcur. cbn [fst].
      repeat split. intros layer [=]. }
  destruct (current_text_found app layer Hcur) as [Hc Hf].
  destruct (toggle_text_state env app _ layer Hc Hf) as (Ht & Hid & Ho & Hi & Hov).
  split; [discriminate|].
  split; [|repeat split; assumption].
  intros l [= <-].
  destruct (update_first_split _ toggle_shadow_enabled _ _ Hf)
    as (before & after & Hl & Hb & Hu).
  exists before, after. split; [exact Hl|]. split.
  - intros l Hin E. specialize (Hb l Hin). cbv beta in Hb.
    rewrite E, String.eqb_refl in Hb. discriminate.
  - rewrite Ht. exact Hu.
Qed.

Lemma toggle_image_only (env : Env) (app : Designer) :
  let i1 := fst (_toggle_image_shadow env app) in
  (_get_current_image app = None -> i1 = app)
  /\ (forall layer,
         _get_current_image app = Some layer ->
         exists before after,
           image_layers app = before ++ layer :: after
           /\ (forall l, In l before -> ImageLayer.id l <> ImageLayer.id layer)
           /\ image_layers i1 = before ++ toggle_add_shadow layer :: after)
  /\ text_layers i1 = text_layers app
  /\ overlay_layers i1 = overlay_layers app
  /\ layer_order i1 = layer_order app
  /\ current_image_id i1 = current_image_id app.
Proof.
  intros i1. subst i1.
  destruct (_get_current_image app) as [layer|] eqn:Hcur.
  2:{ unfold _toggle_image_shadow. rewrite Hcur. cbn [fst].
      repeat split. intros layer [=]. }
  destruct (current_image_found app layer Hcur) as [Hc Hf].
  destruct (toggle_image_state env app _ layer Hc Hf) as (Ht & Hid & Ho & Hx & Hov).
  split; [discriminate|].
  split; [|repeat split; assumption].
  intros l [= <-].
  destruct (update_first_split _ toggle_add_shadow _ _ Hf)
    as (before & after & Hl & Hb & Hu).
  exists before, after. split; [exact Hl|]. split.
  - intros l Hin E. specialize (Hb l Hin). cbv beta in Hb.
    rewrite E, String.eqb_refl in Hb. discriminate.
  - rewrite Ht. exact Hu.
Qed.

Lemma toggle_text_twice (env : Env) (app : Designer) :
  text_layers (fst (_toggle_text_shadow env (fst (_toggle_text_shadow env app))))
  = text_layers app.
Proof.
  destruct (_get_current_text app) as [layer|] eqn:Hcur.
  2:{ assert (E : fst (_toggle_text_shadow env app) = app).
      { unfold _toggle_text_shadow. rewrite Hcur. reflexivity. }
      rewrite E, E. reflexivity. }
  destruct (current_text_found app layer Hcur) as [Hc Hf].
  destruct (toggle_text_state env app _ layer Hc Hf) as (Ht & Hid & _).
  assert (Hc' : truthy_id (current_text_id (fst (_toggle_text_shadow env app)))
                = Some (TextLayer.id layer)) by (rewrite Hid; exact Hc).
  assert (Hf' : find (fun l => String.eqb (TextLayer.id l) (TextLayer.id layer))
                     (text_layers (fst (_toggle_text_shadow env app)))
                = Some (toggle_shadow_enabled layer)).
  { rewrite Ht, find_update_first by reflexivity. rewrite Hf. reflexivity. }
  destruct (toggle_text_state env _ _ _ Hc' Hf') as (Ht2 & _).
  rewrite Ht2, Ht. apply update_first_twice; [apply toggle_shadow_twice|reflexivity].
Qed.

Lemma toggle_image_twice (env : Env) (app : Designer) :
  image_layers (fst (_toggle_image_shadow env (fst (_toggle_image_shadow env app))))
  = image_layers app.
Proof.
  destruct (_get_current_image app) as [layer|] eqn:Hcur.
  2:{ assert (E : fst (_toggle_image_shadow env app) = app).
      { unfold _toggle_image_shadow. rewrite Hcur. reflexivity. }
      rewrite E, E. reflexivity. }
  destruct (current_image_found app layer Hcur) as [Hc Hf].
  destruct (toggle_image_state env app _ layer Hc Hf) as (Ht & Hid & _).
  assert (Hc' : truthy_id (current_image_id (fst (_toggle_image_shadow env app)))
                = Some (ImageLayer.id layer)) by (rewrite Hid; exact Hc).
  assert (Hf' : find (fun l => String.eqb (ImageLayer.id l) (ImageLayer.id layer))
                     (image_layers (fst (_toggle_image_shadow env app)))
                = Some (toggle_add_shadow layer)).
  { rewrite Ht, find_update_first by reflexivity. rewrite Hf. reflexivity. }
  destruct (toggle_image_state env _ _ _ Hc' Hf') as (Ht2 & _).
  rewrite Ht2, Ht.
  apply update_first_twice; [apply toggle_add_shadow_twice|reflexivity].
Qed.

(** X8: [_toggle_text_shadow] changes one layer and one field.  With no
    current text layer it changes nothing.  Otherwise the text layers
    before and after the current one (the first layer with the current id)
    stay exactly as they are, the current layer is replaced by itself with
    [shadow.enabled] negated and every other field, of the layer and of its
    shadow, as it was; image layers, overlay layers, layer order and
    selection are untouched; and toggling twice gives back the text layers
    as they were.  [_toggle_image_shadow] does the same to [add_shadow] of
    the current image layer. *)
Theorem toggles_are_involutions (env : Env) (app : Designer) :
  let t1 := fst (_toggle_text_shadow env app) in
  let i1 := fst (_toggle_image_shadow env app) in
  ((_get_current_text app = None -> t1 = app)
   /\ (forall layer,
          _get_current_text app = Some layer ->
          let toggled := toggle_shadow_enabled layer in
          (exists before after,
              text_layers app = before ++ layer :: after
              /\ (forall l, In l before -> TextLayer.id l <> TextLayer.id layer)
              /\ text_layers t1 = before ++ toggled :: after)
          /\ ShadowSettings.enabled (TextLayer.shadow toggled)
             = negb (ShadowSettings.enabled (TextLayer.shadow layer))
          /\ (forall k, k <> "enabled"%string ->
                        get k (ShadowDict.asdict (TextLayer.shadow toggled))
                        = get k (ShadowDict.asdict (TextLayer.shadow layer)))
          /\ (forall k, k <> "shadow"%string ->
                        get k (TextDict.asdict toggled)
                        = get k (TextDict.asdict layer))
          /\ _get_current_text t1 = Some toggled)
   /\ image_layers t1 = image_layers app
   /\ overlay_layers t1 = overlay_layers app
   /\ layer_order t1 = layer_order app
   /\ current_text_id t1 = current_text_id app
   /\ text_layers (fst (_toggle_text_shadow env t1)) = text_layers app)
  /\ ((_get_current_image app = None -> i1 = app)
      /\ (forall layer,
             _get_current_image app = Some layer ->
             let toggled := toggle_add_shadow layer in
             (exists before after,
                 image_layers app = before ++ layer :: after
                 /\ (forall l, In l before -> ImageLayer.id l <> ImageLayer.id layer)
                 /\ image_layers i1 = before ++ toggled :: after)
             /\ ImageLayer.add_shadow toggled = negb (ImageLayer.add_shadow layer)
             /\ (forall k, k <> "add_shadow"%string ->
                           get k (ImageDict.asdict toggled)
                           = get k (ImageDict.asdict layer))
             /\ _get_current_image i1 = Some toggled)
      /\ text_layers i1 = text_layers app
      /\ overlay_layers i1 = overlay_layers app
      /\ layer_order i1 = layer_order app
      /\ current_image_id i1 = current_image_id app
      /\ image_layers (fst (_toggle_image_shadow env i1)) = image_layers app).
Proof.
  intros t1 i1. split.
  - destruct (toggle_text_only env app) as (Hnone & Hsome & Hi & Hov & Ho & Hid).
    split; [exact Hnone|]. split.
    + intros layer Hcur toggled.
      destruct (toggle_shadow_fields layer) as (Hflag & Hshadow & Hrest).
      split; [exact (Hsome layer Hcur)|].
      split; [exact Hflag|]. split; [exact Hshadow|]. split; [exact Hrest|].
      destruct (current_text_found app layer Hcur) as [Hc Hf].
      destruct (toggle_text_state env app _ layer Hc Hf) as (Ht & Hid' & _).
      unfold _get_current_text. subst t1. rewrite Hid', Hc, Ht.
      rewrite find_update_first by reflexivity. rewrite Hf. reflexivity.
    + split; [exact Hi|]. split; [exact Hov|]. split; [exact Ho|].
      split; [exact Hid|]. apply toggle_text_twice.
  - destruct (toggle_image_only env app) as (Hnone & Hsome & Ht & Hov & Ho & Hid).
    split; [exact Hnone|]. split.
    + intros layer Hcur toggled.
      destruct (toggle_add_shadow_fields layer) as (Hflag & Hrest).
      split; [exact (Hsome layer Hcur)|].
      split; [exact Hflag|]. split; [exact Hrest|].
      destruct (current_image_found app layer Hcur) as [Hc Hf].
      destruct (toggle_image_state env app _ layer Hc Hf) as (Hl & Hid' & _).
      unfold _get_current_image. subst i1. rewrite Hid', Hc, Hl.
      rewrite find_update_first by reflexivity. rewrite Hf. reflexivity.
    + split; [exact Ht|]. split; [exact Hov|]. split; [exact Ho|].
      split; [exact Hid|]. apply toggle_image_twice.
Qed.

Lemma toggles_are_involutions_witness :
  text_layers (fst (_toggle_text_shadow sample_env three_texts_app))
  = [toggle_shadow_enabled (TextLayer.set_id "t1" default_headline);
     TextLayer.set_id "t2" default_headline;
     TextLayer.set_id "t3" default_headline].
Proof.
  destruct (proj1 (proj1 (proj2 (proj1 (toggles_are_involutions sample_env
                                          three_texts_app)))
                         (TextLayer.set_id "t1" default_headline) eq_refl))
    as (before & after & Hl & Hb & Ht).
  destruct before as [|b before]; cbn [List.app] in Hl.
  - injection Hl as <-. exact Ht.
  - exfalso. injection Hl as <- _.
    apply (Hb _ (or_introl eq_refl)). reflexivity.
Defined.

(** ** Paint order *)

(** X9: the layer order is painted front to back of the list: the render of
    an order followed by more entries is the render of the order with those
    entries composited on top, one after the other; so an exception raised
    while painting the first part is the exception of the whole render. *)
Theorem render_appends (env : Env) (app : Designer)
        (order more : list (string * string)) :
  render_thumbnail env (set_layer_order (order ++ more) app)
  = (img <- render_thumbnail env (set_layer_order order app) ;;
     for_each more img (composite_entry env app))
  /\ (forall entry,
         render_thumbnail env (set_layer_order (order ++ [entry]) app)
         = (img <- render_thumbnail env (set_layer_order order app) ;;
            composite_entry env app img entry))
  /\ (forall e,
         render_thumbnail env (set_layer_order order app) = Raise e ->
         render_thumbnail env (set_layer_order (order ++ more) app) = Raise e).
Proof.
  assert (H : forall more',
             render_thumbnail env (set_layer_order (order ++ more') app)
             = (img <- render_thumbnail env (set_layer_order order app) ;;
                for_each more' img (composite_entry env app))).
  { intros more'. rewrite !render_thumbnail_order.
    destruct (background_layer env app) as [bg|e]; cbn [bind]; [|reflexivity].
    apply for_each_app. }
  split; [apply H|]. split.
  - intros entry. rewrite H.
    destruct (render_thumbnail env (set_layer_order order app)) as [img|e];
      cbn [bind for_each]; [|reflexivity].
    destruct (composite_entry env app img entry); reflexivity.
  - intros e He. rewrite H, He. reflexivity.
Qed.

(** ** Image layers *)

(** X10: what an image layer without a usable picture does to the render.
    A layer whose path is [None] or empty is not painted at all; a layer
    whose file [exists()] reports missing, or whose file is there and is not
    opened ([OSError]), is painted as a fully transparent canvas; but an
    error of the existence test itself, which stands before the [try], is
    the error of the layer and aborts the render of every scene that paints
    it. *)
Theorem image_layer_without_picture (env : Env) (app : Designer)
        (layer : ImageLayer.t) :
  (truthy_path (ImageLayer.image_path layer) = None ->
   _render_image_layer env app layer = Ok (Image_new (canvas_size app) transparent)
   /\ forall acc layer_id,
       find (fun i => String.eqb (ImageLayer.id i) layer_id) (image_layers app)
       = Some layer ->
       composite_entry env app acc ("image"%string, layer_id) = Ok acc)
  /\ (forall p,
         truthy_path (ImageLayer.image_path layer) = Some p ->
         path_exists env p = Ok false
         \/ (path_exists env p = Ok true
             /\ exists e, image_open env p = Raise e /\ is_OSError e = true) ->
         _render_image_layer env app layer
         = Ok (Image_new (canvas_size app) transparent)
         /\ forall acc layer_id,
             find (fun i => String.eqb (ImageLayer.id i) layer_id) (image_layers app)
             = Some layer ->
             composite_entry env app acc ("image"%string, layer_id)
             = Ok (alpha_composite env acc (Image_new (canvas_size app) transparent)))
  /\ (forall p e,
         truthy_path (ImageLayer.image_path layer) = Some p ->
         path_exists env p = Raise e ->
         _render_image_layer env app layer = Raise e
         /\ (forall acc layer_id,
                find (fun i => String.eqb (ImageLayer.id i) layer_id)
                     (image_layers app) = Some layer ->
                composite_entry env app acc ("image"%string, layer_id) = Raise e)
         /\ (forall layer_id,
                In ("image"%string, layer_id) (layer_order app) ->
                find (fun i => String.eqb (ImageLayer.id i) layer_id)
                     (image_layers app) = Some layer ->
                raises (render_thumbnail env app))).
Proof.
  split; [|split].
  - intros Hp. split.
    + unfold _render_image_layer. rewrite Hp. reflexivity.
    + intros acc layer_id Hf. unfold composite_entry.
      change ("image" =? "overlay")%string with false.
      change ("image" =? "image")%string with true. cbv iota.
      rewrite Hf, Hp. reflexivity.
  - intros p Hp Hbad.
    assert (Hr : _render_image_layer env app layer
                 = Ok (Image_new (canvas_size app) transparent)).
    { unfold _render_image_layer. rewrite Hp.
      destruct Hbad as [Hex|(Hex & e & He & Hos)]; rewrite Hex; cbn [bind negb];
        [reflexivity|].
      rewrite He, Hos. reflexivity. }
    split; [exact Hr|].
    intros acc layer_id Hf. unfold composite_entry.
    change ("image" =? "overlay")%string with false.
    change ("image" =? "image")%string with true. cbv iota.
    rewrite Hf, Hp, Hr. reflexivity.
  - intros p e Hp He.
    assert (Hr : _render_image_layer env app layer = Raise e).
    { unfold _render_image_layer. rewrite Hp, He. reflexivity. }
    assert (Hc : forall acc layer_id,
               find (fun i => String.eqb (ImageLayer.id i) layer_id)
                    (image_layers app) = Some layer ->
               composite_entry env app acc ("image"%string, layer_id) = Raise e).
    { intros acc layer_id Hf. unfold composite_entry.
      change ("image" =? "overlay")%string with false.
      change ("image" =? "image")%string with true. cbv iota.
      rewrite Hf, Hp, Hr. reflexivity. }
    split; [exact Hr|]. split; [exact Hc|].
    intros layer_id Hin Hf. unfold render_thumbnail.
    destruct (background_layer env app) as [bg|e0]; cbn [bind];
      [|exists e0; reflexivity].
    apply (for_each_raises _ _ _ Hin).
    intros acc. exists e. apply Hc. exact Hf.
Qed.

Lemma image_layer_without_picture_witness :
  _render_image_layer strict_env long_picture_app long_picture = Raise OSError
  /\ raises (render_thumbnail strict_env long_picture_app)
  /\ _render_image_layer sample_env sample_app (ImageLayer.default "i1")
     = Ok (Image_new (1280, 720) transparent).
Proof.
  assert (Hlong : path_exists strict_env long_name = Raise OSError)
    by (vm_compute; reflexivity).
  destruct (proj2 (proj2 (image_layer_without_picture strict_env long_picture_app
                            long_picture))
                  long_name OSError eq_refl Hlong) as (Hr & _ & Hall).
  split; [exact Hr|]. split.
  - apply (Hall "i1"%string); [left; reflexivity|reflexivity].
  - apply (proj1 (image_layer_without_picture sample_env sample_app
                    (ImageLayer.default "i1"))).
    reflexivity.
Defined.

(** ** Stroke *)

Lemma in_range_from (a b x : Z) : In x (range_from a b) <-> a <= x < b.
Proof.
  unfold range_from. rewrite in_map_iff. split.
  - intros (k & <- & Hk). apply in_seq in Hk. lia.
  - intros Hx. exists (Z.to_nat (x - a)). split; [lia|]. apply in_seq. lia.
Qed.

Lemma in_stroke_offsets (w dx dy : Z) :
  In (dx, dy) (stroke_offsets w)
  <-> - w <= dx <= w /\ - w <= dy <= w /\ dx * dx + dy * dy <= w * w.
Proof.
  unfold stroke_offsets. rewrite in_flat_map. split.
  - intros (x & Hx & Hin). apply in_flat_map in Hin. destruct Hin as (y & Hy & Hin).
    apply in_range_from in Hx. apply in_range_from in Hy.
    destruct (Z.leb_spec (x * x + y * y) (w * w)); [|contradiction].
    destruct Hin as [[= <- <-]|[]]. lia.
  - intros (Hx & Hy & Hd). exists dx. split; [apply in_range_from; lia|].
    apply in_flat_map. exists dy. split; [apply in_range_from; lia|].
    destruct (Z.leb_spec (dx * dx + dy * dy) (w * w)); [left; reflexivity|lia].
Qed.

(** X11: [_draw_text_with_stroke] stamps the text in the stroke colour at
    exactly the integer offsets of the disc of radius [stroke_width] around
    the position and draws the fill-coloured text once, last, at the
    position itself; a negative width stamps nothing. *)
Theorem stroke_stamps_disc (x y stroke_width : Z) (fill_color stroke_color : string) :
  let calls := _draw_text_with_stroke (x, y) fill_color stroke_color stroke_width in
  last calls ((x, y), stroke_color) = ((x, y), fill_color)
  /\ (forall dx dy,
         In ((x + dx, y + dy), stroke_color) (removelast calls)
         <-> 0 <= stroke_width /\ dx * dx + dy * dy <= stroke_width * stroke_width)
  /\ (forall c, In c (removelast calls) -> snd c = stroke_color)
  /\ (stroke_width < 0 -> calls = [((x, y), fill_color)]).
Proof.
  intros calls. subst calls. unfold _draw_text_with_stroke.
  rewrite last_last, removelast_last.
  split; [reflexivity|]. split; [|split].
  - intros dx dy. rewrite in_map_iff. split.
    + intros ([ex ey] & [= Hx Hy] & Hin). cbn [fst snd] in Hx, Hy.
      assert (ex = dx) by lia. assert (ey = dy) by lia. subst ex ey.
      apply in_stroke_offsets in Hin. nia.
    + intros [Hw Hd]. exists (dx, dy). split; [reflexivity|].
      apply in_stroke_offsets. nia.
  - intros c Hin. apply in_map_iff in Hin. destruct Hin as (d & <- & _). reflexivity.
  - intros Hneg. unfold stroke_offsets, range_from.
    replace (Z.to_nat (stroke_width + 1 - - stroke_width)) with 0%nat by lia.
    reflexivity.
Qed.

Lemma stroke_stamps_disc_witness :
  In ((10 + 0, 20 + -2), "#111111"%string)
     (removelast (_draw_text_with_stroke (10, 20) "#ffffff" "#111111" 2)).
Proof.
  apply (proj2 (proj1 (proj2 (stroke_stamps_disc 10 20 2 "#ffffff" "#111111"))
                      0 (-2))).
  lia.
Defined.

(** ** Horizontal and vertical gradients *)

Section AxisLoops.

Variables start end_ : RGBA.
Variable d : Z.

Local Abbreviation paint_column :=
  (fun img x => ratio <- Py.truediv x d ;;
                color <- lerp start end_ ratio ;;
                Ok (draw_column img x color)).

Local Abbreviation paint_line :=
  (fun img y => ratio <- Py.truediv y d ;;
                color <- lerp start end_ ratio ;;
                Ok (draw_row img y color)).

Lemma horizontal_loop (xs : list Z) :
  forall img img',
    for_each xs img paint_column = Ok img' ->
    size img' = size img
    /\ forall x' y',
        (In x' xs -> 0 <= y' < snd (size img) ->
         exists ratio,
           Py.truediv x' d = Ok ratio
           /\ lerp start end_ ratio = Ok (getpixel img' x' y'))
        /\ (~ In x' xs -> getpixel img' x' y' = getpixel img x' y').
Proof.
  induction xs as [|x xs IH]; intros img img' Hrun.
  - injection Hrun as <-. split; [reflexivity|].
    intros x' y'. split; [intros []|reflexivity].
  - cbn [for_each] in Hrun.
    destruct (Py.truediv x d) as [ratio|] eqn:Hr; [|discriminate].
    cbn [bind] in Hrun.
    destruct (lerp start end_ ratio) as [c|] eqn:Hc; [|discriminate].
    cbn [bind] in Hrun.
    destruct (IH _ _ Hrun) as [Hsize Hpix].
    split; [rewrite Hsize; reflexivity|].
    intros x' y'. destruct (Hpix x' y') as [Hin Hout].
    change (snd (size (draw_column img x c))) with (snd (size img)) in Hin.
    change (getpixel (draw_column img x c) x' y')
      with (if (x' =? x) && (0 <=? y') && (y' <? snd (size img)) then c
            else getpixel img x' y') in Hout.
    destruct (in_dec Z.eq_dec x' xs) as [Hx|Hx].
    + split; [intros _ Hy; apply Hin; assumption|].
      intros Hn. contradiction Hn. right. exact Hx.
    + split.
      * intros [<-|Hx'] Hy; [|contradiction].
        exists ratio. split; [exact Hr|].
        rewrite (Hout Hx), Z.eqb_refl.
        destruct (Z.leb_spec 0 y'); [|lia].
        destruct (Z.ltb_spec y' (snd (size img))); [|lia].
        exact Hc.
      * intros Hn. rewrite (Hout Hx).
        destruct (Z.eqb_spec x' x) as [->|]; [|reflexivity].
        contradiction Hn. left. reflexivity.
Qed.

Lemma vertical_loop (ys : list Z) :
  forall img img',
    for_each ys img paint_line = Ok img' ->
    size img' = size img
    /\ forall x' y',
        (In y' ys -> 0 <= x' < fst (size img) ->
         exists ratio,
           Py.truediv y' d = Ok ratio
           /\ lerp start end_ ratio = Ok (getpixel img' x' y'))
        /\ (~ In y' ys -> getpixel img' x' y' = getpixel img x' y').
Proof.
  induction ys as [|y ys IH]; intros img img' Hrun.
  - injection Hrun as <-. split; [reflexivity|].
    intros x' y'. split; [intros []|reflexivity].
  - cbn [for_each] in Hrun.
    destruct (Py.truediv y d) as [ratio|] eqn:Hr; [|discriminate].
    cbn [bind] in Hrun.
    destruct (lerp start end_ ratio) as [c|] eqn:Hc; [|discriminate].
    cbn [bind] in Hrun.
    destruct (IH _ _ Hrun) as [Hsize Hpix].
    split; [rewrite Hsize; reflexivity|].
    intros x' y'. destruct (Hpix x' y') as [Hin Hout].
    change (fst (size (draw_row img y c))) with (fst (size img)) in Hin.
    change (getpixel (draw_row img y c) x' y')
      with (if (y' =? y) && (0 <=? x') && (x' <? fst (size img)) then c
            else getpixel img x' y') in Hout.
    destruct (in_dec Z.eq_dec y' ys) as [Hy|Hy].
    + split; [intros _ Hx; apply Hin; assumption|].
      intros Hn. contradiction Hn. right. exact Hy.
    + split.
      * intros [<-|Hy'] Hx; [|contradiction].
        exists ratio. split; [exact Hr|].
        rewrite (Hout Hy), Z.eqb_refl.
        destruct (Z.leb_spec 0 x'); [|lia].
        destruct (Z.ltb_spec x' (fst (size img))); [|lia].
        exact Hc.
      * intros Hn. rewrite (Hout Hy).
        destruct (Z.eqb_spec y' y) as [->|]; [|reflexivity].
        contradiction Hn. left. reflexivity.
Qed.

End AxisLoops.

Lemma endpoint_channels_checked :
  all_from (fun s =>
    all_from (fun e =>
      match lerp_channel s e 0, lerp_channel s e 1 with
      | Ok a, Ok b => (a =? s) && (b =? e)
      | _, _ => false
      end) (Z.to_nat 256) 0) (Z.to_nat 256) 0 = true.
Proof. vm_compute. reflexivity. Qed.

Lemma endpoint_channel (s e : Z) :
  byte s -> byte e ->
  lerp_channel s e 0 = Ok s /\ lerp_channel s e 1 = Ok e.
Proof.
  unfold byte. intros Hs He.
  pose proof (all_from_spec _ _ _ endpoint_channels_checked s ltac:(lia)) as H.
  cbv beta in H.
  pose proof (all_from_spec _ _ _ H e ltac:(lia)) as H'. cbv beta in H'.
  destruct (lerp_channel s e 0) as [a|]; [|discriminate].
  destruct (lerp_channel s e 1) as [b|]; [|discriminate].
  apply andb_prop in H' as [Ha Hb].
  apply Z.eqb_eq in Ha. apply Z.eqb_eq in Hb. subst. split; reflexivity.
Qed.

Lemma endpoint_colors (start end_ : RGBA) :
  bytes start -> bytes end_ ->
  lerp start end_ 0 = Ok start /\ lerp start end_ 1 = Ok end_.
Proof.
  destruct start as [[[r0 g0] b0] a0], end_ as [[[r1 g1] b1] a1].
  intros (Hr0 & Hg0 & Hb0 & Ha0) (Hr1 & Hg1 & Hb1 & Ha1).
  unfold lerp.
  destruct (endpoint_channel r0 r1 Hr0 Hr1) as [-> ->].
  destruct (endpoint_channel g0 g1 Hg0 Hg1) as [-> ->].
  destruct (endpoint_channel b0 b1 Hb0 Hb1) as [-> ->].
  destruct (endpoint_channel a0 a1 Ha0 Ha1) as [-> ->].
  split; reflexivity.
Qed.

(** The gradient layer before the corrections, on the 1280 x 720 canvas:
    the first column or row is the start colour and the last one the end
    colour. *)
Lemma gradient_layer_endpoints (env : Env) (app : Designer) (start end_ : RGBA)
        (img : Image) :
  let g := BackgroundSettings.gradient (background app) in
  base_width app = 1280 -> base_height app = 720 ->
  hex_to_rgba env (GradientSettings.start_color g) 1.0 = Ok start ->
  hex_to_rgba env (GradientSettings.end_color g) 1.0 = Ok end_ ->
  bytes start -> bytes end_ ->
  gradient_pixels env app = Ok img ->
  (GradientSettings.direction g = "horizontal"%string ->
   forall y, 0 <= y < 720 ->
             getpixel img 0 y = start /\ getpixel img 1279 y = end_)
  /\ (GradientSettings.direction g = "vertical"%string ->
      forall x, 0 <= x < 1280 ->
                getpixel img x 0 = start /\ getpixel img x 719 = end_).
Proof.
  intros g HW HH Hs He Bs Be. subst g. unfold gradient_pixels.
  rewrite Hs, He. cbn [bind].
  destruct (endpoint_colors start end_ Bs Be) as [L0 L1].
  intros Hrun. split.
  - intros Hd. rewrite Hd in Hrun.
    change ("horizontal" =? "horizontal")%string with true in Hrun. cbv iota in Hrun.
    intros y Hy.
    destruct (horizontal_loop start end_ _ _ _ _ Hrun) as [_ Hpix].
    change (snd (size (Image_new (canvas_size app) transparent)))
      with (base_height app) in Hpix. rewrite HW, HH in Hpix.
    split.
    + destruct (proj1 (Hpix 0 y)) as (ratio & Hr & Hl);
        [apply in_range; lia|lia|].
      change (Py.truediv 0 (1280 - 1)) with (Ok 0%float) in Hr.
      injection Hr as <-. rewrite L0 in Hl. injection Hl as <-. reflexivity.
    + destruct (proj1 (Hpix 1279 y)) as (ratio & Hr & Hl);
        [apply in_range; lia|lia|].
      change (Py.truediv 1279 (1280 - 1)) with (Ok 1%float) in Hr.
      injection Hr as <-. rewrite L1 in Hl. injection Hl as <-. reflexivity.
  - intros Hd. rewrite Hd in Hrun.
    change ("vertical" =? "horizontal")%string with false in Hrun.
    change ("vertical" =? "vertical")%string with true in Hrun. cbv iota in Hrun.
    intros x Hx.
    destruct (vertical_loop start end_ _ _ _ _ Hrun) as [_ Hpix].
    change (fst (size (Image_new (canvas_size app) transparent)))
      with (base_width app) in Hpix. rewrite HW, HH in Hpix.
    split.
    + destruct (proj1 (Hpix x 0)) as (ratio & Hr & Hl);
        [apply in_range; lia|lia|].
      change (Py.truediv 0 (720 - 1)) with (Ok 0%float) in Hr.
      injection Hr as <-. rewrite L0 in Hl. injection Hl as <-. reflexivity.
    + destruct (proj1 (Hpix x 719)) as (ratio & Hr & Hl);
        [apply in_range; lia|lia|].
      change (Py.truediv 719 (720 - 1)) with (Ok 1%float) in Hr.
      injection Hr as <-. rewrite L1 in Hl. injection Hl as <-. reflexivity.
Qed.

Lemma sample_columns_checked :
  all_from (fun x =>
              match (ratio <- Py.truediv x 1279 ;;
                     lerp (255, 56, 56, 255) (255, 207, 0, 255) ratio)
              with
              | Ok _ => true
              | Raise _ => false
              end) (Z.to_nat 1280) 0 = true.
Proof. vm_compute. reflexivity. Qed.

Lemma sample_renders :
  exists img, gradient_pixels sample_env sample_app = Ok img.
Proof.
  unfold gradient_pixels.
  change (hex_to_rgba sample_env
            (GradientSettings.start_color
               (BackgroundSettings.gradient (background sample_app))) 1.0)
    with (Ok (A:=RGBA) (255, 56, 56, 255)).
  change (hex_to_rgba sample_env
            (GradientSettings.end_color
               (BackgroundSettings.gradient (background sample_app))) 1.0)
    with (Ok (A:=RGBA) (255, 207, 0, 255)).
  cbn [bind].
  change (GradientSettings.direction
            (BackgroundSettings.gradient (background sample_app)))
    with "horizontal"%string.
  change ("horizontal" =? "horizontal")%string with true. cbv iota.
  apply for_each_total. intros img x Hx. apply in_range in Hx.
  change (base_width sample_app) with 1280 in *.
  pose proof (all_from_spec _ _ _ sample_columns_checked x ltac:(lia)) as H.
  cbv beta in H. change (1280 - 1) with 1279.
  destruct (Py.truediv x 1279) as [ratio|]; [|discriminate]. cbn [bind] in *.
  destruct (lerp _ _ ratio) as [c|]; [|discriminate].
  eexists. reflexivity.
Qed.

Lemma neutral_corrections (env : Env) (bg : BackgroundSettings.t) (img : Image) :
  (BackgroundSettings.brightness bg =? 1.0)%float = true ->
  (BackgroundSettings.contrast bg =? 1.0)%float = true ->
  (BackgroundSettings.saturation bg =? 1.0)%float = true ->
  _apply_background_corrections env bg img = img.
Proof.
  intros Hb Hc Hs. unfold _apply_background_corrections.
  rewrite Hb, Hc, Hs. reflexivity.
Qed.

(** X12: on the 1280 x 720 canvas, for start and end colours with channels in
    0..255, the background [_render_gradient_background] returns is the
    brightness, contrast and saturation corrections applied to a gradient
    layer which, for a horizontal gradient, has the start colour in every
    pixel of column 0 and the end colour in every pixel of column 1279, and
    for a vertical gradient has them in row 0 and row 719.  With all three
    corrections at 1.0 nothing is applied and the returned background
    itself has these columns and rows; with a brightness other than 1.0
    the returned background is the brightness enhancement of that layer,
    with the contrast and saturation corrections after it. *)
Theorem gradient_endpoints (env : Env) (app : Designer) (start end_ : RGBA)
        (img : Image) :
  let bg := background app in
  let g := BackgroundSettings.gradient bg in
  base_width app = 1280 -> base_height app = 720 ->
  hex_to_rgba env (GradientSettings.start_color g) 1.0 = Ok start ->
  hex_to_rgba env (GradientSettings.end_color g) 1.0 = Ok end_ ->
  bytes start -> bytes end_ ->
  _render_gradient_background env app = Ok img ->
  (exists layer,
      img = _apply_background_corrections env bg layer
      /\ (GradientSettings.direction g = "horizontal"%string ->
          forall y, 0 <= y < 720 ->
                    getpixel layer 0 y = start /\ getpixel layer 1279 y = end_)
      /\ (GradientSettings.direction g = "vertical"%string ->
          forall x, 0 <= x < 1280 ->
                    getpixel layer x 0 = start /\ getpixel layer x 719 = end_))
  /\ ((BackgroundSettings.brightness bg =? 1.0)%float = true ->
      (BackgroundSettings.contrast bg =? 1.0)%float = true ->
      (BackgroundSettings.saturation bg =? 1.0)%float = true ->
      (GradientSettings.direction g = "horizontal"%string ->
       forall y, 0 <= y < 720 ->
                 getpixel img 0 y = start /\ getpixel img 1279 y = end_)
      /\ (GradientSettings.direction g = "vertical"%string ->
          forall x, 0 <= x < 1280 ->
                    getpixel img x 0 = start /\ getpixel img x 719 = end_))
  /\ (forall factor,
         BackgroundSettings.brightness bg = factor ->
         (factor =? 1.0)%float = false ->
         exists layer,
           img = (let img1 := enhance_brightness env factor layer in
                  let img2 := if negb (BackgroundSettings.contrast bg =? 1.0)%float
                              then enhance_contrast env
                                     (BackgroundSettings.contrast bg) img1
                              else img1 in
                  if negb (BackgroundSettings.saturation bg =? 1.0)%float
                  then enhance_color env (BackgroundSettings.saturation bg) img2
                  else img2)).
Proof.
  intros bg g HW HH Hs He Bs Be Hrun.
  unfold _render_gradient_background in Hrun.
  destruct (gradient_pixels env app) as [layer|e] eqn:Hlayer; [|discriminate].
  cbn [bind] in Hrun. injection Hrun as <-.
  pose proof (gradient_layer_endpoints env app start end_ layer HW HH Hs He Bs Be
                Hlayer) as [Hh Hv].
  split; [|split].
  - exists layer. split; [reflexivity|]. split; assumption.
  - intros Hb Hc Hsat. fold bg.
    rewrite (neutral_corrections env bg layer Hb Hc Hsat). split; assumption.
  - intros factor Hf Hne. exists layer. fold bg.
    unfold _apply_background_corrections. rewrite Hf, Hne. reflexivity.
Qed.

Lemma sample_background_renders :
  exists img, _render_gradient_background sample_env sample_app = Ok img.
Proof.
  unfold _render_gradient_background.
  destruct sample_renders as (layer & ->). eexists. reflexivity.
Qed.

Lemma gradient_endpoints_witness :
  exists img,
    _render_gradient_background sample_env sample_app = Ok img
    /\ getpixel img 0 0 = (255, 56, 56, 255)
    /\ getpixel img 1279 0 = (255, 207, 0, 255).
Proof.
  destruct sample_background_renders as (img & E).
  exists img. split; [exact E|].
  apply (proj1 (proj1 (proj2 (gradient_endpoints sample_env sample_app
                                (255, 56, 56, 255) (255, 207, 0, 255) img
                                eq_refl eq_refl eq_refl eq_refl
                                ltac:(unfold bytes, byte; cbn; lia)
                                ltac:(unfold bytes, byte; cbn; lia) E))
                      eq_refl eq_refl eq_refl) eq_refl 0).
  lia.
Defined.

(** ** Wrapping a whole text *)

Section WrapMore.

Variable font : Font.
Variable tracking : Z.
Variable max_width_pixels : Z.

Local Abbreviation fits := (fits font tracking max_width_pixels).
Local Abbreviation wrap_word := (wrap_word font tracking max_width_pixels).
Local Abbreviation wrap_line := (wrap_line font tracking max_width_pixels).
Local Abbreviation wrap_lines := (wrap_lines font tracking max_width_pixels).

Lemma wrap_fold_prefix (words : list str) :
  forall rendered cur,
    fold_left wrap_word words (rendered, cur)
    = (rendered ++ fst (fold_left wrap_word words ([], cur)),
       snd (fold_left wrap_word words ([], cur))).
Proof.
  induction words as [|w ws IH]; intros rendered cur; cbn [fold_left].
  - cbn [fst snd]. rewrite app_nil_r. reflexivity.
  - unfold wrap_word at 2 4 6. fold wrap_word.
    destruct (fits _).
    + apply IH.
    + destruct (Py.nonempty cur).
      * rewrite IH. rewrite (IH ([] ++ [cur])). cbn [fst snd app].
        rewrite <- app_assoc. reflexivity.
      * apply IH.
Qed.

Lemma wrap_line_prefix (rendered : list str) (line : str) :
  wrap_line rendered line = rendered ++ wrap_line [] line.
Proof.
  unfold wrap_line.
  destruct (negb (Py.nonempty (Py.strip line))); [reflexivity|].
  rewrite wrap_fold_prefix.
  destruct (fold_left wrap_word (Py.split_space line) ([], [])) as [r c].
  cbn [fst snd app]. rewrite app_assoc. reflexivity.
Qed.

Lemma wrap_lines_from (lines : list str) :
  forall rendered,
    fold_left wrap_line lines rendered
    = rendered ++ List.concat (map (wrap_line []) lines).
Proof.
  induction lines as [|l ls IH]; intros rendered; cbn [fold_left map List.concat].
  - rewrite app_nil_r. reflexivity.
  - rewrite IH, wrap_line_prefix, <- app_assoc. reflexivity.
Qed.

Lemma wrap_line_nonempty (line : str) : wrap_line [] line <> [].
Proof.
  unfold wrap_line.
  destruct (negb (Py.nonempty (Py.strip line))); [discriminate|].
  destruct (fold_left wrap_word (Py.split_space line) ([], [])) as [r c].
  destruct r; discriminate.
Qed.

End WrapMore.

(** X13: the explicit lines of a text are wrapped independently: the
    rendered lines are the wrapped lines of the first line, then those of
    the second, and so on.  Hence every explicit line gives at least one
    rendered line (a blank line gives exactly one blank line), and the words
    of the whole text come out in order, none lost. *)
Theorem wrap_lines_independent (font : Font) (tracking max_width_pixels : Z)
        (lines : list str) :
  wrap_lines font tracking max_width_pixels lines
  = List.concat (map (wrap_line font tracking max_width_pixels []) lines)
  /\ (List.length lines
      <= List.length (wrap_lines font tracking max_width_pixels lines))%nat
  /\ (forall line,
         Py.strip line = [] ->
         wrap_line font tracking max_width_pixels [] line = [[]])
  /\ List.concat (map Py.split (wrap_lines font tracking max_width_pixels lines))
     = List.concat (map Py.split lines).
Proof.
  assert (E : wrap_lines font tracking max_width_pixels lines
              = List.concat (map (wrap_line font tracking max_width_pixels []) lines)).
  { unfold wrap_lines. rewrite wrap_lines_from. reflexivity. }
  split; [exact E|]. split; [|split].
  - rewrite E. clear E. induction lines as [|l ls IH]; [cbn; lia|].
    cbn [map List.concat List.length]. rewrite length_app.
    pose proof (wrap_line_nonempty font tracking max_width_pixels l) as Hne.
    destruct (wrap_line font tracking max_width_pixels [] l); [contradiction|].
    cbn [List.length]. lia.
  - intros line Hb. unfold wrap_line. rewrite Hb. reflexivity.
  - rewrite E. clear E. induction lines as [|l ls IH]; [reflexivity|].
    cbn [map List.concat]. rewrite map_app, concat_app, IH.
    rewrite wrap_line_words. reflexivity.
Qed.

(** ** A line that fits *)

Lemma split_by_ext (p q : ascii -> bool) (s : str) :
  (forall c, In c s -> p c = q c) -> Py.split_by p s = Py.split_by q s.
Proof.
  induction s as [|c s IH]; intros H; [reflexivity|].
  cbn [Py.split_by]. rewrite (H c (or_introl eq_refl)).
  rewrite IH by (intros c' Hc'; apply H; right; exact Hc'). reflexivity.
Qed.

Lemma split_by_solid (p : ascii -> bool) (s : str) :
  Forall (fun w => forallb (fun c => negb (p c)) w = true) (Py.split_by p s).
Proof.
  induction s as [|c s IH]; cbn [Py.split_by].
  - constructor; [reflexivity|constructor].
  - destruct (p c) eqn:E.
    + constructor; [reflexivity|exact IH].
    + destruct (Py.split_by p s) as [|w ws]; [repeat constructor; cbn; rewrite E; reflexivity|].
      inversion IH as [|? ? Hw Hws]; subst.
      constructor; [|exact Hws]. cbn [forallb]. rewrite E, Hw. reflexivity.
Qed.

Lemma spaces_only_split (line : str) :
  spaces_only line ->
  Py.split line = filter Py.nonempty (Py.split_space line)
  /\ Forall solid (Py.split_space line).
Proof.
  intros Hs.
  assert (E : Py.split_by Py.isspace line = Py.split_by (Ascii.eqb " ") line).
  { apply split_by_ext. intros c Hc.
    destruct (Py.isspace c) eqn:Ei.
    - rewrite (Hs c Hc Ei). reflexivity.
    - destruct (Ascii.eqb_spec " " c) as [<-|]; [discriminate Ei|reflexivity]. }
  split.
  - unfold Py.split, Py.split_space. rewrite E. reflexivity.
  - unfold Py.split_space. rewrite <- E. apply split_by_solid.
Qed.

Lemma rstrip_app (a b : str) :
  Py.rstrip b <> [] -> Py.rstrip (a ++ b) = a ++ Py.rstrip b.
Proof.
  intros Hb. induction a as [|x a IH]; [reflexivity|].
  cbn [app Py.rstrip]. rewrite IH.
  destruct (a ++ Py.rstrip b) eqn:E; [|reflexivity].
  apply app_eq_nil in E. destruct E as [_ E]. contradiction.
Qed.

Lemma rstrip_app_blank (a t : str) :
  forallb Py.isspace t = true -> Py.rstrip (a ++ t) = Py.rstrip a.
Proof.
  intros Ht.
  assert (Hn : Py.rstrip t = []).
  { induction t as [|c t IH]; [reflexivity|].
    cbn [forallb] in Ht. apply andb_prop in Ht as [Hc Ht].
    cbn [Py.rstrip]. rewrite (IH Ht), Hc. reflexivity. }
  induction a as [|x a IH]; [exact Hn|].
  cbn [app Py.rstrip]. rewrite IH. reflexivity.
Qed.

Lemma join_snoc (ws : list str) (p : str) :
  ws <> [] ->
  Py.join [" "%char] (ws ++ [p]) = Py.join [" "%char] ws ++ " "%char :: p.
Proof.
  induction ws as [|w ws IH]; intros Hne; [contradiction|].
  destruct ws as [|w2 ws'].
  - reflexivity.
  - change (Py.join [" "%char] ((w :: w2 :: ws') ++ [p]))
      with (w ++ " "%char :: Py.join [" "%char] ((w2 :: ws') ++ [p])).
    rewrite IH by discriminate.
    change (Py.join [" "%char] (w :: w2 :: ws'))
      with (w ++ " "%char :: Py.join [" "%char] (w2 :: ws')).
    rewrite <- app_assoc. reflexivity.
Qed.

(** A non-empty join of solid non-empty words starts and ends with a
    character that is no whitespace. *)
Lemma join_tidy (ws : list str) :
  ws <> [] -> Forall (fun w => solid w /\ w <> []) ws ->
  (exists c rest, Py.join [" "%char] ws = c :: rest /\ Py.isspace c = false)
  /\ Py.rstrip (Py.join [" "%char] ws) = Py.join [" "%char] ws.
Proof.
  induction ws as [|w ws IH]; intros Hne Hall; [contradiction|].
  inversion Hall as [|? ? [Hw Hwne] Hws]; subst.
  assert (Hhead : exists c rest, w = c :: rest /\ Py.isspace c = false).
  { destruct w as [|c rest]; [contradiction|]. exists c, rest.
    split; [reflexivity|]. unfold solid in Hw. cbn [forallb] in Hw.
    apply andb_prop in Hw as [Hc _]. apply negb_true_iff in Hc. exact Hc. }
  destruct ws as [|w2 ws'].
  - split; [exact Hhead|]. apply rstrip_solid. exact Hw.
  - destruct (IH ltac:(discriminate) Hws) as [(c2 & r2 & E2 & _) Hr].
    change (Py.join [" "%char] (w :: w2 :: ws'))
      with (w ++ " "%char :: Py.join [" "%char] (w2 :: ws')).
    split.
    + destruct Hhead as (c & rest & -> & Hc). exists c. eexists.
      split; [reflexivity|exact Hc].
    + assert (Hs : Py.rstrip (" "%char :: Py.join [" "%char] (w2 :: ws'))
                   = " "%char :: Py.join [" "%char] (w2 :: ws')).
      { cbn [Py.rstrip]. rewrite Hr, E2. reflexivity. }
      rewrite rstrip_app; rewrite Hs; [reflexivity|discriminate].
Qed.

Lemma strip_head (c : ascii) (rest : str) :
  Py.isspace c = false -> Py.strip (c :: rest) = Py.rstrip (c :: rest).
Proof. intros Hc. unfold Py.strip. cbn [Py.lstrip]. rewrite Hc. reflexivity. Qed.

Section FittingLine.

Variable font : Font.
Variable tracking : Z.
Variable max_width_pixels : Z.

Local Abbreviation fits := (fits font tracking max_width_pixels).
Local Abbreviation wrap_word := (wrap_word font tracking max_width_pixels).
Local Abbreviation wrap_line := (wrap_line font tracking max_width_pixels).

Lemma wrap_fold_fitting (pieces : list str) :
  forall (ws : list str) (rendered : list str),
    Forall (fun w => solid w /\ w <> []) ws ->
    Forall solid pieces ->
    (forall k, (1 <= k <= List.length (ws ++ filter Py.nonempty pieces))%nat ->
               fits (Py.join [" "%char]
                             (firstn k (ws ++ filter Py.nonempty pieces))) = true) ->
    fold_left wrap_word pieces (rendered, Py.join [" "%char] ws)
    = (rendered, Py.join [" "%char] (ws ++ filter Py.nonempty pieces)).
Proof.
  induction pieces as [|p ps IH]; intros ws rendered Hws Hps Hfit.
  - cbn [fold_left filter]. rewrite app_nil_r. reflexivity.
  - inversion Hps as [|? ? Hp Hps']; subst. cbn [fold_left].
    destruct p as [|c p'].
    + (* an empty piece between two spaces *)
      cbn [filter Py.nonempty] in *.
      assert (Hstep : wrap_word (rendered, Py.join [" "%char] ws) []
                      = (rendered, Py.join [" "%char] ws)).
      { unfold wrap_word. destruct ws as [|w ws'].
        - cbn [Py.join app]. change (Py.strip [" "%char]) with (@nil ascii).
          destruct (fits []); reflexivity.
        - destruct (join_tidy (w :: ws') ltac:(discriminate) Hws)
            as [(c & rest & E & Hc) Hr].
          assert (Ha : Py.strip (Py.join [" "%char] (w :: ws') ++ [" "%char])
                       = Py.join [" "%char] (w :: ws')).
          { rewrite E. cbn [app]. rewrite (strip_head _ _ Hc).
            change (c :: rest ++ [" "%char]) with ((c :: rest) ++ [" "%char]).
            rewrite rstrip_app_blank by reflexivity. rewrite <- E. exact Hr. }
          rewrite Ha.
          specialize (Hfit (List.length (w :: ws'))).
          rewrite firstn_app, firstn_all, Nat.sub_diag in Hfit.
          cbn [firstn] in Hfit. rewrite app_nil_r in Hfit.
          rewrite Hfit; [reflexivity|].
          rewrite length_app. cbn [List.length]. lia. }
      rewrite Hstep. apply IH; assumption.
    + (* a word *)
      cbn [filter Py.nonempty] in *.
      assert (Hatt : Py.strip (Py.join [" "%char] ws ++ " "%char :: c :: p')
                     = Py.join [" "%char] (ws ++ [c :: p'])).
      { destruct ws as [|w ws'].
        - cbn [Py.join app]. unfold Py.strip.
          change (Py.lstrip (" "%char :: c :: p')) with (Py.lstrip (c :: p')).
          apply (strip_solid (c :: p') Hp).
        - rewrite join_snoc by discriminate.
          destruct (join_tidy (w :: ws') ltac:(discriminate) Hws)
            as [(c0 & rest & E & Hc) _].
          rewrite E. cbn [app]. rewrite (strip_head _ _ Hc).
          change (c0 :: rest ++ " "%char :: c :: p')
            with ((c0 :: rest) ++ " "%char :: c :: p').
          assert (Hs : Py.rstrip (" "%char :: c :: p') = " "%char :: c :: p').
          { change (Py.rstrip (" "%char :: c :: p'))
              with (match Py.rstrip (c :: p') with
                    | [] => if Py.isspace " " then [] else [" "%char]
                    | r => " "%char :: r
                    end).
            rewrite (rstrip_solid (c :: p') Hp). reflexivity. }
          rewrite rstrip_app; rewrite Hs; [reflexivity|discriminate]. }
      assert (Hstep : wrap_word (rendered, Py.join [" "%char] ws) (c :: p')
                      = (rendered, Py.join [" "%char] (ws ++ [c :: p']))).
      { unfold wrap_word. rewrite Hatt.
        specialize (Hfit (List.length (ws ++ [c :: p']))).
        change (ws ++ (c :: p') :: filter Py.nonempty ps)
          with (ws ++ [c :: p'] ++ filter Py.nonempty ps) in Hfit.
        rewrite app_assoc in Hfit.
        rewrite firstn_app, firstn_all, Nat.sub_diag in Hfit.
        cbn [firstn] in Hfit. rewrite app_nil_r in Hfit.
        rewrite Hfit; [reflexivity|].
        rewrite !length_app. cbn [List.length]. lia. }
      rewrite Hstep.
      change (ws ++ (c :: p') :: filter Py.nonempty ps)
        with (ws ++ [c :: p'] ++ filter Py.nonempty ps).
      rewrite app_assoc. apply IH.
      * apply Forall_app. split; [exact Hws|].
        constructor; [|constructor]. split; [exact Hp|discriminate].
      * exact Hps'.
      * intros k Hk. rewrite <- app_assoc. apply Hfit.
        rewrite <- app_assoc in Hk. exact Hk.
Qed.

End FittingLine.

(** X14: a line whose only whitespace is the space character and whose
    words, joined by single spaces, fit the width at every prefix is not
    wrapped: it comes out as one line, its words joined by single spaces, so
    leading, trailing and repeated spaces are dropped. *)
Theorem wrap_line_fitting (font : Font) (tracking max_width_pixels : Z)
        (line : str) :
  spaces_only line ->
  Py.split line <> [] ->
  (forall k, (1 <= k <= List.length (Py.split line))%nat ->
             fits font tracking max_width_pixels
                  (Py.join [" "%char] (firstn k (Py.split line))) = true) ->
  wrap_line font tracking max_width_pixels [] line
  = [Py.join [" "%char] (Py.split line)].
Proof.
  intros Hs Hne Hfit.
  destruct (spaces_only_split line Hs) as [Hsplit Hsolid].
  unfold wrap_line.
  assert (Hb : Py.nonempty (Py.strip line) = true).
  { destruct (Py.strip line) eqn:E; [|reflexivity].
    rewrite <- split_strip, E in Hne. contradiction Hne. reflexivity. }
  rewrite Hb. cbn [negb].
  pose proof (wrap_fold_fitting font tracking max_width_pixels
                (Py.split_space line) [] [] (Forall_nil _) Hsolid) as H.
  cbn [app] in H. rewrite <- Hsplit in H.
  change (Py.join [" "%char] []) with (@nil ascii) in H.
  rewrite (H Hfit). reflexivity.
Qed.

Lemma wrap_line_fitting_witness :
  wrap_line (sample_font 20) 0 1000 [] (list_ascii_of_string "  foo   bar ")
  = [list_ascii_of_string "foo bar"].
Proof.
  apply (wrap_line_fitting (sample_font 20) 0 1000
                           (list_ascii_of_string "  foo   bar ")).
  - intros c Hin Hsp. cbn in Hin.
    repeat (destruct Hin as [<-|Hin]; [reflexivity || discriminate Hsp|]).
    destruct Hin.
  - discriminate.
  - intros [|[|[|k]]] Hk; try reflexivity; cbn in Hk; lia.
Defined.

(** ** Greedy packing *)

Lemma pack_nonempty (fit : str -> bool) (words : list str) :
  forall cur, pack fit cur words <> [].
Proof.
  induction words as [|w ws IH]; intros cur; cbn [pack]; [discriminate|].
  destruct (fit _); [apply IH|]. destruct cur; [apply IH|discriminate].
Qed.

Lemma spaced_single (w : str) : spaced [w] = w.
Proof. reflexivity. Qed.

Lemma tidy_spaced (ws : list str) :
  ws <> [] -> Forall tidy ws ->
  Py.nonempty (spaced ws) = true /\ Py.strip (spaced ws) = spaced ws.
Proof.
  intros Hne Ht.
  destruct (join_tidy ws Hne Ht) as [(c & rest & E & Hc) Hr].
  unfold spaced. split.
  - rewrite E. reflexivity.
  - rewrite E, (strip_head c rest Hc), <- E. exact Hr.
Qed.

Lemma attempt_tidy (cur : list str) (w : str) :
  Forall tidy cur -> tidy w ->
  Py.strip (spaced cur ++ " "%char :: w) = spaced (cur ++ [w]).
Proof.
  intros Hcur Hw. destruct cur as [|c cs].
  - change (spaced [] ++ " "%char :: w) with (" "%char :: w).
    change (Py.strip (" "%char :: w)) with (Py.strip w).
    apply strip_solid. exact (proj1 Hw).
  - unfold spaced. rewrite <- join_snoc by discriminate.
    apply (tidy_spaced ((c :: cs) ++ [w])).
    + discriminate.
    + apply Forall_app. split; [exact Hcur|]. constructor; [exact Hw|constructor].
Qed.

Section GreedyPacking.

Variable font : Font.
Variable tracking : Z.
Variable max_width_pixels : Z.

Local Abbreviation fitb := (fits font tracking max_width_pixels).
Local Abbreviation fitp := (within font tracking max_width_pixels).
Local Abbreviation step := (wrap_word font tracking max_width_pixels).

Lemma fits_within (l : str) : fitb l = true <-> fitp l.
Proof. unfold fits, within. apply Z.leb_le. Qed.

Lemma fits_beyond (l : str) : fitb l = false <-> ~ fitp l.
Proof.
  rewrite <- fits_within. destruct (fitb l); split; congruence.
Qed.

Lemma wrap_fold_pack (words : list str) :
  forall (cur : list str) (rendered : list str),
    Forall tidy cur -> Forall tidy words ->
    fold_left step words (rendered, spaced cur)
    = (rendered ++ map spaced (removelast (pack fitb cur words)),
       spaced (last (pack fitb cur words) [])).
Proof.
  induction words as [|w ws IH]; intros cur rendered Hcur Hws.
  - cbn [fold_left pack removelast map last]. rewrite app_nil_r. reflexivity.
  - pose proof (Forall_inv Hws) as Hw. pose proof (Forall_inv_tail Hws) as Hws'.
    cbn [fold_left pack]. unfold wrap_word at 2.
    rewrite (attempt_tidy cur w Hcur Hw).
    destruct (fitb (spaced (cur ++ [w]))) eqn:F.
    + apply IH; [|exact Hws'].
      apply Forall_app. split; [exact Hcur|]. constructor; [exact Hw|constructor].
    + assert (Hone : Forall tidy [w]) by (constructor; [exact Hw|constructor]).
      destruct cur as [|c cs].
      * change (Py.nonempty (spaced [])) with false. cbv iota.
        rewrite <- (spaced_single w) at 1. apply IH; assumption.
      * rewrite (proj1 (tidy_spaced (c :: cs) ltac:(discriminate) Hcur)).
        rewrite <- (spaced_single w) at 1.
        rewrite (IH [w] _ Hone Hws').
        pose proof (pack_nonempty fitb ws [w]) as Hne.
        destruct (pack fitb [w] ws) as [|g gs] eqn:E; [contradiction|].
        cbn [removelast last map]. rewrite <- app_assoc. reflexivity.
Qed.

Lemma pack_spec (words : list str) :
  forall cur,
    cur <> [] \/ words <> [] ->
    (forall k, (2 <= k <= List.length cur)%nat -> fitp (spaced (firstn k cur))) ->
    List.concat (pack fitb cur words) = cur ++ words
    /\ Forall (fun g => g <> []) (pack fitb cur words)
    /\ (forall g k,
           In g (pack fitb cur words) -> (2 <= k <= List.length g)%nat ->
           fitp (spaced (firstn k g)))
    /\ (forall before g w rest after,
           pack fitb cur words = before ++ g :: (w :: rest) :: after ->
           ~ fitp (spaced (g ++ [w])))
    /\ (exists more rest, pack fitb cur words = (cur ++ more) :: rest).
Proof.
  induction words as [|w ws IH]; intros cur Hne Hcur.
  - cbn [pack]. destruct Hne as [Hne|Hne]; [|contradiction].
    split; [cbn; reflexivity|].
    split; [constructor; [exact Hne|constructor]|].
    split; [intros g k [<-|[]]; apply Hcur|].
    split.
    + intros [|b [|b2 before]] g w rest after E; discriminate E.
    + exists [], []. rewrite app_nil_r. reflexivity.
  - cbn [pack]. destruct (fitb (spaced (cur ++ [w]))) eqn:F.
    + destruct (IH (cur ++ [w])) as (Hc & Hn & Hp & Ha & (more & rest & Hh)).
      * left. destruct cur; discriminate.
      * intros k Hk. rewrite length_app in Hk. cbn [List.length] in Hk.
        destruct (Nat.eq_dec k (List.length cur + 1)) as [->|Hlt].
        -- rewrite <- (length_app cur [w]) at 1.
           replace (List.length cur + 1)%nat with (List.length (cur ++ [w]))
             by (rewrite length_app; reflexivity).
           rewrite firstn_all. apply fits_within. exact F.
        -- rewrite firstn_app.
           replace (k - List.length cur)%nat with 0%nat by lia.
           cbn [firstn]. rewrite app_nil_r. apply Hcur. lia.
      * split; [rewrite Hc, <- app_assoc; reflexivity|].
        split; [exact Hn|]. split; [exact Hp|]. split; [exact Ha|].
        exists (w :: more), rest. rewrite Hh, <- app_assoc. reflexivity.
    + destruct (IH [w]) as (Hc & Hn & Hp & Ha & (more & rest & Hh)).
      * left. discriminate.
      * intros k Hk. cbn [List.length] in Hk. lia.
      * destruct cur as [|c cs].
        -- split; [exact Hc|]. split; [exact Hn|]. split; [exact Hp|].
           split; [exact Ha|]. exists ([w] ++ more), rest. exact Hh.
        -- split; [cbn [List.concat]; rewrite Hc; reflexivity|].
           split; [constructor; [discriminate|exact Hn]|].
           split.
           { intros g k [<-|Hin]; [apply Hcur|apply Hp; exact Hin]. }
           split.
           { intros [|b before] g w0 rest0 after E.
             - cbn [List.app] in E. injection E as <- E. rewrite Hh in E.
               cbn [List.app] in E. injection E as <- _ _.
               apply fits_beyond. exact F.
             - cbn [List.app] in E. injection E as _ E.
               apply (Ha _ _ _ _ _ E). }
           exists [], (pack fitb [w] ws). rewrite app_nil_r. reflexivity.
Qed.

End GreedyPacking.

Lemma packed_tail (font : Font) (tracking limit : Z) (g : list str)
      (groups : list (list str)) :
  greedily_packed font tracking limit (List.concat (g :: groups)) (g :: groups) ->
  greedily_packed font tracking limit (List.concat groups) groups.
Proof.
  intros (_ & Hn & Hp & Ha).
  split; [reflexivity|]. split; [exact (Forall_inv_tail Hn)|]. split.
  - intros g0 k Hin. apply Hp. right. exact Hin.
  - intros before g0 w rest after E.
    apply (Ha (g :: before) g0 w rest after). rewrite E. reflexivity.
Qed.

Lemma packed_unique (font : Font) (tracking limit : Z) (g1 : list (list str)) :
  forall (words : list str) (g2 : list (list str)),
    greedily_packed font tracking limit words g1 ->
    greedily_packed font tracking limit words g2 ->
    g1 = g2.
Proof.
  assert (Hshort : forall (a b : list str) (ra rb : list (list str)),
             greedily_packed font tracking limit (List.concat (a :: ra)) (a :: ra) ->
             greedily_packed font tracking limit (List.concat (b :: rb)) (b :: rb) ->
             List.concat (a :: ra) = List.concat (b :: rb) ->
             (List.length a < List.length b)%nat -> False).
  { intros a b ra rb (_ & Hna & _ & Haa) (_ & _ & Hpb & _) E Hlt.
    cbn [List.concat] in E.
    assert (Hb : b = a ++ skipn (List.length a) b).
    { rewrite <- (firstn_skipn (List.length a) b) at 1. f_equal.
      apply (f_equal (firstn (List.length a))) in E.
      rewrite firstn_app, firstn_all, Nat.sub_diag in E. cbn [firstn] in E.
      rewrite app_nil_r in E.
      rewrite firstn_app in E.
      replace (List.length a - List.length b)%nat with 0%nat in E by lia.
      cbn [firstn] in E. rewrite app_nil_r in E. symmetry. exact E. }
    destruct (skipn (List.length a) b) as [|w t] eqn:Es.
    { apply (f_equal (@List.length str)) in Hb. rewrite length_app in Hb.
      cbn [List.length] in Hb. lia. }
    rewrite Hb, <- app_assoc in E. apply app_inv_head in E.
    destruct ra as [|a' ra']; [discriminate E|].
    pose proof (Forall_inv (Forall_inv_tail Hna)) as Ha'.
    destruct a' as [|w' rest']; [contradiction|].
    cbn [List.concat List.app] in E. injection E as -> _.
    pose proof (Forall_inv Hna) as Hane.
    apply (Haa [] a w rest' ra' eq_refl).
    replace (a ++ [w]) with (firstn (List.length a + 1) b).
    - apply Hpb; [left; reflexivity|].
      split; [destruct a; [contradiction|cbn [List.length]; lia]|].
      rewrite Hb, length_app. cbn [List.length]. lia.
    - rewrite Hb at 1. rewrite firstn_app.
      replace (List.length a + 1 - List.length a)%nat with 1%nat by lia.
      rewrite firstn_all2 by lia. reflexivity. }
  induction g1 as [|a ra IH]; intros words g2 H1 H2.
  - destruct H1 as (E1 & _). destruct H2 as (E2 & Hn2 & _).
    cbn [List.concat] in E1. rewrite <- E1 in E2.
    destruct g2 as [|b rb]; [reflexivity|].
    pose proof (Forall_inv Hn2) as Hb. cbn [List.concat] in E2.
    destruct b; [contradiction|discriminate E2].
  - destruct g2 as [|b rb].
    { destruct H1 as (E1 & Hn1 & _). destruct H2 as (E2 & _).
      cbn [List.concat] in E2. rewrite <- E2 in E1.
      pose proof (Forall_inv Hn1) as Ha. cbn [List.concat] in E1.
      destruct a; [contradiction|discriminate E1]. }
    pose proof (proj1 H1) as E1. pose proof (proj1 H2) as E2.
    rewrite <- E1 in H1. rewrite <- E2 in H2.
    assert (E : List.concat (a :: ra) = List.concat (b :: rb)) by congruence.
    assert (Hlen : List.length a = List.length b).
    { destruct (Nat.lt_trichotomy (List.length a) (List.length b)) as [Hlt|[Heq|Hgt]].
      - exfalso. exact (Hshort a b ra rb H1 H2 E Hlt).
      - exact Heq.
      - exfalso. exact (Hshort b a rb ra H2 H1 (eq_sym E) Hgt). }
    cbn [List.concat] in E.
    assert (Hab : a = b).
    { apply (f_equal (firstn (List.length a))) in E.
      rewrite firstn_app, firstn_all, Nat.sub_diag in E. cbn [firstn] in E.
      rewrite app_nil_r in E.
      rewrite Hlen, firstn_app, firstn_all, Nat.sub_diag in E. cbn [firstn] in E.
      rewrite app_nil_r in E. exact E. }
    subst b. apply app_inv_head in E. f_equal.
    apply (IH (List.concat ra)).
    + apply (packed_tail font tracking limit a). exact H1.
    + rewrite E. apply (packed_tail font tracking limit a). exact H2.
Qed.

Lemma wrap_line_packs (font : Font) (tracking max_width_pixels : Z) (line : str) :
  Forall tidy (Py.split_space line) ->
  greedily_packed font tracking max_width_pixels (Py.split_space line)
                  (pack (fits font tracking max_width_pixels) [] (Py.split_space line))
  /\ wrap_line font tracking max_width_pixels [] line
     = map spaced (pack (fits font tracking max_width_pixels) []
                        (Py.split_space line)).
Proof.
  intros Ht.
  assert (Hwords : Py.split_space line <> []).
  { unfold Py.split_space. destruct line as [|c l]; cbn [Py.split_by];
      [discriminate|].
    destruct (Ascii.eqb " " c); [discriminate|].
    destruct (Py.split_by _ l); discriminate. }
  split.
  - destruct (pack_spec font tracking max_width_pixels (Py.split_space line) [])
      as (Hc & Hn & Hp & Ha & _).
    + right. exact Hwords.
    + intros k Hk. cbn [List.length] in Hk. lia.
    + split; [exact Hc|]. split; [exact Hn|]. split; [exact Hp|exact Ha].
  - unfold wrap_line.
    assert (Hline : Py.strip line = line).
    { rewrite <- (join_split_space line).
      apply (tidy_spaced (Py.split_space line) Hwords Ht). }
    assert (Hne : Py.nonempty line = true).
    { rewrite <- (join_split_space line).
      apply (tidy_spaced (Py.split_space line) Hwords Ht). }
    rewrite Hline, Hne. cbn [negb].
    change (@nil ascii) with (spaced []) at 1.
    rewrite (wrap_fold_pack font tracking max_width_pixels (Py.split_space line) []
               [] (Forall_nil _) Ht).
    cbn [List.app].
    pose proof (pack_nonempty (fits font tracking max_width_pixels)
                  (Py.split_space line) []) as Hp.
    symmetry. rewrite (app_removelast_last [] Hp) at 1.
    rewrite map_app. reflexivity.
Qed.

Lemma trailing_space_stripped (ws : list str) :
  ws <> [] -> Forall tidy ws ->
  Py.strip (spaced ws ++ [" "%char]) = spaced ws.
Proof.
  intros Hne Ht.
  destruct (join_tidy ws Hne Ht) as [(c & rest & E & Hc) Hr].
  unfold spaced. rewrite E. cbn [List.app]. rewrite (strip_head _ _ Hc).
  change (c :: rest ++ [" "%char]) with ((c :: rest) ++ [" "%char]).
  rewrite rstrip_app_blank by reflexivity. rewrite <- E. exact Hr.
Qed.

Section SpacedLines.

Variable font : Font.
Variable tracking : Z.
Variable max_width_pixels : Z.

Local Abbreviation fitb := (fits font tracking max_width_pixels).
Local Abbreviation step := (wrap_word font tracking max_width_pixels).

Lemma wrap_fold_pack_spaces (pieces : list str) :
  forall (cur : list str) (rendered : list str),
    Forall tidy cur ->
    cur = [] \/ fitb (spaced cur) = true ->
    Forall solid pieces ->
    (forall w, In w pieces -> w <> [] -> fitb w = true) ->
    fold_left step pieces (rendered, spaced cur)
    = (rendered
       ++ map spaced (removelast (pack fitb cur (filter Py.nonempty pieces))),
       spaced (last (pack fitb cur (filter Py.nonempty pieces)) [])).
Proof.
  induction pieces as [|p ps IH]; intros cur rendered Hcur Hinv Hps Hfit.
  - cbn [fold_left filter pack removelast map last]. rewrite app_nil_r. reflexivity.
  - pose proof (Forall_inv Hps) as Hp. pose proof (Forall_inv_tail Hps) as Hps'.
    assert (Hfit' : forall w, In w ps -> w <> [] -> fitb w = true).
    { intros w Hin. apply Hfit. right. exact Hin. }
    cbn [fold_left]. destruct p as [|c p'].
    + cbn [filter Py.nonempty].
      assert (Hstep : step (rendered, spaced cur) [] = (rendered, spaced cur)).
      { unfold wrap_word. destruct cur as [|w ws'].
        - change (spaced [] ++ [" "%char]) with [" "%char].
          change (Py.strip [" "%char]) with (@nil ascii).
          destruct (fitb []); reflexivity.
        - rewrite (trailing_space_stripped (w :: ws') ltac:(discriminate) Hcur).
          destruct Hinv as [Hinv|Hinv]; [discriminate Hinv|].
          rewrite Hinv. reflexivity. }
      rewrite Hstep. apply IH; assumption.
    + cbn [filter Py.nonempty pack].
      assert (Hw : tidy (c :: p')) by (split; [exact Hp|discriminate]).
      unfold wrap_word at 2. rewrite (attempt_tidy cur (c :: p') Hcur Hw).
      assert (Halone : fitb (spaced [c :: p']) = true).
      { apply (Hfit (c :: p')); [left; reflexivity|discriminate]. }
      assert (Hone : Forall tidy [c :: p']) by (constructor; [exact Hw|constructor]).
      destruct (fitb (spaced (cur ++ [c :: p']))) eqn:F.
      * apply IH; try assumption; [|right; exact F].
        apply Forall_app. split; assumption.
      * destruct cur as [|w ws'].
        -- change (Py.nonempty (spaced [])) with false. cbv iota.
           rewrite <- (spaced_single (c :: p')) at 1.
           apply IH; try assumption. right. exact Halone.
        -- rewrite (proj1 (tidy_spaced (w :: ws') ltac:(discriminate) Hcur)).
           rewrite <- (spaced_single (c :: p')) at 1.
           rewrite (IH [c :: p'] _ Hone (or_intror Halone) Hps' Hfit').
           pose proof (pack_nonempty fitb (filter Py.nonempty ps) [c :: p']) as Hne.
           destruct (pack fitb [c :: p'] (filter Py.nonempty ps)) as [|g gs] eqn:E;
             [contradiction|].
           cbn [removelast last map]. rewrite <- app_assoc. reflexivity.
Qed.

End SpacedLines.

Lemma spaced_line_packs (font : Font) (tracking max_width_pixels : Z) (line : str) :
  spaces_only line ->
  Py.split line <> [] ->
  (forall w, In w (Py.split line) -> within font tracking max_width_pixels w) ->
  greedily_packed font tracking max_width_pixels (Py.split line)
                  (pack (fits font tracking max_width_pixels) [] (Py.split line))
  /\ wrap_line font tracking max_width_pixels [] line
     = map spaced (pack (fits font tracking max_width_pixels) [] (Py.split line)).
Proof.
  intros Hs Hne Hfit.
  destruct (spaces_only_split line Hs) as [Hsplit Hsolid].
  split.
  - destruct (pack_spec font tracking max_width_pixels (Py.split line) [])
      as (Hc & Hn & Hp & Ha & _).
    + right. exact Hne.
    + intros k Hk. cbn [List.length] in Hk. lia.
    + split; [exact Hc|]. split; [exact Hn|]. split; [exact Hp|exact Ha].
  - unfold wrap_line.
    assert (Hb : Py.nonempty (Py.strip line) = true).
    { destruct (Py.strip line) eqn:E; [|reflexivity].
      rewrite <- split_strip, E in Hne. contradiction Hne. reflexivity. }
    rewrite Hb. cbn [negb].
    change (@nil ascii) with (spaced []) at 1.
    rewrite (wrap_fold_pack_spaces font tracking max_width_pixels
               (Py.split_space line) [] [] (Forall_nil _) (or_introl eq_refl)
               Hsolid).
    + rewrite <- Hsplit. cbn [List.app].
      pose proof (pack_nonempty (fits font tracking max_width_pixels)
                    (Py.split line) []) as Hp.
      symmetry. rewrite (app_removelast_last [] Hp) at 1.
      rewrite map_app. reflexivity.
    + intros w Hin Hw. apply fits_within. apply Hfit. rewrite Hsplit.
      apply filter_In. split; [exact Hin|]. destruct w; [contradiction|reflexivity].
Qed.



(** ** Workspace files *)

Lemma create_background_roundtrip (b : BackgroundSettings.t) :
  create_background_settings (Some (BackgroundDict.asdict b)) = Ok b.
Proof. destruct b as [m sc [s e d] [p|] br bt ct st]; reflexivity. Qed.

Lemma create_all_roundtrip {A : Type} (create : string -> option dict -> result A)
      (asdict : A -> dict) (fresh : nat -> string) (ls : list A) :
  (forall f l, create f (Some (asdict l)) = Ok l) ->
  forall start, create_all create fresh start (map asdict ls) = Ok ls.
Proof.
  intros Hc. induction ls as [|l ls IH]; intros start; [reflexivity|].
  cbn [map create_all]. rewrite Hc, IH. reflexivity.
Qed.

(** X15: loading what [save_workspace] wrote, the file being read back as it
    was written, gives back the saved scene: the background, the text, image
    and overlay layers with all their fields and ids, and the layer order;
    the selection moves to the first layer of each kind and the canvas size
    of the loading application is kept. *)
Theorem workspace_round_trip (env : Env) (fresh : nat -> string)
        (app app0 : Designer) :
  let app' := fst (load_workspace env fresh (save_workspace app) app0) in
  background app' = background app
  /\ text_layers app' = text_layers app
  /\ image_layers app' = image_layers app
  /\ overlay_layers app' = overlay_layers app
  /\ layer_order app' = layer_order app
  /\ current_text_id app' = first_id TextLayer.id (text_layers app)
  /\ current_image_id app' = first_id ImageLayer.id (image_layers app)
  /\ current_overlay_id app' = first_id OverlayLayer.id (overlay_layers app)
  /\ base_width app' = base_width app0 /\ base_height app' = base_height app0.
Proof.
  intros app'. subst app'. unfold load_workspace, save_workspace.
  cbn [ws_background ws_text_layers ws_image_layers ws_overlay_layers
       ws_layer_order or_empty].
  rewrite create_background_roundtrip.
  rewrite (create_all_roundtrip create_text_layer TextDict.asdict fresh _
             create_text_roundtrip).
  rewrite (create_all_roundtrip create_image_layer ImageDict.asdict fresh _
             create_image_roundtrip).
  rewrite (create_all_roundtrip create_overlay_layer OverlayDict.asdict fresh _
             create_overlay_roundtrip).
  match goal with |- context [rerender env ?a] =>
    destruct (rerender_scene env a) as (Ht & Ho & Hi & Hord);
    destruct (rerender_keeps env a) as (Hw & Hh & Hb & Hct & Hci & Hco)
  end.
  rewrite Ht, Ho, Hi, Hord, Hw, Hh, Hb, Hct, Hci, Hco.
  repeat split.
Qed.

Lemma bind_type_error {A B : Type} (m : result A) (k : A -> result B) :
  only_type_error m -> (forall a, only_type_error (k a)) ->
  only_type_error (bind m k).
Proof.
  intros Hm Hk e. destruct m as [a|e0]; cbn [bind].
  - apply Hk.
  - intros [= <-]. apply Hm. reflexivity.
Qed.

Lemma ok_type_error {A : Type} (a : A) : only_type_error (Ok a).
Proof. intros e. discriminate. Qed.

Lemma raise_type_error {A : Type} : only_type_error (@Raise A TypeError).
Proof. intros e [= <-]. reflexivity. Qed.

Lemma arg_str_type_error d k v : only_type_error (arg_str d k v).
Proof.
  unfold arg_str. destruct (get k d) as [[]|];
    first [apply ok_type_error | apply raise_type_error].
Qed.

Lemma arg_int_type_error d k v : only_type_error (arg_int d k v).
Proof.
  unfold arg_int. destruct (get k d) as [[]|];
    first [apply ok_type_error | apply raise_type_error].
Qed.

Lemma arg_float_type_error d k v : only_type_error (arg_float d k v).
Proof.
  unfold arg_float. destruct (get k d) as [[]|];
    first [apply ok_type_error | apply raise_type_error].
Qed.

Lemma arg_bool_type_error d k v : only_type_error (arg_bool d k v).
Proof.
  unfold arg_bool. destruct (get k d) as [[]|];
    first [apply ok_type_error | apply raise_type_error].
Qed.

Lemma kwargs_type_error {A : Type} (known : bool) (m : result A) :
  only_type_error m ->
  only_type_error (if negb known then Raise TypeError else m).
Proof. intros H. destruct known; [exact H|apply raise_type_error]. Qed.

Lemma create_text_raises (fresh_id : string) (data : option dict) (e : exn) :
  create_text_layer fresh_id data = Raise e -> e = TypeError.
Proof.
  revert e. change (only_type_error (create_text_layer fresh_id data)).
  unfold create_text_layer.
  destruct data as [[|kv d]|]; try apply ok_type_error.
  apply bind_type_error.
  { destruct (get "shadow" (kv :: d)) as [[]|]; try apply ok_type_error.
    unfold ShadowDict.of_kwargs. apply kwargs_type_error.
    repeat (apply bind_type_error; [|intros ?]);
      first [apply ok_type_error | apply arg_str_type_error
            | apply arg_int_type_error | apply arg_float_type_error
            | apply arg_bool_type_error]. }
  intros sh. apply bind_type_error.
  { destruct (get "stroke" (kv :: d)) as [[]|]; try apply ok_type_error.
    unfold StrokeDict.of_kwargs. apply kwargs_type_error.
    repeat (apply bind_type_error; [|intros ?]);
      first [apply ok_type_error | apply arg_str_type_error
            | apply arg_int_type_error]. }
  intros st. unfold TextDict.of_kwargs.
  apply kwargs_type_error. cbv zeta.
  repeat (apply bind_type_error; [|intros ?]);
    first [apply ok_type_error | apply arg_str_type_error
          | apply arg_int_type_error | apply arg_float_type_error].
Qed.

Lemma create_text_unknown_key (fresh_id : string) (d : dict) :
  known_keys TextDict.fields d = false ->
  create_text_layer fresh_id (Some d) = Raise TypeError.
Proof.
  intros Hk.
  destruct (create_text_layer fresh_id (Some d)) as [l|e] eqn:E.
  - exfalso. unfold create_text_layer in E.
    destruct d as [|kv d']; [discriminate Hk|].
    destruct (match get "shadow" (kv :: d') with
              | Some (VDict d0) => ShadowDict.of_kwargs d0
              | _ => Ok ShadowSettings.default
              end) as [sh|]; [|discriminate].
    cbn [bind] in E.
    destruct (match get "stroke" (kv :: d') with
              | Some (VDict d0) => StrokeDict.of_kwargs d0
              | _ => Ok StrokeSettings.default
              end) as [st|]; [|discriminate].
    cbn [bind] in E. unfold TextDict.of_kwargs in E. rewrite Hk in E.
    discriminate.
  - apply create_text_raises in E. subst e. reflexivity.
Qed.

Lemma create_all_text_unknown_key (fresh : nat -> string) (dicts : list dict)
      (d : dict) :
  In d dicts -> known_keys TextDict.fields d = false ->
  forall start, create_all create_text_layer fresh start dicts = Raise TypeError.
Proof.
  intros Hin Hk. induction dicts as [|d0 ds IH]; [contradiction|].
  intros start. cbn [create_all].
  destruct (create_text_layer (fresh start) (Some d0)) as [l|e1] eqn:E1; cbn [bind].
  - destruct Hin as [->|Hin].
    + rewrite (create_text_unknown_key _ _ Hk) in E1. discriminate.
    + rewrite (IH Hin). reflexivity.
  - apply create_text_raises in E1. subst e1. reflexivity.
Qed.

(** X16: loading is not atomic.  A workspace whose background is accepted
    but one of whose text layers carries a key that is no field of
    [TextLayer] is rejected with [TypeError] after the background has been
    replaced: the application is left with the file's background and its
    own old layers, selection and layer order. *)
Theorem load_is_not_atomic (env : Env) (fresh : nat -> string)
        (data : Workspace) (app : Designer) (bg : BackgroundSettings.t)
        (d : dict) :
  create_background_settings (ws_background data) = Ok bg ->
  In d (or_empty (ws_text_layers data)) ->
  known_keys TextDict.fields d = false ->
  load_workspace env fresh data app = (set_background bg app, Raise TypeError).
Proof.
  intros Hbg Hin Hk. unfold load_workspace. rewrite Hbg.
  rewrite (create_all_text_unknown_key fresh _ d Hin Hk). reflexivity.
Qed.

Lemma load_is_not_atomic_witness :
  load_workspace sample_env (fun _ => "t0"%string)
    (mkWorkspace (Some (BackgroundDict.asdict (background fade_app)))
                 (Some [[("label"%string, VStr "A"); ("colour"%string, VStr "#fff")]])
                 None None None)
    sample_app
  = (set_background (background fade_app) sample_app, Raise TypeError).
Proof.
  apply (load_is_not_atomic sample_env (fun _ => "t0"%string) _ sample_app
           (background fade_app)
           [("label"%string, VStr "A"); ("colour"%string, VStr "#fff")]).
  - reflexivity.
  - left. reflexivity.
  - reflexivity.
Defined.

(** ** Tracking widths *)

Lemma spaced_out_length (n : nat) (text : str) :
  List.length (spaced_out n text)
  = (List.length text + (List.length text - 1) * n)%nat.
Proof.
  induction text as [|c rest IH]; [reflexivity|].
  destruct rest as [|d rest']; [reflexivity|].
  change (spaced_out n (c :: d :: rest'))
    with (c :: repeat " "%char n ++ spaced_out n (d :: rest')).
  cbn [List.length] in *. rewrite length_app, repeat_length, IH.
  rewrite !Nat.sub_succ, !Nat.sub_0_r. cbn [Nat.mul]. lia.
Qed.

(** X17: [_apply_tracking] makes a line of [len > 0] characters
    [len + (len - 1) * max(0, tracking // 20)] characters long; every
    tracking below 20, negative ones included, leaves the line exactly as it
    is. *)
Theorem tracking_length (text : str) (tracking : Z) :
  List.length (_apply_tracking text tracking)
  = (List.length text
     + (List.length text - 1) * Z.to_nat (Z.max 0 (tracking / 20)))%nat
  /\ (tracking < 20 -> _apply_tracking text tracking = text).
Proof.
  assert (E : _apply_tracking text tracking
              = spaced_out (Z.to_nat (Z.max 0 (tracking / 20))) text).
  { unfold _apply_tracking. destruct (Z.eqb_spec tracking 0) as [->|_].
    - change (Z.to_nat (Z.max 0 (0 / 20))) with 0%nat.
      induction text as [|c rest IH]; [reflexivity|].
      destruct rest; [reflexivity|].
      change (spaced_out 0 (c :: a :: rest)) with (c :: spaced_out 0 (a :: rest)).
      rewrite <- IH. reflexivity.
    - apply join_singletons. }
  split.
  - rewrite E. apply spaced_out_length.
  - intros Hlt. rewrite E.
    assert (H0 : Z.to_nat (Z.max 0 (tracking / 20)) = 0%nat).
    { assert (tracking / 20 <= 0) by (apply Z.lt_succ_r, Z.div_lt_upper_bound; lia).
      lia. }
    rewrite H0. clear. induction text as [|c rest IH]; [reflexivity|].
    destruct rest; [reflexivity|].
    change (spaced_out 0 (c :: a :: rest)) with (c :: spaced_out 0 (a :: rest)).
    rewrite IH. reflexivity.
Qed.

Lemma tracking_length_witness :
  _apply_tracking (list_ascii_of_string "abc") 19 = list_ascii_of_string "abc".
Proof.
  apply (proj2 (tracking_length (list_ascii_of_string "abc") 19)). lia.
Defined.

(** ** Reset *)

Lemma default_layers_created (id1 id2 id3 : string) :
  create_text_layer id1 (Some headline_payload)
  = Ok (TextLayer.set_id id1 default_headline)
  /\ create_text_layer id2 (Some subhead_payload)
     = Ok (TextLayer.set_id id2 default_subhead)
  /\ create_overlay_layer id3 (Some banner_payload)
     = Ok (OverlayLayer.set_id id3 default_banner).
Proof. repeat split. Qed.

(** X18: a confirmed [_reset_layers] replaces whatever layers the scene had
    by the default stack: the headline, the subheadline and the banner, in
    that paint order, with the headline selected; the background is kept and
    no stale entry is left.  The overlay and image selections are not
    reset, so the overlay selection names no layer afterwards unless it
    happens to equal the new banner's id.  An unconfirmed reset changes
    nothing. *)
Theorem reset_restores_defaults (env : Env) (id1 id2 id3 : string)
        (app : Designer) :
  let app' := fst (_reset_layers env true id1 id2 id3 app) in
  text_layers app'
  = [TextLayer.set_id id1 default_headline; TextLayer.set_id id2 default_subhead]
  /\ overlay_layers app' = [OverlayLayer.set_id id3 default_banner]
  /\ image_layers app' = []
  /\ layer_order app'
     = [("text"%string, id1); ("text"%string, id2); ("overlay"%string, id3)]
  /\ current_text_id app' = Some id1
  /\ background app' = background app
  /\ well_referenced app'
  /\ current_overlay_id app' = current_overlay_id app
  /\ (current_overlay_id app <> Some id3 -> _get_current_overlay app' = None)
  /\ _reset_layers env false id1 id2 id3 app = (app, Ok tt).
Proof.
  intros app'. subst app'. unfold _reset_layers, _add_default_layers. cbn [negb].
  destruct (default_layers_created id1 id2 id3) as (-> & -> & ->). cbn [bind].
  match goal with |- context [rerender env ?a] =>
    set (reset := a);
    destruct (rerender_scene env reset) as (Ht & Ho & Hi & Hord);
    destruct (rerender_keeps env reset) as (_ & _ & Hb & Hct & _ & Hco);
    pose proof (rerender_well_referenced env reset) as Hwr
  end.
  rewrite Ht, Ho, Hi, Hord, Hb, Hct, Hco.
  split; [reflexivity|]. split; [reflexivity|]. split; [reflexivity|].
  split; [reflexivity|]. split; [reflexivity|]. split; [reflexivity|].
  split.
  { apply Hwr. intros entry [<-|[<-|[<-|[]]]]; unfold resolves; cbn;
      rewrite ?String.eqb_refl; try reflexivity.
    destruct (id1 =? id2)%string; reflexivity. }
  split; [reflexivity|]. split; [|reflexivity].
  intros Hne. unfold _get_current_overlay. rewrite Hco, Ho.
  subst reset. cbn [current_overlay_id overlay_layers List.app].
  destruct (current_overlay_id app) as [cid|]; [|reflexivity].
  cbn [truthy_id truthy_path]. destruct (String.eqb cid ""); [reflexivity|].
  cbn [find OverlayLayer.id OverlayLayer.set_id].
  destruct (String.eqb_spec id3 cid) as [->|]; [|reflexivity].
  contradiction Hne. reflexivity.
Qed.

Lemma reset_restores_defaults_witness :
  _get_current_overlay
    (fst (_reset_layers sample_env true "n1" "n2" "n3" three_texts_app))
  = None.
Proof.
  apply (proj1 (proj2 (proj2 (proj2 (proj2 (proj2 (proj2 (proj2 (proj2
          (reset_restores_defaults sample_env "n1" "n2" "n3" three_texts_app)))))))))).
  discriminate.
Defined.
